(** * DynamicTerrain: a shallow embedding of the height map, the mesh
    section and border generators, the section update pass and the
    worker scheduler of [ATerrain::RebuildMesh].

    Integers of the C++ code are [Z] with their wrap-around written out
    ([int32] through [wrap32], [uint16] through [u16]); [float] values are
    modelled by real numbers ([R]), so rounding is not modelled.  A [TArray]
    is a [list]; an access outside the array, which fails UE's range check,
    makes the operation return [None]. *)

From Stdlib Require Import ZArith List Lia Reals Lra Permutation Sorting.
Import ListNotations.

Open Scope Z_scope.

(** ** Machine integers *)

(** Two's complement wrap-around of a 32-bit signed integer. *)
Definition wrap32 (z : Z) : Z := (z + 2 ^ 31) mod 2 ^ 32 - 2 ^ 31.

(** Wrap-around of a 16-bit unsigned integer ([uint16]). *)
Definition u16 (z : Z) : Z := z mod 65536.

(** ** TArray operations *)

Section TArray.
Context {A : Type}.

Fixpoint list_set (l : list A) (n : nat) (v : A) : list A :=
  match l, n with
  | [], _ => []
  | _ :: t, O => v :: t
  | h :: t, S n' => h :: list_set t n' v
  end.

(** [Array[i]] as an rvalue. *)
Definition arr_get (l : list A) (i : Z) : option A :=
  if 0 <=? i then nth_error l (Z.to_nat i) else None.

(** [Array[i] = v]. *)
Definition arr_set (l : list A) (i : Z) (v : A) : option (list A) :=
  if (0 <=? i) && (i <? Z.of_nat (length l)) then Some (list_set l (Z.to_nat i) v)
  else None.

(** [TArray::SetNum]: the new elements are default-constructed ([d]),
    extra elements are removed; a negative size fails the array's
    check. *)
Definition SetNum (l : list A) (n : Z) (d : A) : option (list A) :=
  if n <? 0 then None
  else if Z.of_nat (length l) <? n
       then Some (l ++ repeat d (Z.to_nat n - length l))
       else Some (firstn (Z.to_nat n) l).

(** [TArray::Add]. *)
Definition arr_add (l : list A) (v : A) : list A := l ++ [v].
End TArray.

(** [TArray::SetNumZeroed] of UE's [Array.h]: grows with zeroed elements
    ([AddZeroed]) or shrinks ([RemoveAt]); the elements already present and
    kept are not touched. *)
Definition SetNumZeroed (l : list R) (n : Z) : option (list R) :=
  if n <? 0 then None
  else if Z.of_nat (length l) <? n
       then Some (l ++ repeat 0%R (Z.to_nat n - length l))
       else Some (firstn (Z.to_nat n) l).

(** Option sequencing, for the fallible array accesses. *)
Notation "'let*' x := c 'in' k" :=
  (match c with Some x => k | None => None end)
  (at level 200, x pattern, c at level 100, right associativity).

(** ** UHeightMap (HeightMap.cpp) *)

Record UHeightMap := mkMap {
  WidthX : Z;
  WidthY : Z;
  MaxHeight : Z;
  MapData : list R
}.

(** The cell index [Y * WidthX + X] computed by [GetHeight]/[SetHeight]:
    the product is taken on [uint32] and then used as the [int32] index of
    [TArray::operator[]]; both conversions only depend on the value modulo
    [2^32], so one [wrap32] gives the index. *)
Definition MapIndex (m : UHeightMap) (X Y : Z) : Z := wrap32 (Y * WidthX m + X).

(** [float UHeightMap::GetHeight(uint32 X, uint32 Y) const]. *)
Definition GetHeight (m : UHeightMap) (X Y : Z) : option R :=
  arr_get (MapData m) (MapIndex m X Y).

(** [void UHeightMap::SetHeight(uint32 X, uint32 Y, float Height)]. *)
Definition SetHeight (m : UHeightMap) (X Y : Z) (H : R) : option UHeightMap :=
  let* d := arr_set (MapData m) (MapIndex m X Y) H in
  Some (mkMap (WidthX m) (WidthY m) (MaxHeight m) d).

(** [void UHeightMap::Resize(int32 X, int32 Y, int32 Z)]. *)
Definition Resize (m : UHeightMap) (X Y Z : Z) : option UHeightMap :=
  if (X <=? 0) || (Y <=? 0) || (Z <=? 0) then Some m
  else
    let* d := SetNumZeroed (MapData m) (wrap32 (X * Y)) in
    Some (mkMap X Y Z d).

(** [float UHeightMap::BPGetHeight(int32 X, int32 Y) const]. *)
Definition BPGetHeight (m : UHeightMap) (X Y : Z) : option R :=
  if (X <? 0) || (Y <? 0) then Some 0%R else GetHeight m X Y.

(** The data model's invariant: the array holds [WidthX * WidthY] cells,
    a size an [int32] can hold. *)
Definition wf_map (m : UHeightMap) : Prop :=
  0 <= WidthX m /\ 0 <= WidthY m /\ WidthX m * WidthY m < 2 ^ 31 /\
  length (MapData m) = Z.to_nat (WidthX m * WidthY m).

(** The stored height of an in-range cell. *)
Definition hget (m : UHeightMap) (X Y : Z) : R :=
  nth (Z.to_nat (Y * WidthX m + X)) (MapData m) 0%R.

(** ** Vectors (UE's FVector, FVector2D, FProcMeshTangent) *)

Record FVector := mkV { VX : R; VY : R; VZ : R }.
Record FVector2D := mkV2 { V2X : R; V2Y : R }.
Record FProcMeshTangent := mkTangent { TangentX : FVector; bFlipTangentY : bool }.

(** [FProcMeshTangent(X, Y, Z)]. *)
Definition ProcMeshTangent (x y z : R) : FProcMeshTangent := mkTangent (mkV x y z) false.

Definition SMALL_NUMBER : R := (1 / 100000000)%R.

(** [FVector::Normalize(SMALL_NUMBER)]: scales by [InvSqrt] of the squared
    size when that exceeds the tolerance, and leaves the vector alone
    otherwise. *)
Definition Normalize (v : FVector) : FVector :=
  let SquareSum := (VX v * VX v + VY v * VY v + VZ v * VZ v)%R in
  if Rlt_dec SMALL_NUMBER SquareSum
  then let Scale := (/ sqrt SquareSum)%R in
       mkV (VX v * Scale) (VY v * Scale) (VZ v * Scale)
  else v.

(** [FVector::CrossProduct(A, B)]. *)
Definition CrossProduct (A B : FVector) : FVector :=
  mkV (VY A * VZ B - VZ A * VY B)%R (VZ A * VX B - VX A * VZ B)%R (VX A * VY B - VY A * VX B)%R.

Definition ZeroVector : FVector := mkV 0 0 0.

(** ** ComponentData (Terrain.h) *)

Record ComponentData := mkData {
  Vertices : list FVector;
  UV0 : list FVector2D;
  Normals : list FVector;
  Tangents : list FProcMeshTangent;
  Triangles : list Z
}.

Definition EmptyData : ComponentData := mkData [] [] [] [] [].

(** [void ComponentData::Allocate(int32 Size)]: the arrays are emptied and
    then given [Size * Size] (vertex arrays) and [(Size - 1) * (Size - 1) * 6]
    (index array) default elements; the int32 products wrap. *)
Definition Allocate (Size : Z) : option ComponentData :=
  let* vs := SetNum [] (wrap32 (Size * Size)) ZeroVector in
  let* uvs := SetNum [] (wrap32 (Size * Size)) (mkV2 0 0) in
  let* ns := SetNum [] (wrap32 (Size * Size)) ZeroVector in
  let* ts := SetNum [] (wrap32 (Size * Size)) (ProcMeshTangent 0 0 0) in
  let* tr := SetNum [] (wrap32 ((Size - 1) * (Size - 1) * 6)) 0 in
  Some (mkData vs uvs ns ts tr).

(** ** ATerrain (Terrain.h, the ProceduralMeshComponent version) *)

(** [Meshes] is modelled by the number of mesh-section writes
    ([CreateMeshSection]/[UpdateMeshSection]) each mesh component has
    received. *)
Record ATerrain := mkTerrain {
  Map : UHeightMap;
  ComponentSize : Z;
  XWidth : Z;
  YWidth : Z;
  Tiling : R;
  Border : bool;
  WorkerThreads : Z;
  DirtyMesh : bool;
  Meshes : list nat;
  UpdateMesh : list bool;
  ComponentBuffer : ComponentData
}.

(** [0, 1, ..., n - 1], the values of an int32 loop counter [for (i = 0; i < n; ++i)]. *)
Definition zrange (n : Z) : list Z := map Z.of_nat (seq 0 (Z.to_nat n)).

(** The [(x, y)] of two nested loops, [y] outer and [x] inner. *)
Definition grid (nx ny : Z) : list (Z * Z) :=
  flat_map (fun y => map (fun x => (x, y)) (zrange nx)) (zrange ny).

(** A loop whose body may fail. *)
Fixpoint for_each {A B : Type} (l : list A) (body : A -> B -> option B) (s : B) : option B :=
  match l with
  | [] => Some s
  | a :: l' => let* s' := body a s in for_each l' body s'
  end.

Section MeshSection.
Variable t : ATerrain.

(** The body of the normal/tangent loop of [GenerateMeshSection]: the
    two tangents from the four neighbours of the map cell [(mx, my)]. *)
Definition NormalTangentAt (mx my : Z) : option (FVector * FVector) :=
  let* s01 := GetHeight (Map t) (wrap32 (mx - 1)) my in
  let* s21 := GetHeight (Map t) (wrap32 (mx + 1)) my in
  let* s10 := GetHeight (Map t) mx (wrap32 (my - 1)) in
  let* s12 := GetHeight (Map t) mx (wrap32 (my + 1)) in
  let vx := mkV 2 0 (s21 - s01) in
  let vy := mkV 0 2 (s10 - s12) in
  let vx := Normalize vx in
  let vy := Normalize vy in
  Some (CrossProduct vx vy, vx).

(** [void ATerrain::GenerateMeshSection(int32 X, int32 Y,
    ComponentData& Data, bool CreateTriangles) const]. *)
Definition GenerateMeshSection (X Y : Z) (Data : ComponentData) (CreateTriangles : bool)
    : option ComponentData :=
  let n := ComponentSize t in
  let polygons := wrap32 (n - 1) in
  let world_offset_x := (IZR (wrap32 (WidthX (Map t) - 2 - 1)) / 2 - IZR (wrap32 (polygons * X)))%R in
  let world_offset_y := (IZR (wrap32 (WidthY (Map t) - 2 - 1)) / 2 - IZR (wrap32 (polygons * Y)))%R in
  let heightmap_offset_x := wrap32 (X * polygons) in
  let heightmap_offset_y := wrap32 (Y * polygons) in
  (* vertices and UVs *)
  let* d1 := for_each (grid n n) (fun '(x, y) d =>
      let i := wrap32 (y * n + x) in
      let* h := GetHeight (Map t) (wrap32 (heightmap_offset_x + x + 1))
                                  (wrap32 (heightmap_offset_y + y + 1)) in
      let* vs := arr_set (Vertices d) i (mkV (IZR x - world_offset_x) (world_offset_y - IZR y) h) in
      let* uvs := arr_set (UV0 d) i (mkV2 (IZR (wrap32 (x + heightmap_offset_x)) * Tiling t)
                                          (IZR (wrap32 (y + heightmap_offset_y)) * Tiling t)) in
      Some (mkData vs uvs (Normals d) (Tangents d) (Triangles d))) Data in
  (* normals and tangents *)
  let* d2 := for_each (grid n n) (fun '(x, y) d =>
      let map_offset_x := wrap32 (heightmap_offset_x + x + 1) in
      let map_offset_y := wrap32 (heightmap_offset_y + y + 1) in
      let* nt := NormalTangentAt map_offset_x map_offset_y in
      let '(nrm, vx) := nt in
      let* ns := arr_set (Normals d) (wrap32 (y * n + x)) nrm in
      let* ts := arr_set (Tangents d) (wrap32 (y * n + x)) (ProcMeshTangent (VX vx) (VY vx) (VZ vx)) in
      Some (mkData (Vertices d) (UV0 d) ns ts (Triangles d))) d1 in
  (* triangles *)
  if CreateTriangles then
    for_each (grid polygons polygons) (fun '(x, y) d =>
      let i := wrap32 ((y * polygons + x) * 6) in
      let* tr := arr_set (Triangles d) i (wrap32 (x + y * n)) in
      let* tr := arr_set tr (wrap32 (i + 1)) (wrap32 (1 + x + y * n)) in
      let* tr := arr_set tr (wrap32 (i + 2)) (wrap32 (1 + x + (y + 1) * n)) in
      let* tr := arr_set tr (wrap32 (i + 3)) (wrap32 (x + y * n)) in
      let* tr := arr_set tr (wrap32 (i + 4)) (wrap32 (1 + x + (y + 1) * n)) in
      let* tr := arr_set tr (wrap32 (i + 5)) (wrap32 (x + (y + 1) * n)) in
      Some (mkData (Vertices d) (UV0 d) (Normals d) (Tangents d) tr)) d2
  else Some d2.
End MeshSection.

(** ** The border mesh *)

(** A [for (uint16 i = 0; i < bound; ++i)] loop: the counter wraps at
    [2^16] and is compared with the [int32] bound.  A loop that has not
    left after [2^16 + 1] tests never leaves (its counter has come back to
    a value already seen), so [None] then stands for non-termination. *)
Fixpoint loop16 {B : Type} (fuel : nat) (i bound : Z) (body : Z -> B -> option B) (s : B)
    : option B :=
  match fuel with
  | O => None
  | S f => if i <? bound then let* s' := body i s in loop16 f (u16 (i + 1)) bound body s'
           else Some s
  end.

Definition for16 {B : Type} (bound : Z) (body : Z -> B -> option B) (s : B) : option B :=
  loop16 (Z.to_nat 65537) 0 bound body s.

(** Two [Add]s to each vertex array, as each border loop does. *)
Definition add_pair (d : ComponentData) (v1 v2 : FVector) (uv1 uv2 : FVector2D)
    (n : FVector) (tg : FProcMeshTangent) : ComponentData :=
  mkData (Vertices d ++ [v1; v2]) (UV0 d ++ [uv1; uv2]) (Normals d ++ [n; n])
         (Tangents d ++ [tg; tg]) (Triangles d).

(** [Add]s to the index array. *)
Definition add_tris (d : ComponentData) (l : list Z) : ComponentData :=
  mkData (Vertices d) (UV0 d) (Normals d) (Tangents d) (Triangles d ++ l).

Definition BorderBottom : R := (-200)%R.

Section BorderSection.
Variable t : ATerrain.

(** [void ATerrain::GenerateBorderSection(ComponentData& Data,
    bool CreateTriangles) const]; [uint16 size] is the vertex count
    truncated to 16 bits.  The index values are small and do not wrap. *)
Definition GenerateBorderSection (Data : ComponentData) (CreateTriangles : bool)
    : option ComponentData :=
  let m := Map t in
  let width_x := wrap32 (WidthX m - 2) in
  let width_y := wrap32 (WidthY m - 2) in
  let world_x := (IZR (wrap32 (width_x - 1)) / 2)%R in
  let world_y := (IZR (wrap32 (width_y - 1)) / 2)%R in
  (* -X side *)
  let* d := for16 width_y (fun y d =>
      let* h := GetHeight m 1 (y + 1) in
      Some (add_pair d (mkV (- world_x) (world_y - IZR y) BorderBottom)
                       (mkV (- world_x) (world_y - IZR y) h)
                       (mkV2 BorderBottom (IZR y)) (mkV2 h (IZR y))
                       (mkV (-1) 0 0) (ProcMeshTangent 0 0 1))) Data in
  let* d := if CreateTriangles then
      for16 (wrap32 (width_y - 1)) (fun y d =>
        Some (add_tris d [y * 2; 1 + y * 2; 1 + (y + 1) * 2;
                          y * 2; 1 + (y + 1) * 2; (y + 1) * 2])) d
    else Some d in
  let size := u16 (Z.of_nat (length (Vertices d))) in
  (* +X side *)
  let* d := for16 width_y (fun y d =>
      let* h := GetHeight m width_x (y + 1) in
      Some (add_pair d (mkV world_x (world_y - IZR y) BorderBottom)
                       (mkV world_x (world_y - IZR y) h)
                       (mkV2 BorderBottom (IZR y)) (mkV2 h (IZR y))
                       (mkV 1 0 0) (ProcMeshTangent 0 0 1))) d in
  let* d := if CreateTriangles then
      for16 (wrap32 (width_y - 1)) (fun y d =>
        Some (add_tris d [size + 1 + (y + 1) * 2; size + 1 + y * 2; size + y * 2;
                          size + (y + 1) * 2; size + 1 + (y + 1) * 2; size + y * 2])) d
    else Some d in
  let size := u16 (Z.of_nat (length (Vertices d))) in
  (* +Y side *)
  let* d := for16 width_x (fun x d =>
      let* h := GetHeight m (x + 1) 1 in
      Some (add_pair d (mkV (- world_x + IZR x) world_y BorderBottom)
                       (mkV (- world_x + IZR x) world_y h)
                       (mkV2 (IZR x) BorderBottom) (mkV2 (IZR x) h)
                       (mkV 0 1 0) (ProcMeshTangent 1 0 0))) d in
  let* d := if CreateTriangles then
      for16 (wrap32 (width_x - 1)) (fun x d =>
        Some (add_tris d [size + 1 + (x + 1) * 2; size + 1 + x * 2; size + x * 2;
                          size + (x + 1) * 2; size + 1 + (x + 1) * 2; size + x * 2])) d
    else Some d in
  let size := u16 (Z.of_nat (length (Vertices d))) in
  (* -Y side *)
  let* d := for16 width_x (fun x d =>
      let* h := GetHeight m (x + 1) width_y in
      Some (add_pair d (mkV (- world_x + IZR x) (- world_y) BorderBottom)
                       (mkV (- world_x + IZR x) (- world_y) h)
                       (mkV2 (IZR x) BorderBottom) (mkV2 (IZR x) h)
                       (mkV 0 (-1) 0) (ProcMeshTangent 1 0 0))) d in
  if CreateTriangles then
    for16 (wrap32 (width_x - 1)) (fun x d =>
      Some (add_tris d [size + x * 2; size + 1 + x * 2; size + 1 + (x + 1) * 2;
                        size + x * 2; size + 1 + (x + 1) * 2; size + (x + 1) * 2])) d
  else Some d.
End BorderSection.

(** A mesh-section write ([CreateMeshSection]/[UpdateMeshSection]) to
    [Meshes[i]], counted; [Meshes[i]] fails UE's range check out of range. *)
Definition mesh_write (meshes : list nat) (i : Z) : option (list nat) :=
  let* c := arr_get meshes i in arr_set meshes i (S c).

(** A mesh-section write to [Meshes.Last()]. *)
Definition mesh_write_last (meshes : list nat) : option (list nat) :=
  mesh_write meshes (Z.of_nat (length meshes) - 1).

(** ** ATerrain::Update *)

Inductive UpdateEvent :=
| GenSection (x y : Z)   (* GenerateMeshSection(x, y, ComponentBuffer, false) *)
| GenBorder.             (* GenerateBorderSection(BorderBuffer, true) *)

Record UpdateState := mkUS {
  update_border : bool;
  us_UpdateMesh : list bool;
  us_Buffer : ComponentData;
  us_Meshes : list nat;
  us_events : list UpdateEvent
}.

(** The [(x, y)] of two nested loops, [x] outer and [y] inner. *)
Definition grid_xy (nx ny : Z) : list (Z * Z) :=
  flat_map (fun x => map (fun y => (x, y)) (zrange ny)) (zrange nx).

Definition is_edge (t : ATerrain) (x y : Z) : bool :=
  (x =? 0) || (y =? 0) || (x =? XWidth t - 1) || (y =? YWidth t - 1).

(** The body of the loops of [void ATerrain::Update()]. *)
Definition UpdateStep (t : ATerrain) (xy : Z * Z) (s : UpdateState) : option UpdateState :=
  let '(x, y) := xy in
  let i := wrap32 (y * XWidth t + x) in
  let* flag := arr_get (us_UpdateMesh s) i in
  if flag then
    let* buf := GenerateMeshSection t x y (us_Buffer s) false in
    let* ms := mesh_write (us_Meshes s) i in
    let evs := us_events s ++ [GenSection x y] in
    let* s2 := if update_border s && is_edge t x y then
                 let* bb := GenerateBorderSection t EmptyData true in
                 let* ms := mesh_write_last ms in
                 Some (mkUS false (us_UpdateMesh s) buf ms (evs ++ [GenBorder]))
               else Some (mkUS (update_border s) (us_UpdateMesh s) buf ms evs) in
    let* um := arr_set (us_UpdateMesh s2) i false in
    Some (mkUS (update_border s2) um (us_Buffer s2) (us_Meshes s2) (us_events s2))
  else Some s.

(** [void ATerrain::Update()], with the list of generator calls it made. *)
Definition Update (t : ATerrain) : option (ATerrain * list UpdateEvent) :=
  let* s := for_each (grid_xy (XWidth t) (YWidth t)) (UpdateStep t)
                     (mkUS true (UpdateMesh t) (ComponentBuffer t) (Meshes t) []) in
  Some (mkTerrain (Map t) (ComponentSize t) (XWidth t) (YWidth t) (Tiling t) (Border t)
                  (WorkerThreads t) (DirtyMesh t) (us_Meshes s) (us_UpdateMesh s) (us_Buffer s),
        us_events s).

(** ** The worker scheduler of ATerrain::RebuildMesh *)

(** Modelled from the spec: ComponentBuilder, whose class is not in src/
    (only its uses in [RebuildMesh] are).  Per the spec, [Build(x, y)] starts
    building section [(x, y)] on the worker, and the worker becomes "idle
    with result" once the build finishes.  How long a build takes is the
    environment's choice: [b_left] counts the controller's sleeps until
    the build finishes, set by the [cost] of the section on that worker.
    [GetSection] is the index [y * XWidth + x] of the section's mesh
    component, the indexing [Update] and [UpdateSection] use. *)
Record ComponentBuilder := mkBuilder {
  b_id : nat;
  b_x : Z;
  b_y : Z;
  b_left : nat
}.

Record SchedState := mkSched {
  section_x : Z;
  section_y : Z;
  s_Meshes : list nat;
  s_built : list (nat * (Z * Z))   (* the Build calls: worker and section *)
}.

Section Scheduler.
Variable cost : nat -> Z -> Z -> nat.
Variable XW YW : Z.   (* XWidth, YWidth *)

Definition Build (w : nat) (x y : Z) : ComponentBuilder := mkBuilder w x y (cost w x y).

Definition IsIdle (b : ComponentBuilder) : bool := Nat.eqb (b_left b) 0.

Definition GetSection (b : ComponentBuilder) : Z := wrap32 (b_y b * XW + b_x b).

(** [++section_x; if (section_x >= XWidth) { section_x = 0; ++section_y; }]
    on the [uint16] counters. *)
Definition advance (sx sy : Z) : Z * Z :=
  let sx' := u16 (sx + 1) in
  if XW <=? sx' then (0, u16 (sy + 1)) else (sx', sy).

(** [uint16 num_threads = 4; if (XWidth * YWidth < num_threads)
    num_threads = XWidth * YWidth;] *)
Definition NumThreads : Z :=
  let p := wrap32 (XW * YW) in if p <? 4 then u16 p else 4.

(** The loop starting the workers, each with its initial section. *)
Definition StartBuilders (s : SchedState) : list ComponentBuilder * SchedState :=
  fold_left (fun '(bs, s) i =>
      let '(sx, sy) := if 0 <? i then advance (section_x s) (section_y s)
                       else (section_x s, section_y s) in
      (bs ++ [Build (Z.to_nat i) sx sy],
       mkSched sx sy (s_Meshes s) (s_built s ++ [(Z.to_nat i, (sx, sy))])))
    (zrange NumThreads) ([], s).

(** One pass of [for (i = 0; i < builders.Num(); ++i)]: [acc] holds the
    builders already visited; a retired builder is removed and the pass
    stops ([break]). *)
Fixpoint poll (bs acc : list ComponentBuilder) (s : SchedState)
    : option (list ComponentBuilder * SchedState) :=
  match bs with
  | [] => Some (acc, s)
  | b :: rest =>
      if IsIdle b then
        let* ms := mesh_write (s_Meshes s) (GetSection b) in
        let '(sx, sy) := advance (section_x s) (section_y s) in
        if sy <? YW then
          poll rest (acc ++ [Build (b_id b) sx sy])
               (mkSched sx sy ms (s_built s ++ [(b_id b, (sx, sy))]))
        else Some (acc ++ rest, mkSched sx sy ms (s_built s))
      else poll rest (acc ++ [b]) s
  end.

(** [FPlatformProcess::Sleep(0.01)]: the workers progress. *)
Definition sleep (bs : list ComponentBuilder) : list ComponentBuilder :=
  map (fun b => mkBuilder (b_id b) (b_x b) (b_y b) (Nat.pred (b_left b))) bs.

(** [while (builders.Num() > 0) { ...; Sleep(0.01); }] with [fuel]
    passes; [None] when the fuel runs out or an access fails. *)
Fixpoint sched_loop (fuel : nat) (bs : list ComponentBuilder) (s : SchedState)
    : option SchedState :=
  match fuel with
  | O => None
  | S f =>
      match bs with
      | [] => Some s
      | _ :: _ =>
          let* r := poll bs [] s in
          let '(bs', s') := r in
          sched_loop f (sleep bs') s'
      end
  end.

(** Lines 353-429 of [RebuildMesh]: start the workers and poll them until
    all are retired. *)
Definition Schedule (meshes : list nat) (fuel : nat) : option SchedState :=
  let '(bs, s) := StartBuilders (mkSched 0 0 meshes []) in
  sched_loop fuel bs s.
End Scheduler.

(** The mesh components [RebuildMesh] delivers to: when [DirtyMesh], the old
    ones are destroyed and [uint16 component_count = XWidth * YWidth]
    (plus one for the border) new ones are created. *)
Definition PrepareMeshes (t : ATerrain) : list nat :=
  if DirtyMesh t
  then repeat O (Z.to_nat (u16 (XWidth t * YWidth t + (if Border t then 1 else 0))))
  else Meshes t.

(** The scheduler as [RebuildMesh] runs it on the terrain [t]. *)
Definition RebuildSchedule (cost : nat -> Z -> Z -> nat) (t : ATerrain) (fuel : nat)
    : option SchedState :=
  Schedule cost (XWidth t) (YWidth t) (PrepareMeshes t) fuel.

(** The row-major enumeration of all sections. *)
Definition all_sections (XW YW : Z) : list (Z * Z) := grid XW YW.

(** Strict row-major order of two sections. *)
Definition rm_lt (a b : Z * Z) : Prop :=
  snd a < snd b \/ (snd a = snd b /\ fst a < fst b).

(** ** The specification's wording, for comparison *)

(** The normal and tangent as the specification words them: central
    differences [(h(x+1,y) - h(x-1,y), h(x,y+1) - h(x,y-1))] and the
    tangents [(2, 0, dx)] and [(0, 2, dy)]. *)
Definition SpecNormalTangent (m : UHeightMap) (x y : Z) : FVector * FVector :=
  let dx := (hget m (x + 1) y - hget m (x - 1) y)%R in
  let dy := (hget m x (y + 1) - hget m x (y - 1))%R in
  let vx := Normalize (mkV 2 0 dx) in
  let vy := Normalize (mkV 0 2 dy) in
  (CrossProduct vx vy, vx).

(** The pool size as the specification words it. *)
Definition SpecPoolSize (t : ATerrain) : Z := Z.min (WorkerThreads t) (XWidth t * YWidth t).

(** ** Sizes used by the statements *)

(** A section [(X, Y)] whose vertices and their four neighbours lie in the
    map, for a component size whose buffers an int32 can count.  The map
    [RebuildHeightmap] makes, [(ComponentSize - 1) * XWidth + 3] cells
    wide, fits every section [0 <= X < XWidth]. *)
Definition section_fits (t : ATerrain) (X Y : Z) : Prop :=
  2 <= ComponentSize t <= 18919 /\ wf_map (Map t) /\ 0 <= X /\ 0 <= Y /\
  X * (ComponentSize t - 1) + ComponentSize t + 2 <= WidthX (Map t) /\
  Y * (ComponentSize t - 1) + ComponentSize t + 2 <= WidthY (Map t).

(** The buffer sizes [ComponentData::Allocate(n)] sets. *)
Definition sized (n : Z) (d : ComponentData) : Prop :=
  length (Vertices d) = Z.to_nat (n * n) /\ length (UV0 d) = Z.to_nat (n * n) /\
  length (Normals d) = Z.to_nat (n * n) /\ length (Tangents d) = Z.to_nat (n * n) /\
  length (Triangles d) = Z.to_nat ((n - 1) * (n - 1) * 6).

(** The six indices the triangle loop writes for the quad [(x, y)]. *)
Definition quad_tris (n : Z) (q : Z * Z) : list Z :=
  let '(x, y) := q in
  [x + y * n; 1 + x + y * n; 1 + x + (y + 1) * n;
   x + y * n; 1 + x + (y + 1) * n; x + (y + 1) * n].

(** The normal and tangent the normal loop computes at the map cell
    [(mx, my)], with the four reads replaced by the stored heights. *)
Definition MeshNormalTangent (m : UHeightMap) (mx my : Z) : FVector * FVector :=
  let vx := Normalize (mkV 2 0 (hget m (mx + 1) my - hget m (mx - 1) my)) in
  let vy := Normalize (mkV 0 2 (hget m mx (my - 1) - hget m mx (my + 1))) in
  (CrossProduct vx vy, vx).

(** The grid cell [(i mod n, i / n)] of vertex [i] of a section: the
    vertex loop writes cell [(x, y)] at index [y * n + x], at the world
    position [(x - world_offset_x, world_offset_y - y)]. *)
Definition vertex_cell (n i : Z) : Z * Z := (i mod n, i / n).

(** Twice the signed area of the triangle [(a, b, c)] of vertex indices,
    in grid coordinates. *)
Definition orient (n a b c : Z) : Z :=
  let '(ax, ay) := vertex_cell n a in
  let '(bx, by_) := vertex_cell n b in
  let '(cx, cy) := vertex_cell n c in
  (bx - ax) * (cy - ay) - (by_ - ay) * (cx - ax).

(** A 4 x 4 map, one height 1 at the cell [(1, 2)], and the 1 x 1 terrain
    of 2 x 2-vertex components over it. *)
Definition cex_map : UHeightMap :=
  mkMap 4 4 1 [0; 0; 0; 0; 0; 0; 0; 0; 0; 1; 0; 0; 0; 0; 0; 0]%R.

Definition cex_terrain : ATerrain :=
  mkTerrain cex_map 2 1 1 1%R false 4 false [] [] EmptyData.

(** A 2 x 2-section terrain configured for one worker thread. *)
Definition one_thread_terrain : ATerrain :=
  mkTerrain (mkMap 5 5 1 (repeat 0%R 25)) 2 2 2 1%R false 1 true [] [] EmptyData.

(** The number of border regenerations among the generator calls. *)
Definition border_count (evs : list UpdateEvent) : nat :=
  length (filter (fun e => match e with GenBorder => true | GenSection _ _ => false end) evs).

(** A 2 x 2-section terrain with the sections [(0, 0)] and [(1, 1)] marked
    for update, and the buffers [RebuildMesh] leaves. *)
Definition update_terrain : ATerrain :=
  mkTerrain (mkMap 5 5 1 (repeat 0%R 25)) 2 2 2 1%R true 4 false [0; 0; 0; 0; 0]%nat
            [true; false; false; true]
            (mkData (repeat ZeroVector 4) (repeat (mkV2 0 0) 4) (repeat ZeroVector 4)
                    (repeat (ProcMeshTangent 0 0 0) 4) (repeat 0 6)).




(** *** The scheduler's invariant *)

(** The [k]-th section of the row-major order, [(k mod XWidth, k / XWidth)]. *)
Definition sec (XW k : Z) : Z * Z := (k mod XW, k / XW).

(** The mesh slot of the section a worker is building. *)
Definition bidx (XW : Z) (b : ComponentBuilder) : Z := b_y b * XW + b_x b.

(** Whether slot [k] has received its section, when the counter is at the
    [p]-th section and the workers [bs] are still building: the sections
    [0..p] have all been handed out, and a section no worker holds any more
    has been delivered. *)
Definition delivered (XW YW p : Z) (bs : list ComponentBuilder) (k : nat) : nat :=
  if (Z.of_nat k <? XW * YW) && (Z.of_nat k <=? p)
     && negb (existsb (Z.eqb (Z.of_nat k)) (map (bidx XW) bs))
  then 1 else 0.

(** The invariant of the polling loop, [p] being the position of
    [(section_x, section_y)] in the row-major order, [nb] the number of
    workers started and [m0] the mesh counters before the schedule. *)
Definition sched_inv (XW YW : Z) (nb : nat) (m0 : list nat)
    (bs : list ComponentBuilder) (s : SchedState) (p : Z) : Prop :=
  0 <= p /\ section_x s = p mod XW /\ section_y s = p / XW /\
  map snd (s_built s) = map (sec XW) (zrange (Z.min (p + 1) (XW * YW))) /\
  Forall (fun b => 0 <= b_x b < XW /\ 0 <= b_y b /\ bidx XW b < XW * YW /\ bidx XW b <= p) bs /\
  NoDup (map (bidx XW) bs) /\
  length (s_Meshes s) = length m0 /\
  (forall k, nth k (s_Meshes s) O = (nth k m0 O + delivered XW YW p bs k)%nat) /\
  Z.of_nat (length bs) = Z.of_nat nb - Z.max 0 (p + 1 - XW * YW).

(** A terrain of [256 * 256] sections. *)
Definition wide_terrain : ATerrain :=
  mkTerrain (mkMap 5 5 1 (repeat 0%R 25)) 2 256 256 1%R true 4 true [] [] EmptyData.

(** ** Further members: the map generator, the section update requests,
    the materials, the [FTerrainVertex] mesh and [UTerrainComponent] *)

(** The counter values [a, a + 1, ..., b - 1] of a [for] loop from [a] to [b]. *)
Definition zrange_from (a b : Z) : list Z := map (fun i => a + i) (zrange (b - a)).

(** Nested loops, [y] outer from [ay] to [by_], [x] inner from [ax] to [bx]. *)
Definition grid_from (ax bx ay by_ : Z) : list (Z * Z) :=
  flat_map (fun y => map (fun x => (x, y)) (zrange_from ax bx)) (zrange_from ay by_).

(** [void UMapGenerator::Flat(UHeightMap* Map)]: [i] outer over the
    columns, [j] inner over the rows, [SetHeight(i, j, 0)]. *)
Definition Flat (m : UHeightMap) : option UHeightMap :=
  for_each (grid_xy (WidthX m) (WidthY m)) (fun '(i, j) m => SetHeight m i j 0%R) m.

(** [void UHeightMap::CalculateNormalsAndTangents(TArray<FVector>& Normals,
    TArray<FProcMeshTangent>& Tangents) const].  [SetNum] fills new elements
    with the default values [dn] and [dt]; the tangent index uses [width_y]
    as the code does. *)
Definition CalculateNormalsAndTangents (m : UHeightMap) (dn : FVector) (dt : FProcMeshTangent)
    (Normals : list FVector) (Tangents : list FProcMeshTangent)
    : option (list FVector * list FProcMeshTangent) :=
  let width_x := wrap32 (WidthX m - 2) in
  let width_y := wrap32 (WidthY m - 2) in
  let* ns := SetNum Normals (wrap32 (width_x * width_y)) dn in
  let* ts := SetNum Tangents (wrap32 (width_x * width_y)) dt in
  for_each (grid_from 1 (wrap32 (WidthX m - 1)) 1 (wrap32 (WidthY m - 1)))
    (fun '(x, y) '(ns, ts) =>
      let* h01 := GetHeight m (wrap32 (x - 1)) y in
      let* h21 := GetHeight m (wrap32 (x + 1)) y in
      let* h10 := GetHeight m x (wrap32 (y - 1)) in
      let* h12 := GetHeight m x (wrap32 (y + 1)) in
      let s01 := (h01 * IZR (MaxHeight m))%R in
      let s21 := (h21 * IZR (MaxHeight m))%R in
      let s10 := (h10 * IZR (MaxHeight m))%R in
      let s12 := (h12 * IZR (MaxHeight m))%R in
      let vx := Normalize (mkV 2 0 (s21 - s01)) in
      let vy := Normalize (mkV 0 2 (s10 - s12)) in
      let* ns := arr_set ns (wrap32 ((y - 1) * width_x + (x - 1))) (CrossProduct vx vy) in
      let* ts := arr_set ts (wrap32 ((y - 1) * width_y + (x - 1)))
                         (ProcMeshTangent (VX vx) (VY vx) (VZ vx)) in
      Some (ns, ts)) (ns, ts).

(** The normal and tangent that [CalculateNormalsAndTangents] computes at
    the interior cell [(x, y)] of the map. *)
Definition MapNormalTangent (m : UHeightMap) (x y : Z) : FVector * FVector :=
  let k := IZR (MaxHeight m) in
  let vx := Normalize (mkV 2 0 (hget m (x + 1) y * k - hget m (x - 1) y * k)) in
  let vy := Normalize (mkV 0 2 (hget m x (y - 1) * k - hget m x (y + 1) * k)) in
  (CrossProduct vx vy, vx).


(** The sections among the generator calls of [Update]. *)
Definition gen_sections (evs : list UpdateEvent) : list (Z * Z) :=
  flat_map (fun e => match e with GenSection x y => [(x, y)] | GenBorder => [] end) evs.

(** [FIntPoint] and [FIntRect]. *)
Record FIntPoint := mkIntPoint { IX : Z; IY : Z }.
Record FIntRect := mkIntRect { Min : FIntPoint; Max : FIntPoint }.

(** Nested loops, [x] outer from [ax] to [bx], [y] inner from [ay] to [by_]. *)
Definition grid_xy_from (ax bx ay by_ : Z) : list (Z * Z) :=
  flat_map (fun x => map (fun y => (x, y)) (zrange_from ay by_)) (zrange_from ax bx).

(** [void ATerrain::UpdateRange(FIntRect Range)].  The [int32] division
    truncates toward zero ([Z.quot]); a division by [polygons = 0] is
    undefined behaviour in C++, modelled as a failure. *)
Definition UpdateRange (t : ATerrain) (Range : FIntRect) : option ATerrain :=
  let polygons := wrap32 (ComponentSize t - 1) in
  let width_x := wrap32 (WidthX (Map t) - 3) in
  let width_y := wrap32 (WidthY (Map t) - 3) in
  let min_x := if IX (Min Range) <? 1 then 1 else IX (Min Range) in
  let min_y := if IY (Min Range) <? 1 then 1 else IY (Min Range) in
  let max_x := if width_x <? IX (Max Range) then width_x else IX (Max Range) in
  let max_y := if width_y <? IY (Max Range) then width_y else IY (Max Range) in
  let min_x := wrap32 (min_x - 1) in
  let min_y := wrap32 (min_y - 1) in
  let max_x := wrap32 (max_x - 1) in
  let max_y := wrap32 (max_y - 1) in
  if polygons =? 0 then None else
  let cmin_x := wrap32 (Z.quot min_x polygons) in
  let cmin_y := wrap32 (Z.quot min_y polygons) in
  let cmax_x := wrap32 (Z.quot max_x polygons) in
  let cmax_y := wrap32 (Z.quot max_y polygons) in
  let* um := for_each (grid_xy_from cmin_x (cmax_x + 1) cmin_y (cmax_y + 1))
               (fun '(x, y) um => arr_set um (wrap32 (y * XWidth t + x)) true) (UpdateMesh t) in
  Some (mkTerrain (Map t) (ComponentSize t) (XWidth t) (YWidth t) (Tiling t) (Border t)
                  (WorkerThreads t) (DirtyMesh t) (Meshes t) um (ComponentBuffer t)).

(** Whether section [x] of [p] polygons, whose interior map columns are
    [x * p + 1 .. x * p + p], meets the columns [lo .. hi]. *)
Definition range_hits (lo hi p x : Z) : bool := (lo <=? x * p + p) && (x * p + 1 <=? hi).

(** [void ATerrain::ApplyMaterials()]: the material of mesh [i] is the
    element [i] of [mats]; [Meshes.Last()] on an empty array fails its
    range check.  [mesh_count] is a [uint32]. *)
Section Materials.
Context {M : Type}.

Definition ApplyMaterials (Border : bool) (TerrainMaterial BorderMaterial : M) (mats : list M)
    : option (list M) :=
  let mesh_count := Z.of_nat (length mats) in
  let* (mesh_count, mats) :=
    if Border then
      let mesh_count := (mesh_count - 1) mod 2 ^ 32 in
      let* mats := arr_set mats (Z.of_nat (length mats) - 1) BorderMaterial in
      Some (mesh_count, mats)
    else Some (mesh_count, mats) in
  for_each (zrange mesh_count) (fun i mats => arr_set mats i TerrainMaterial) mats.

End Materials.

(** The vertex position of the cell [(x, y)] of section [(X, Y)]. *)
Definition mesh_vertex (t : ATerrain) (X Y : Z) (c : Z * Z) : FVector :=
  let '(x, y) := c in
  let n := ComponentSize t in
  mkV (IZR (X * (n - 1) + x) - IZR (WidthX (Map t) - 3) / 2)
      (IZR (WidthY (Map t) - 3) / 2 - IZR (Y * (n - 1) + y))
      (hget (Map t) (X * (n - 1) + x + 1) (Y * (n - 1) + y + 1)).

(** The UV of the cell [(x, y)] of section [(X, Y)]. *)
Definition mesh_uv (t : ATerrain) (X Y : Z) (c : Z * Z) : FVector2D :=
  let '(x, y) := c in
  let n := ComponentSize t in
  mkV2 (IZR (X * (n - 1) + x) * Tiling t) (IZR (Y * (n - 1) + y) * Tiling t).

(** [FTerrainVertex]. *)
Record FTerrainVertex := mkTerrainVertex {
  Position : FVector;
  UV : FVector2D;
  Normal : FVector;
  Tangent : FVector
}.

(** Conversion to [uint32]. *)
Definition u32 (z : Z) : Z := z mod 2 ^ 32.

(** [void ATerrain::GenerateMeshSection(int32 X, int32 Y,
    TArray<FTerrainVertex>& Vertices, TArray<uint32>& Indices) const], the
    overload writing [FTerrainVertex]s.  [SetNumUninitialized] fills new
    elements with the unspecified values [u] and [ui]; the normal and tangent
    are those of [NormalTangentAt], as in the [ComponentData] overload. *)
Definition GenerateMeshSection_TerrainVertex (t : ATerrain) (X Y : Z)
    (Vertices : list FTerrainVertex) (Indices : list Z) (u : FTerrainVertex) (ui : Z)
    : option (list FTerrainVertex * list Z) :=
  let n := ComponentSize t in
  let polygons := wrap32 (n - 1) in
  let world_offset_x := (IZR (wrap32 (WidthX (Map t) - 2 - 1)) / 2 - IZR (wrap32 (polygons * X)))%R in
  let world_offset_y := (IZR (wrap32 (WidthY (Map t) - 2 - 1)) / 2 - IZR (wrap32 (polygons * Y)))%R in
  let heightmap_offset_x := wrap32 (X * polygons) in
  let heightmap_offset_y := wrap32 (Y * polygons) in
  let* vs := SetNum Vertices (wrap32 (n * n)) u in
  let* vs := for_each (grid n n) (fun '(x, y) vs =>
      let i := wrap32 (y * n + x) in
      let* h := GetHeight (Map t) (wrap32 (heightmap_offset_x + x + 1))
                                  (wrap32 (heightmap_offset_y + y + 1)) in
      let* v := arr_get vs i in
      let* vs := arr_set vs i (mkTerrainVertex
                   (mkV (IZR x - world_offset_x) (world_offset_y - IZR y) (h + 10))
                   (UV v) (Normal v) (Tangent v)) in
      let* v := arr_get vs i in
      arr_set vs i (mkTerrainVertex (Position v)
                     (mkV2 (IZR (wrap32 (x + heightmap_offset_x)) * Tiling t)
                           (IZR (wrap32 (y + heightmap_offset_y)) * Tiling t))
                     (Normal v) (Tangent v))) vs in
  let* vs := for_each (grid n n) (fun '(x, y) vs =>
      let map_offset_x := wrap32 (heightmap_offset_x + x + 1) in
      let map_offset_y := wrap32 (heightmap_offset_y + y + 1) in
      let* nt := NormalTangentAt t map_offset_x map_offset_y in
      let '(nrm, vx) := nt in
      let i := wrap32 (y * n + x) in
      let* v := arr_get vs i in
      let* vs := arr_set vs i (mkTerrainVertex (Position v) (UV v) nrm (Tangent v)) in
      let* v := arr_get vs i in
      arr_set vs i (mkTerrainVertex (Position v) (UV v) (Normal v) (mkV (VX vx) (VY vx) (VZ vx)))) vs in
  let* is := SetNum Indices (wrap32 ((n - 1) * (n - 1) * 6)) ui in
  let* is := for_each (grid polygons polygons) (fun '(x, y) is =>
      let i := wrap32 ((y * polygons + x) * 6) in
      let* is := arr_set is i (u32 (wrap32 (x + y * n))) in
      let* is := arr_set is (wrap32 (i + 1)) (u32 (wrap32 (1 + x + y * n))) in
      let* is := arr_set is (wrap32 (i + 2)) (u32 (wrap32 (1 + x + (y + 1) * n))) in
      let* is := arr_set is (wrap32 (i + 3)) (u32 (wrap32 (x + y * n))) in
      let* is := arr_set is (wrap32 (i + 4)) (u32 (wrap32 (1 + x + (y + 1) * n))) in
      arr_set is (wrap32 (i + 5)) (u32 (wrap32 (x + (y + 1) * n)))) is in
  Some (vs, is).

(** [void ATerrain::RebuildHeightmap()].  The [int32] expressions
    [(ComponentSize - 1) * XWidth + 3] are stored in [uint16]s; the
    conversion only depends on the value modulo [2^16], so the [int32]
    wrap-around before it is subsumed by [u16].  The product of the two
    [uint16]s is an [int] product.  [Map->Resize(heightmap_x, heightmap_y)]
    passes the default third argument of the declaration in HeightMap.h,
    which is not among the sources: it is the parameter [DefaultMaxHeight].
    The on-screen debug message is not modelled. *)
Definition RebuildHeightmap (t : ATerrain) (DefaultMaxHeight : Z) : option ATerrain :=
  let heightmap_x := u16 ((ComponentSize t - 1) * XWidth t + 3) in
  let heightmap_y := u16 ((ComponentSize t - 1) * YWidth t + 3) in
  if wrap32 (heightmap_x * heightmap_y) =? 0 then Some t
  else
    let* m := Resize (Map t) heightmap_x heightmap_y DefaultMaxHeight in
    Some (mkTerrain m (ComponentSize t) (XWidth t) (YWidth t) (Tiling t) (Border t)
                    (WorkerThreads t) (DirtyMesh t) (Meshes t) (UpdateMesh t) (ComponentBuffer t)).

(** ** UTerrainComponent (TerrainComponent.cpp) *)

Module TerrainComponent.

(** The fields of [UTerrainComponent] the modelled member functions touch.
    A [UBodySetup*] is an object identity, a [nat]. *)
Record UTerrainComponent := mkComponent {
  Size : Z;
  LODs : Z;
  LODScale : R;
  Vertices : list FVector;
  IndexBuffer : list Z;
  BodySetup : option nat;
  BodySetupQueue : list nat
}.

(** [FTriIndices]. *)
Record FTriIndices := mkTri { v0 : Z; v1 : Z; v2 : Z }.

(** The fields of [FTriMeshCollisionData] written by [GetPhysicsTriMeshData]. *)
Record FTriMeshCollisionData := mkCollision {
  CVertices : list FVector;
  Indices : list FTriIndices;
  bFlipNormals : bool;
  bDeformableMesh : bool;
  bFastCook : bool
}.

(** [void UTerrainComponent::SetLODs(int32 NumLODs, float DistanceScale)]:
    [(uint32)NumLODs < Size] compares as [uint32], and [LODs = Size] converts
    the [uint32] back to [int32].  [MarkRenderStateDirty] is not modelled. *)
Definition SetLODs (c : UTerrainComponent) (NumLODs : Z) (DistanceScale : R) : UTerrainComponent :=
  let lods := if (NumLODs mod 2 ^ 32) <? Size c then NumLODs else wrap32 (Size c) in
  mkComponent (Size c) lods DistanceScale (Vertices c) (IndexBuffer c) (BodySetup c) (BodySetupQueue c).

(** [TArray::Find]: the index of the first occurrence. *)
Fixpoint Find (l : list nat) (b : nat) : option Z :=
  match l with
  | [] => None
  | h :: t => if Nat.eqb h b then Some 0 else
              match Find t b with Some i => Some (i + 1) | None => None end
  end.

(** [TArray::RemoveAt]. *)
Definition RemoveAt (l : list nat) (i : Z) : list nat :=
  firstn (Z.to_nat i) l ++ skipn (Z.to_nat i + 1) l.

(** [void UTerrainComponent::UpdateCollision()]: [NewBody] is the object
    [CreateBodySetup] returns.  Aborting the earlier cooks, the GUID, the
    cooking itself and [RecreatePhysicsState] are not modelled. *)
Definition UpdateCollision (c : UTerrainComponent) (AsyncCooking : bool) (NewBody : nat) : UTerrainComponent :=
  if AsyncCooking then
    mkComponent (Size c) (LODs c) (LODScale c) (Vertices c) (IndexBuffer c) (BodySetup c)
                (BodySetupQueue c ++ [NewBody])
  else
    let body := match BodySetup c with Some b => Some b | None => Some NewBody end in
    mkComponent (Size c) (LODs c) (LODScale c) (Vertices c) (IndexBuffer c) body [].

(** [void UTerrainComponent::FinishCollision(bool Success, UBodySetup* NewBodySetup)]. *)
Definition FinishCollision (c : UTerrainComponent) (Success : bool) (NewBodySetup : nat)
    : option UTerrainComponent :=
  let q := BodySetupQueue c in
  match Find q NewBodySetup with
  | Some location =>
      if Success then
        let* new_queue := for_each (zrange_from (location + 1) (Z.of_nat (length q)))
                            (fun i nq => let* b := arr_get q i in Some (arr_add nq b)) [] in
        Some (mkComponent (Size c) (LODs c) (LODScale c) (Vertices c) (IndexBuffer c)
                          (Some NewBodySetup) new_queue)
      else
        Some (mkComponent (Size c) (LODs c) (LODScale c) (Vertices c) (IndexBuffer c)
                          (BodySetup c) (RemoveAt q location))
  | None => Some c
  end.

(** [void UTerrainComponent::CreateMeshData()].  The value of
    [GetTerrainComponentWidth(Size)], a [float] [FMath::Exp2(Size) + 1]
    converted to [uint32], is kept as the parameter [width] ([uint32]), so
    what is proved holds for every width.  [SetNumUninitialized] fills with the
    unspecified values [u] and [ui]; the [uint32] products are used as
    [int32] array sizes and indices. *)
Definition CreateMeshData (c : UTerrainComponent) (width : Z) (u : FVector) (ui : Z)
    : option UTerrainComponent :=
  let* vs := SetNum [] (wrap32 (width * width)) u in
  let* vs := for_each (grid width width) (fun '(x, y) vs =>
      arr_set vs (wrap32 (y * width + x)) (mkV (IZR x) (IZR y) 0)) vs in
  let polygons := (width - 1) mod 2 ^ 32 in
  let* is := SetNum [] (wrap32 (polygons * polygons * 6)) ui in
  let* is := for_each (grid polygons polygons) (fun '(x, y) is =>
      let i := ((y * polygons + x) * 6) mod 2 ^ 32 in
      let* is := arr_set is (wrap32 i) ((x + y * width) mod 2 ^ 32) in
      let* is := arr_set is (wrap32 (i + 1)) ((1 + x + (y + 1) * width) mod 2 ^ 32) in
      let* is := arr_set is (wrap32 (i + 2)) ((1 + x + y * width) mod 2 ^ 32) in
      let* is := arr_set is (wrap32 (i + 3)) ((x + y * width) mod 2 ^ 32) in
      let* is := arr_set is (wrap32 (i + 4)) ((x + (y + 1) * width) mod 2 ^ 32) in
      arr_set is (wrap32 (i + 5)) ((1 + x + (y + 1) * width) mod 2 ^ 32)) is in
  Some (mkComponent (Size c) (LODs c) (LODScale c) vs is (BodySetup c) (BodySetupQueue c)).

(** [bool UTerrainComponent::GetPhysicsTriMeshData(FTriMeshCollisionData*, bool)]:
    the [uint32] indices are stored in the [int32] fields of [FTriIndices]. *)
Definition GetPhysicsTriMeshData (c : UTerrainComponent) (cd : FTriMeshCollisionData)
    : option (FTriMeshCollisionData * bool) :=
  let num_triangles := Z.quot (Z.of_nat (length (IndexBuffer c))) 3 in
  let* tris := for_each (zrange num_triangles) (fun i tris =>
      let* a := arr_get (IndexBuffer c) (wrap32 (i * 3)) in
      let* b := arr_get (IndexBuffer c) (wrap32 (i * 3 + 1)) in
      let* d := arr_get (IndexBuffer c) (wrap32 (i * 3 + 2)) in
      Some (arr_add tris (mkTri (wrap32 a) (wrap32 b) (wrap32 d)))) (Indices cd) in
  Some (mkCollision (Vertices c) tris true true true, true).

(** Consecutive triples of an index list. *)
Fixpoint triples (l : list Z) : list FTriIndices :=
  match l with
  | a :: b :: d :: r => mkTri a b d :: triples r
  | _ => []
  end.

(** The calls that change the cooking queue of a component: an
    [UpdateCollision] cooking the new body [NewBody], and the callback
    [FinishCollision(Success, Body)]. *)
Inductive CollisionEvent :=
| Cook (AsyncCooking : bool) (NewBody : nat)
| Finished (Success : bool) (Body : nat).

(** A sequence of such calls on one component. *)
Fixpoint run_collision (c : UTerrainComponent) (evs : list CollisionEvent) : option UTerrainComponent :=
  match evs with
  | [] => Some c
  | Cook a nb :: r => run_collision (UpdateCollision c a nb) r
  | Finished s b :: r => let* c' := FinishCollision c s b in run_collision c' r
  end.

(** The bodies created by the [UpdateCollision] calls of a sequence. *)
Fixpoint cooked (evs : list CollisionEvent) : list nat :=
  match evs with
  | [] => []
  | Cook _ nb :: r => nb :: cooked r
  | Finished _ _ :: r => cooked r
  end.

(** The six indices [CreateMeshData] writes for the quad [(x, y)]. *)
Definition component_quad_tris (w : Z) (q : Z * Z) : list Z :=
  let '(x, y) := q in
  [x + y * w; 1 + x + (y + 1) * w; 1 + x + y * w;
   x + y * w; x + (y + 1) * w; 1 + x + (y + 1) * w].

End TerrainComponent.

(** ** Inputs of the examples *)

(** The buffers [ComponentData::Allocate(2)] leaves. *)
Definition section_data2 : ComponentData :=
  mkData (repeat ZeroVector 4) (repeat (mkV2 0 0) 4) (repeat ZeroVector 4)
         (repeat (ProcMeshTangent 0 0 0) 4) (repeat 0 6).

(** A 5 x 4 and a 3 x 4 map of zero heights. *)
Definition wide_map : UHeightMap := mkMap 5 4 1 (repeat 0%R 20).

Definition tall_map4 : UHeightMap := mkMap 3 4 1 (repeat 0%R 12).


(** One section of 3 x 3 vertices. *)
Definition single_terrain : ATerrain :=
  mkTerrain (mkMap 5 5 1 (repeat 0%R 25)) 3 1 1 1%R false 1 true [] [false] EmptyData.

(** A component of size 4 with three bodies being cooked. *)
Definition sample_component : TerrainComponent.UTerrainComponent :=
  TerrainComponent.mkComponent 4 0 0%R [] [] None [1; 2; 3]%nat.

(** ** Lemmas on the machine integers and arrays *)

Lemma wrap32_id (z : Z) : - 2 ^ 31 <= z < 2 ^ 31 -> wrap32 z = z.
Proof.
  intros H. unfold wrap32.
  rewrite Z.mod_small by lia. lia.
Qed.

Lemma length_list_set {A} (l : list A) n v : length (list_set l n v) = length l.
Proof.
  revert n; induction l as [|h t IH]; intros [|n]; simpl; auto.
Qed.

Lemma nth_error_list_set_eq {A} (l : list A) n v :
  (n < length l)%nat -> nth_error (list_set l n v) n = Some v.
Proof.
  revert n; induction l as [|h t IH]; intros [|n] Hn; simpl in *; try lia; auto.
  apply IH; lia.
Qed.

Lemma nth_error_list_set_neq {A} (l : list A) n k v :
  k <> n -> nth_error (list_set l n v) k = nth_error l k.
Proof.
  revert n k; induction l as [|h t IH]; intros [|n] [|k] Hk; simpl; auto; try congruence.
Qed.

Lemma arr_set_ok {A} (l : list A) i v :
  0 <= i < Z.of_nat (length l) -> arr_set l i v = Some (list_set l (Z.to_nat i) v).
Proof.
  intros H. unfold arr_set.
  destruct (Z.leb_spec 0 i); [|lia]. destruct (Z.ltb_spec i (Z.of_nat (length l))); [|lia].
  reflexivity.
Qed.

Lemma arr_get_ok {A} (l : list A) i :
  0 <= i -> arr_get l i = nth_error l (Z.to_nat i).
Proof.
  intros H. unfold arr_get. destruct (Z.leb_spec 0 i); [reflexivity|lia].
Qed.

Lemma MapIndex_in_range m x y :
  wf_map m -> 0 <= x < WidthX m -> 0 <= y < WidthY m ->
  MapIndex m x y = y * WidthX m + x /\ 0 <= y * WidthX m + x < WidthX m * WidthY m.
Proof.
  intros (HX & HY & Hsz & Hlen) Hx Hy.
  assert (0 <= y * WidthX m + x < WidthX m * WidthY m) by nia.
  split; [|exact H]. unfold MapIndex. apply wrap32_id. lia.
Qed.

(** An in-range read returns the stored height. *)
Lemma GetHeight_in_range m x y :
  wf_map m -> 0 <= x < WidthX m -> 0 <= y < WidthY m ->
  GetHeight m x y = Some (hget m x y).
Proof.
  intros Hwf Hx Hy.
  destruct (MapIndex_in_range m x y Hwf Hx Hy) as [Hi Hr].
  destruct Hwf as (HX & HY & Hsz & Hlen).
  unfold GetHeight, hget. rewrite Hi, arr_get_ok by lia.
  apply nth_error_nth'. rewrite Hlen. lia.
Qed.

(** ** The height map: C5, C6, C7 *)

(** C5 (code_bug): [Resize] keeps the heights already stored.  Resizing a
    2x2 field of ones to 3x3 yields the array [1,1,1,1,0,0,0,0,0]
    ([SetNumZeroed] only zeroes the appended cells), not nine zeros. *)
Theorem Resize_keeps_prior_heights :
  let m := mkMap 2 2 1 [1; 1; 1; 1]%R in
  Resize m 3 3 1 = Some (mkMap 3 3 1 [1; 1; 1; 1; 0; 0; 0; 0; 0]%R) /\
  Resize m 3 3 1 <> Some (mkMap 3 3 1 (repeat 0%R 9)).
Proof.
  simpl. split; [reflexivity|].
  intros H. injection H as H1. apply R1_neq_R0. exact H1.
Qed.

(** C6: on a well-formed field, [SetHeight(x, y, v)] at an in-range cell
    succeeds, [GetHeight(x, y)] then returns [v], the dimensions are kept
    and every other array cell is unchanged. *)
Theorem SetHeight_GetHeight_roundtrip (m : UHeightMap) (x y : Z) (v : R) :
  wf_map m -> 0 <= x < WidthX m -> 0 <= y < WidthY m ->
  exists m', SetHeight m x y v = Some m' /\ GetHeight m' x y = Some v /\
    WidthX m' = WidthX m /\ WidthY m' = WidthY m /\ MaxHeight m' = MaxHeight m /\
    length (MapData m') = length (MapData m) /\
    (forall k, k <> Z.to_nat (y * WidthX m + x) ->
       nth_error (MapData m') k = nth_error (MapData m) k).
Proof.
  intros Hwf Hx Hy.
  destruct (MapIndex_in_range m x y Hwf Hx Hy) as [Hi Hr].
  pose proof Hwf as (HX & HY & Hsz & Hlen).
  unfold SetHeight. rewrite Hi, arr_set_ok by lia.
  eexists. split; [reflexivity|]. simpl.
  repeat split.
  - unfold GetHeight, MapIndex. simpl. fold (MapIndex m x y). rewrite Hi.
    rewrite arr_get_ok by lia. apply nth_error_list_set_eq. lia.
  - apply length_list_set.
  - intros k Hk. apply nth_error_list_set_neq. exact Hk.
Qed.

Lemma SetHeight_GetHeight_roundtrip_witness :
  exists m', SetHeight (mkMap 2 2 1 [0; 0; 0; 0]%R) 1 1 3%R = Some m' /\
    GetHeight m' 1 1 = Some 3%R.
Proof.
  destruct (SetHeight_GetHeight_roundtrip (mkMap 2 2 1 [0; 0; 0; 0]%R) 1 1 3%R)
    as (m' & H1 & H2 & _).
  - unfold wf_map; simpl; repeat split; lia.
  - simpl; lia.
  - simpl; lia.
  - exists m'. split; assumption.
Defined.

(** C7, counterexample: on the 2x2 field [5,0,7,0], the wrapper returns 0
    for the negative coordinate [(-1, 0)], not the height 5 of the clamped
    coordinate [(0, 0)]; and for [x = 2], past the width, it returns the
    height 7 of cell [(0, 1)] instead of 0. *)
Lemma BPGetHeight_not_clamped :
  let m := mkMap 2 2 1 [5; 0; 7; 0]%R in
  BPGetHeight m (-1) 0 = Some 0%R /\ hget m 0 0 = 5%R /\
  2 >= WidthX m /\ BPGetHeight m 2 0 = Some 7%R /\ BPGetHeight m 2 0 <> Some 0%R.
Proof.
  simpl. repeat split; try reflexivity; try lia.
  intros H. injection H as H. lra.
Qed.

(** C7, as amended: for a negative coordinate the wrapper returns 0 without
    reading the field; for an in-range coordinate it returns the stored
    height. *)
Theorem BPGetHeight_spec (m : UHeightMap) (x y : Z) :
  ((x < 0 \/ y < 0) -> BPGetHeight m x y = Some 0%R) /\
  (wf_map m -> 0 <= x < WidthX m -> 0 <= y < WidthY m ->
   BPGetHeight m x y = Some (hget m x y)).
Proof.
  split.
  - intros H. unfold BPGetHeight.
    destruct H as [H|H]; [destruct (Z.ltb_spec x 0)|destruct (Z.ltb_spec y 0)];
      try lia; rewrite ?Bool.orb_true_r; reflexivity.
  - intros Hwf Hx Hy. unfold BPGetHeight.
    destruct (Z.ltb_spec x 0); [lia|]. destruct (Z.ltb_spec y 0); [lia|]. simpl.
    apply GetHeight_in_range; assumption.
Qed.

Lemma BPGetHeight_spec_witness :
  BPGetHeight (mkMap 2 2 1 [5; 0; 7; 0]%R) (-1) 0 = Some 0%R /\
  BPGetHeight (mkMap 2 2 1 [5; 0; 7; 0]%R) 0 1 = Some (hget (mkMap 2 2 1 [5; 0; 7; 0]%R) 0 1).
Proof.
  split.
  - apply (proj1 (BPGetHeight_spec (mkMap 2 2 1 [5; 0; 7; 0]%R) (-1) 0)). left; lia.
  - apply (proj2 (BPGetHeight_spec (mkMap 2 2 1 [5; 0; 7; 0]%R) 0 1)).
    + unfold wf_map; simpl; repeat split; lia.
    + simpl; lia.
    + simpl; lia.
Defined.

(** ** Loops *)

Lemma for_each_app {A B} (l1 l2 : list A) (body : A -> B -> option B) (s : B) :
  for_each (l1 ++ l2) body s = (let* s' := for_each l1 body s in for_each l2 body s').
Proof.
  revert s; induction l1 as [|a l1 IH]; intros s; simpl; [reflexivity|].
  destruct (body a s); [apply IH|reflexivity].
Qed.

(** A loop invariant [P], indexed by the iterations already done. *)
Lemma for_each_inv {A B} (P : list A -> B -> Prop) (body : A -> B -> option B)
    (full : list A) :
  (forall pre a post s, full = pre ++ a :: post -> P pre s ->
     exists s', body a s = Some s' /\ P (pre ++ [a]) s') ->
  forall s, P [] s -> exists s', for_each full body s = Some s' /\ P full s'.
Proof.
  intros Hstep.
  assert (G : forall suf pre s, full = pre ++ suf -> P pre s ->
            exists s', for_each suf body s = Some s' /\ P full s').
  { induction suf as [|a suf IH]; intros pre s Hfull Hp.
    - exists s. rewrite app_nil_r in Hfull. subst. split; [reflexivity|exact Hp].
    - destruct (Hstep pre a suf s Hfull Hp) as (s' & Hb & Hp').
      destruct (IH (pre ++ [a]) s') as (s'' & Hf & Hp'').
      + rewrite <- app_assoc. exact Hfull.
      + exact Hp'.
      + exists s''. simpl. rewrite Hb. split; assumption. }
  intros s Hp. apply (G full [] s); [reflexivity|exact Hp].
Qed.

Lemma seq_add_shift (a b : nat) : seq a b = map (Nat.add a) (seq 0 b).
Proof.
  revert a; induction b as [|b IH]; intros a; [reflexivity|].
  simpl. rewrite Nat.add_0_r. f_equal.
  rewrite IH, <- seq_shift, map_map. apply map_ext. intros; lia.
Qed.

Lemma zrange_succ (k : nat) :
  zrange (Z.of_nat (S k)) = zrange (Z.of_nat k) ++ [Z.of_nat k].
Proof.
  unfold zrange. rewrite !Nat2Z.id, seq_S, map_app. reflexivity.
Qed.

Lemma zrange_add (a b : nat) :
  zrange (Z.of_nat (a + b)) = zrange (Z.of_nat a) ++ map (fun x => Z.of_nat a + x) (zrange (Z.of_nat b)).
Proof.
  unfold zrange. rewrite !Nat2Z.id, seq_app, map_app. f_equal.
  rewrite seq_add_shift, !map_map. apply map_ext. intros; lia.
Qed.

(** The nested loops enumerate the cells in row-major order. *)
Lemma grid_spec (nx : Z) (ny : nat) :
  0 < nx ->
  grid nx (Z.of_nat ny) = map (fun j => (j mod nx, j / nx)) (zrange (nx * Z.of_nat ny)).
Proof.
  intros Hnx. induction ny as [|k IH].
  - rewrite Z.mul_0_r. reflexivity.
  - unfold grid in *. rewrite zrange_succ, flat_map_app, IH. cbn [flat_map].
    rewrite app_nil_r.
    replace (nx * Z.of_nat (S k)) with (Z.of_nat (Z.to_nat (nx * Z.of_nat k) + Z.to_nat nx)) by lia.
    rewrite zrange_add, map_app, !Z2Nat.id by lia. f_equal.
    rewrite map_map. apply map_ext_in. intros x Hx.
    unfold zrange in Hx. apply in_map_iff in Hx. destruct Hx as (j & <- & Hj).
    apply in_seq in Hj.
    f_equal.
    + rewrite Z.add_comm, Z.mul_comm, Z_mod_plus_full. rewrite Z.mod_small; lia.
    + rewrite Z.add_comm, Z.mul_comm, Z_div_plus_full by lia. rewrite Z.div_small by lia. lia.
Qed.

Lemma nth_error_zrange (N : Z) (j : nat) :
  (Z.of_nat j < N) -> nth_error (zrange N) j = Some (Z.of_nat j).
Proof.
  intros H. unfold zrange. rewrite nth_error_map, nth_error_seq.
  destruct (Nat.ltb_spec j (Z.to_nat N)); [reflexivity|lia].
Qed.

Lemma length_zrange (N : Z) : length (zrange N) = Z.to_nat N.
Proof. unfold zrange. rewrite length_map, length_seq. reflexivity. Qed.

Lemma length_grid (nx ny : Z) : 0 < nx -> 0 <= ny -> Z.of_nat (length (grid nx ny)) = nx * ny.
Proof.
  intros Hnx Hny. rewrite <- (Z2Nat.id ny) by lia. rewrite grid_spec by lia.
  rewrite length_map, length_zrange. lia.
Qed.

(** The cell visited at iteration [length pre] of the nested loops. *)
Lemma grid_position (nx ny : Z) pre x y post :
  0 < nx -> 0 <= ny -> grid nx ny = pre ++ (x, y) :: post ->
  Z.of_nat (length pre) = y * nx + x /\ 0 <= x < nx /\ 0 <= y < ny.
Proof.
  intros Hnx Hny Hg.
  assert (Hn : nth_error (grid nx ny) (length pre) = Some (x, y)).
  { rewrite Hg, nth_error_app2, Nat.sub_diag by lia. reflexivity. }
  assert (Hlen : (length pre < length (grid nx ny))%nat).
  { rewrite Hg, length_app. simpl. lia. }
  pose proof (length_grid nx ny Hnx Hny) as HL.
  rewrite <- (Z2Nat.id ny) in Hn by lia. rewrite grid_spec in Hn by lia.
  rewrite nth_error_map, nth_error_zrange in Hn by lia.
  simpl in Hn. injection Hn as Hx Hy.
  pose proof (Z.div_mod (Z.of_nat (length pre)) nx ltac:(lia)) as Hdm.
  pose proof (Z.mod_pos_bound (Z.of_nat (length pre)) nx Hnx).
  assert (0 <= Z.of_nat (length pre) / nx) by (apply Z.div_pos; lia).
  assert (Z.of_nat (length pre) / nx < ny).
  { apply Z.div_lt_upper_bound; lia. }
  subst x y. split; [lia|]. split; lia.
Qed.

Lemma grid_nth (nx ny x y : Z) :
  0 <= x < nx -> 0 <= y < ny ->
  nth_error (grid nx ny) (Z.to_nat (y * nx + x)) = Some (x, y).
Proof.
  intros Hx Hy. rewrite <- (Z2Nat.id ny) by lia. rewrite grid_spec by lia.
  rewrite nth_error_map, nth_error_zrange by nia. simpl.
  rewrite Z2Nat.id by nia. f_equal. f_equal.
  - rewrite Z.add_comm, Z_mod_plus_full. apply Z.mod_small; lia.
  - rewrite Z.add_comm, Z_div_plus_full by lia. rewrite Z.div_small by lia. lia.
Qed.

(** ** GenerateMeshSection *)

Lemma for_each_preserve {A B C} (f : B -> C) (body : A -> B -> option B) l s s' :
  (forall a s s', body a s = Some s' -> f s' = f s) ->
  for_each l body s = Some s' -> f s' = f s.
Proof.
  intros Hb. revert s; induction l as [|a l IH]; intros s H; simpl in H.
  - congruence.
  - destruct (body a s) as [s1|] eqn:E; [|discriminate].
    rewrite (IH s1 H). exact (Hb a s s1 E).
Qed.

Lemma list_set_app_r {A} (p r : list A) k v :
  list_set (p ++ r) (length p + k) v = p ++ list_set r k v.
Proof. induction p as [|h p IH]; simpl; [reflexivity|]. rewrite IH. reflexivity. Qed.

Lemma skipn_cons_nth {A} (l : list A) k :
  (k < length l)%nat -> exists h, skipn k l = h :: skipn (S k) l.
Proof.
  revert k; induction l as [|h l IH]; intros [|k] Hk; simpl in *; try lia.
  - exists h. reflexivity.
  - apply IH. lia.
Qed.

(** Writing the cell just after a prefix already written. *)
Lemma arr_set_at {A} (p r : list A) (h v : A) (k : Z) :
  Z.of_nat (length p) = k -> arr_set (p ++ h :: r) k v = Some ((p ++ [v]) ++ r).
Proof.
  intros Hk. rewrite arr_set_ok by (rewrite length_app; simpl; lia).
  replace (Z.to_nat k) with (length p + 0)%nat by lia.
  rewrite list_set_app_r, <- app_assoc. reflexivity.
Qed.

Lemma skipn_six {A} (l : list A) k :
  (k + 6 <= length l)%nat ->
  exists h0 h1 h2 h3 h4 h5,
    skipn k l = h0 :: h1 :: h2 :: h3 :: h4 :: h5 :: skipn (k + 6) l.
Proof.
  intros H.
  destruct (skipn_cons_nth l k) as [h0 E0]; [lia|].
  destruct (skipn_cons_nth l (S k)) as [h1 E1]; [lia|].
  destruct (skipn_cons_nth l (S (S k))) as [h2 E2]; [lia|].
  destruct (skipn_cons_nth l (S (S (S k)))) as [h3 E3]; [lia|].
  destruct (skipn_cons_nth l (S (S (S (S k))))) as [h4 E4]; [lia|].
  destruct (skipn_cons_nth l (S (S (S (S (S k)))))) as [h5 E5]; [lia|].
  exists h0, h1, h2, h3, h4, h5.
  replace (k + 6)%nat with (S (S (S (S (S (S k))))))%nat by lia.
  rewrite E0, E1, E2, E3, E4, E5. reflexivity.
Qed.

Lemma length_flat_map_quad n l : length (flat_map (quad_tris n) l) = (6 * length l)%nat.
Proof.
  induction l as [|[x y] l IH]; simpl; [reflexivity|]. rewrite IH. lia.
Qed.

Ltac wrap32_simpl :=
  repeat match goal with |- context [wrap32 ?e] => rewrite (wrap32_id e) by nia end.

Lemma NormalTangentAt_ok t mx my :
  wf_map (Map t) -> 1 <= mx -> mx + 2 <= WidthX (Map t) -> 1 <= my -> my + 2 <= WidthY (Map t) ->
  WidthX (Map t) < 2 ^ 31 -> WidthY (Map t) < 2 ^ 31 ->
  NormalTangentAt t mx my = Some (MeshNormalTangent (Map t) mx my).
Proof.
  intros Hwf H1 H2 H3 H4 H5 H6. unfold NormalTangentAt. wrap32_simpl.
  rewrite !GetHeight_in_range by (assumption || lia). reflexivity.
Qed.

Lemma Allocate_sized n :
  1 <= n <= 18919 -> exists d, Allocate n = Some d /\ sized n d.
Proof.
  intros Hn. unfold Allocate, SetNum. wrap32_simpl.
  destruct (Z.ltb_spec (n * n) 0); [nia|].
  destruct (Z.ltb_spec ((n - 1) * (n - 1) * 6) 0); [nia|].
  simpl Z.of_nat.
  destruct (Z.ltb_spec 0 (n * n)); [|nia].
  destruct (Z.ltb_spec 0 ((n - 1) * (n - 1) * 6)).
  - eexists; split; [reflexivity|]. unfold sized; simpl. rewrite !repeat_length. lia.
  - eexists; split; [reflexivity|]. unfold sized; simpl.
    rewrite !repeat_length, firstn_nil. simpl. nia.
Qed.

(** What [GenerateMeshSection] leaves in the buffer, for a section inside
    the map and buffers of the allocated sizes. *)
Lemma GenerateMeshSection_ok t X Y d cre :
  section_fits t X Y -> sized (ComponentSize t) d ->
  exists d', GenerateMeshSection t X Y d cre = Some d' /\ sized (ComponentSize t) d' /\
    Normals d' = map (fun '(x, y) => fst (MeshNormalTangent (Map t)
                        (X * (ComponentSize t - 1) + x + 1) (Y * (ComponentSize t - 1) + y + 1)))
                     (grid (ComponentSize t) (ComponentSize t)) /\
    Tangents d' = map (fun '(x, y) =>
                         let v := snd (MeshNormalTangent (Map t)
                           (X * (ComponentSize t - 1) + x + 1) (Y * (ComponentSize t - 1) + y + 1)) in
                         ProcMeshTangent (VX v) (VY v) (VZ v))
                     (grid (ComponentSize t) (ComponentSize t)) /\
    Triangles d' = (if cre then flat_map (quad_tris (ComponentSize t))
                                  (grid (ComponentSize t - 1) (ComponentSize t - 1))
                    else Triangles d).
Proof.
  intros Hfit Hsz.
  destruct Hfit as (Hn & Hwf & HX & HY & HWX & HWY).
  set (n := ComponentSize t) in *.
  assert (HWX' : WidthX (Map t) < 2 ^ 31).
  { destruct Hwf as (? & ? & ? & ?). nia. }
  assert (HWY' : WidthY (Map t) < 2 ^ 31).
  { destruct Hwf as (? & ? & ? & ?). nia. }
  unfold GenerateMeshSection. fold n.
  (* vertices and UVs *)
  lazymatch goal with |- context [for_each (grid n n) ?body d] =>
    let P := constr:(fun (_ : list (Z * Z)) s => sized n s /\ Normals s = Normals d /\
                Tangents s = Tangents d /\ Triangles s = Triangles d) in
    assert (L1 : exists s', for_each (grid n n) body d = Some s' /\ P (grid n n) s');
    [apply (for_each_inv P body (grid n n))|] end.
  { intros pre [x y] post s Hfull (Hs & HN & HT & HTr).
    destruct (grid_position n n pre x y post ltac:(lia) ltac:(lia) Hfull) as (Hj & Hx & Hy).
    cbn beta iota zeta. wrap32_simpl.
    rewrite GetHeight_in_range by (assumption || nia).
    destruct Hs as (L1 & L2 & L3 & L4 & L5).
    rewrite arr_set_ok by (rewrite L1; nia). rewrite arr_set_ok by (rewrite L2; nia).
    eexists; split; [reflexivity|]. unfold sized; simpl. rewrite !length_list_set. tauto. }
  { tauto. }
  cbv beta in L1. destruct L1 as (d1 & E1 & Hs1 & HN1 & HT1 & HTr1).
  rewrite E1.
  (* normals and tangents *)
  set (fN := fun '(x, y) => fst (MeshNormalTangent (Map t) (X * (n - 1) + x + 1) (Y * (n - 1) + y + 1))).
  set (fT := fun '(x, y) => let v := snd (MeshNormalTangent (Map t)
                           (X * (n - 1) + x + 1) (Y * (n - 1) + y + 1)) in
                         ProcMeshTangent (VX v) (VY v) (VZ v)).
  lazymatch goal with |- context [for_each (grid n n) ?body d1] =>
    let P := constr:(fun (pre : list (Z * Z)) s => sized n s /\ Triangles s = Triangles d1 /\
                Normals s = map fN pre ++ skipn (length pre) (Normals d1) /\
                Tangents s = map fT pre ++ skipn (length pre) (Tangents d1)) in
    assert (L2 : exists s', for_each (grid n n) body d1 = Some s' /\ P (grid n n) s');
    [apply (for_each_inv P body (grid n n))|] end.
  { intros pre [x y] post s Hfull (Hs & HTr & HN & HT).
    destruct (grid_position n n pre x y post ltac:(lia) ltac:(lia) Hfull) as (Hj & Hx & Hy).
    assert (Hlt : (length pre < length (Normals d1))%nat).
    { destruct Hs1 as (_ & _ & L3 & _). rewrite L3. nia. }
    assert (Hlt' : (length pre < length (Tangents d1))%nat).
    { destruct Hs1 as (_ & _ & _ & L4 & _). rewrite L4. nia. }
    cbn beta iota zeta. wrap32_simpl.
    rewrite NormalTangentAt_ok by (assumption || nia).
    destruct (MeshNormalTangent (Map t) (X * (n - 1) + x + 1) (Y * (n - 1) + y + 1))
      as [nrm vx] eqn:Ent.
    destruct (skipn_cons_nth (Normals d1) (length pre) Hlt) as [hn En].
    destruct (skipn_cons_nth (Tangents d1) (length pre) Hlt') as [ht Et].
    rewrite HN, En, arr_set_at by (rewrite length_map; lia).
    rewrite HT, Et, arr_set_at by (rewrite length_map; lia).
    eexists; split; [reflexivity|].
    destruct Hs as (L1 & L2 & L3 & L4 & L5).
    assert (Efn : fN (x, y) = nrm) by (unfold fN; rewrite Ent; reflexivity).
    assert (Eft : fT (x, y) = ProcMeshTangent (VX vx) (VY vx) (VZ vx))
      by (unfold fT; rewrite Ent; reflexivity).
    unfold sized; cbn [Vertices UV0 Normals Tangents Triangles].
    rewrite !map_app, !length_app. cbn [map length].
    rewrite Efn, Eft, ?length_app, ?length_map, ?length_skipn, ?Nat.add_1_r.
    destruct Hs1 as (M1 & M2 & M3 & M4 & M5).
    cbn [length].
    repeat split; try assumption; try reflexivity; lia. }
  { simpl. destruct Hs1 as (L1 & L2 & L3 & L4 & L5). unfold sized.
    repeat split; (assumption || reflexivity). }
  cbv beta in L2. destruct L2 as (d2 & E2 & Hs2 & HTr2 & HN2 & HT2).
  rewrite E2.
  assert (Hgl : length (grid n n) = Z.to_nat (n * n)).
  { pose proof (length_grid n n ltac:(lia) ltac:(lia)). lia. }
  assert (HN2' : Normals d2 = map fN (grid n n)).
  { rewrite HN2, skipn_all2, app_nil_r; [reflexivity|].
    destruct Hs1 as (_ & _ & L3 & _). lia. }
  assert (HT2' : Tangents d2 = map fT (grid n n)).
  { rewrite HT2, skipn_all2, app_nil_r; [reflexivity|].
    destruct Hs1 as (_ & _ & _ & L4 & _). lia. }
  destruct cre.
  2:{ exists d2. split; [reflexivity|]. split; [exact Hs2|].
      split; [exact HN2'|]. split; [exact HT2'|]. congruence. }
  (* triangles *)
  lazymatch goal with |- context [for_each (grid ?p ?p) ?body d2] =>
    let P := constr:(fun (pre : list (Z * Z)) s => sized n s /\ Normals s = Normals d2 /\
                Tangents s = Tangents d2 /\
                Triangles s = flat_map (quad_tris n) pre ++ skipn (6 * length pre) (Triangles d2)) in
    assert (L3 : exists s', for_each (grid p p) body d2 = Some s' /\ P (grid p p) s');
    [apply (for_each_inv P body (grid p p))|] end.
  { intros pre [x y] post s Hfull (Hs & HN & HT & HTr).
    rewrite wrap32_id in Hfull by lia.
    destruct (grid_position (n - 1) (n - 1) pre x y post ltac:(lia) ltac:(lia) Hfull)
      as (Hj & Hx & Hy).
    assert (Hlt : (6 * length pre + 6 <= length (Triangles d2))%nat).
    { destruct Hs2 as (_ & _ & _ & _ & L5). rewrite L5. nia. }
    destruct (skipn_six (Triangles d2) (6 * length pre) Hlt)
      as (h0 & h1 & h2 & h3 & h4 & h5 & E6).
    cbn beta iota zeta. wrap32_simpl.
    rewrite HTr, E6.
    pose proof (length_flat_map_quad n pre) as HLq.
    rewrite arr_set_at by lia.
    rewrite arr_set_at by (rewrite length_app; simpl; lia).
    rewrite arr_set_at by (rewrite !length_app; simpl; lia).
    rewrite arr_set_at by (rewrite !length_app; simpl; lia).
    rewrite arr_set_at by (rewrite !length_app; simpl; lia).
    rewrite arr_set_at by (rewrite !length_app; simpl; lia).
    eexists; split; [reflexivity|].
    destruct Hs as (L1 & L2 & L3 & L4 & L5).
    unfold sized; cbn [Vertices UV0 Normals Tangents Triangles].
    repeat split; try assumption.
    - rewrite <- L5, HTr, E6, !length_app. cbn [length]. lia.
    - rewrite flat_map_app, length_app. cbn [length flat_map quad_tris].
      replace (6 * (length pre + 1))%nat with (6 * length pre + 6)%nat by lia.
      rewrite <- !app_assoc. reflexivity. }
  { simpl. split; [exact Hs2|]. repeat split; reflexivity. }
  cbv beta in L3. destruct L3 as (d3 & E3 & Hs3 & HN3 & HT3 & HTr3).
  rewrite (wrap32_id (n - 1)) in E3, HTr3 by lia.
  rewrite (wrap32_id (n - 1)) by lia.
  rewrite E3. exists d3. split; [reflexivity|]. split; [exact Hs3|].
  split; [congruence|]. split; [congruence|].
  rewrite HTr3, skipn_all2, app_nil_r; [reflexivity|].
  destruct Hs2 as (_ & _ & _ & _ & L5).
  pose proof (length_grid (n - 1) (n - 1) ltac:(lia) ltac:(lia)). nia.
Qed.

Lemma vertex_cell_ok n x y : 0 <= x < n -> vertex_cell n (x + y * n) = (x, y).
Proof.
  intros Hx. unfold vertex_cell. f_equal.
  - rewrite Z_mod_plus_full. apply Z.mod_small; lia.
  - rewrite Z_div_plus_full by lia. rewrite Z.div_small by lia. lia.
Qed.

Lemma sqrt_pos_inv (x : R) : (0 < x)%R -> (0 < / sqrt x)%R.
Proof. intros H. apply Rinv_0_lt_compat, sqrt_lt_R0, H. Qed.

(** ** Mesh sections: C1, C2 *)

(** C1, counterexample.  On [cex_terrain], the normal [GenerateMeshSection]
    writes for the first vertex of section [(0, 0)] (the interior map cell
    [(1, 1)]) is not the normal of the specification's formula: the code
    takes [h(x, y-1) - h(x, y+1)] as the y difference, the opposite of the
    specification's [h(x, y+1) - h(x, y-1)]. *)
Lemma GenerateMeshSection_normal_not_spec :
  exists d0 d, Allocate 2 = Some d0 /\ GenerateMeshSection cex_terrain 0 0 d0 false = Some d /\
    nth_error (Normals d) 0 <> Some (fst (SpecNormalTangent (Map cex_terrain) 1 1)).
Proof.
  destruct (Allocate_sized 2 ltac:(lia)) as (d0 & Ha & Hs).
  assert (Hfit : section_fits cex_terrain 0 0).
  { unfold section_fits, wf_map, cex_terrain, cex_map; simpl. repeat split; try lia; reflexivity. }
  destruct (GenerateMeshSection_ok cex_terrain 0 0 d0 false Hfit Hs)
    as (d & Hg & _ & HN & _).
  exists d0, d. split; [exact Ha|]. split; [exact Hg|].
  rewrite HN. simpl.
  unfold MeshNormalTangent, SpecNormalTangent, hget, Normalize, CrossProduct; simpl.
  intros Heq. injection Heq as _ HY _.
  unfold SMALL_NUMBER in *.
  destruct (Rlt_dec _ _) as [H1|H1]; [|lra].
  destruct (Rlt_dec _ _) as [H2|H2]; [|lra].
  destruct (Rlt_dec _ _) as [H3|H3]; [|lra].
  cbn [VX VY VZ] in HY.
  replace (2 * 2 + 0 * 0 + (0 - 0) * (0 - 0))%R with 4%R in HY by ring.
  replace (0 * 0 + 2 * 2 + (0 - 1) * (0 - 1))%R with 5%R in HY by ring.
  replace (0 * 0 + 2 * 2 + (1 - 0) * (1 - 0))%R with 5%R in HY by ring.
  pose proof (sqrt_pos_inv 4 ltac:(lra)).
  pose proof (sqrt_pos_inv 5 ltac:(lra)).
  nra.
Qed.

(** C1 (amended): for every vertex [(x, y)] of a section inside the map,
    with [(mx, my)] its map cell, the normal written is the cross product
    of the normalized tangents [(2, 0, h(mx+1, my) - h(mx-1, my))] and
    [(0, 2, h(mx, my-1) - h(mx, my+1))], and the tangent written is the
    first normalized tangent. *)
Theorem GenerateMeshSection_normals t X Y d cre :
  section_fits t X Y -> sized (ComponentSize t) d ->
  exists d', GenerateMeshSection t X Y d cre = Some d' /\
  forall x y, 0 <= x < ComponentSize t -> 0 <= y < ComponentSize t ->
    let mx := X * (ComponentSize t - 1) + x + 1 in
    let my := Y * (ComponentSize t - 1) + y + 1 in
    let h := hget (Map t) in
    let vx := Normalize (mkV 2 0 (h (mx + 1) my - h (mx - 1) my)) in
    let vy := Normalize (mkV 0 2 (h mx (my - 1) - h mx (my + 1))) in
    nth_error (Normals d') (Z.to_nat (y * ComponentSize t + x)) = Some (CrossProduct vx vy) /\
    nth_error (Tangents d') (Z.to_nat (y * ComponentSize t + x)) =
      Some (ProcMeshTangent (VX vx) (VY vx) (VZ vx)).
Proof.
  intros Hfit Hs.
  destruct (GenerateMeshSection_ok t X Y d cre Hfit Hs) as (d' & Hg & _ & HN & HT & _).
  exists d'. split; [exact Hg|].
  intros x y Hx Hy.
  rewrite HN, HT, !nth_error_map, grid_nth by assumption.
  split; reflexivity.
Qed.

Lemma GenerateMeshSection_normals_witness :
  (section_fits cex_terrain 0 0 /\
   sized 2 (mkData (repeat ZeroVector 4) (repeat (mkV2 0 0) 4) (repeat ZeroVector 4)
                   (repeat (ProcMeshTangent 0 0 0) 4) (repeat 0 6))) /\
  exists d', GenerateMeshSection cex_terrain 0 0
     (mkData (repeat ZeroVector 4) (repeat (mkV2 0 0) 4) (repeat ZeroVector 4)
             (repeat (ProcMeshTangent 0 0 0) 4) (repeat 0 6)) true = Some d' /\
  forall x y, 0 <= x < 2 -> 0 <= y < 2 ->
    let mx := 0 * (2 - 1) + x + 1 in
    let my := 0 * (2 - 1) + y + 1 in
    let h := hget cex_map in
    let vx := Normalize (mkV 2 0 (h (mx + 1) my - h (mx - 1) my)) in
    let vy := Normalize (mkV 0 2 (h mx (my - 1) - h mx (my + 1))) in
    nth_error (Normals d') (Z.to_nat (y * 2 + x)) = Some (CrossProduct vx vy) /\
    nth_error (Tangents d') (Z.to_nat (y * 2 + x)) =
      Some (ProcMeshTangent (VX vx) (VY vx) (VZ vx)).
Proof.
  assert (H1 : section_fits cex_terrain 0 0).
  { unfold section_fits, wf_map, cex_terrain, cex_map; simpl. repeat split; try lia; reflexivity. }
  assert (H2 : sized 2 (mkData (repeat ZeroVector 4) (repeat (mkV2 0 0) 4) (repeat ZeroVector 4)
                   (repeat (ProcMeshTangent 0 0 0) 4) (repeat 0 6))).
  { unfold sized; simpl. repeat split; reflexivity. }
  split; [split; assumption|].
  exact (GenerateMeshSection_normals cex_terrain 0 0 _ true H1 H2).
Defined.

(** C2, counterexample.  For 18920 x 18920-vertex components the index
    count [(Size - 1) * (Size - 1) * 6] overflows int32 and is negative:
    [Allocate] fails the array's size check and no section is built. *)
Lemma Allocate_overflow : Allocate 18920 = None.
Proof.
  unfold Allocate.
  replace (wrap32 (18920 * 18920)) with 357966400 by reflexivity.
  replace (wrap32 ((18920 - 1) * (18920 - 1) * 6)) with (-2147395930) by reflexivity.
  unfold SetNum at 5. simpl Z.ltb. cbv iota.
  destruct (SetNum [] 357966400 ZeroVector); [|reflexivity].
  destruct (SetNum [] 357966400 (mkV2 0 0)); [|reflexivity].
  destruct (SetNum [] 357966400 ZeroVector); [|reflexivity].
  destruct (SetNum [] 357966400 (ProcMeshTangent 0 0 0)); reflexivity.
Qed.

(** C2 (amended): for [2 <= n <= 18919] and a section inside the map, the
    allocated buffer filled by [GenerateMeshSection] holds, for every quad
    in row-major order, the six indices of two triangles: the index buffer
    has [6 * (n-1) * (n-1)] entries, i.e. [2 * (n-1) * (n-1)] triangles;
    each quad [(x, y)] is split along its diagonal from vertex [(x, y)] to
    vertex [(x+1, y+1)], and every triangle has the same (positive, in
    grid coordinates) orientation. *)
Theorem GenerateMeshSection_triangles t X Y :
  section_fits t X Y ->
  exists d0 d, Allocate (ComponentSize t) = Some d0 /\
    GenerateMeshSection t X Y d0 true = Some d /\
    Triangles d = flat_map (quad_tris (ComponentSize t))
                           (grid (ComponentSize t - 1) (ComponentSize t - 1)) /\
    Z.of_nat (length (Triangles d)) = 6 * (ComponentSize t - 1) * (ComponentSize t - 1) /\
    Z.of_nat (length (Triangles d)) = 3 * ((ComponentSize t - 1) * (ComponentSize t - 1) * 2) /\
    (forall x y, 0 <= x < ComponentSize t - 1 -> 0 <= y < ComponentSize t - 1 ->
       exists a b c e, quad_tris (ComponentSize t) (x, y) = [a; b; c; a; c; e] /\
         vertex_cell (ComponentSize t) a = (x, y) /\
         vertex_cell (ComponentSize t) c = (x + 1, y + 1) /\
         orient (ComponentSize t) a b c = 1 /\ orient (ComponentSize t) a c e = 1).
Proof.
  intros Hfit.
  assert (Hn : 2 <= ComponentSize t <= 18919) by apply Hfit.
  destruct (Allocate_sized (ComponentSize t) ltac:(lia)) as (d0 & Ha & Hs).
  destruct (GenerateMeshSection_ok t X Y d0 true Hfit Hs) as (d & Hg & Hs' & _ & _ & HTr).
  exists d0, d. split; [exact Ha|]. split; [exact Hg|]. split; [exact HTr|].
  assert (HL : Z.of_nat (length (Triangles d)) = 6 * (ComponentSize t - 1) * (ComponentSize t - 1)).
  { destruct Hs' as (_ & _ & _ & _ & L5). rewrite L5. nia. }
  split; [exact HL|]. split; [lia|].
  intros x y Hx Hy. set (n := ComponentSize t) in *.
  exists (x + y * n), (1 + x + y * n), (1 + x + (y + 1) * n), (x + (y + 1) * n).
  split; [reflexivity|].
  assert (Ea : vertex_cell n (x + y * n) = (x, y)) by (apply vertex_cell_ok; lia).
  assert (Eb : vertex_cell n (1 + x + y * n) = (x + 1, y)).
  { replace (1 + x + y * n) with ((x + 1) + y * n) by lia. apply vertex_cell_ok; lia. }
  assert (Ec : vertex_cell n (1 + x + (y + 1) * n) = (x + 1, y + 1)).
  { replace (1 + x + (y + 1) * n) with ((x + 1) + (y + 1) * n) by lia. apply vertex_cell_ok; lia. }
  assert (Ee : vertex_cell n (x + (y + 1) * n) = (x, y + 1)) by (apply vertex_cell_ok; lia).
  split; [exact Ea|]. split; [exact Ec|].
  unfold orient. rewrite Ea, Eb, Ec, Ee. split; ring.
Qed.

Lemma GenerateMeshSection_triangles_witness :
  section_fits cex_terrain 0 0 /\
  exists d0 d, Allocate 2 = Some d0 /\
    GenerateMeshSection cex_terrain 0 0 d0 true = Some d /\
    Triangles d = flat_map (quad_tris 2) (grid (2 - 1) (2 - 1)) /\
    Z.of_nat (length (Triangles d)) = 6 * (2 - 1) * (2 - 1) /\
    Z.of_nat (length (Triangles d)) = 3 * ((2 - 1) * (2 - 1) * 2) /\
    (forall x y, 0 <= x < 2 - 1 -> 0 <= y < 2 - 1 ->
       exists a b c e, quad_tris 2 (x, y) = [a; b; c; a; c; e] /\
         vertex_cell 2 a = (x, y) /\ vertex_cell 2 c = (x + 1, y + 1) /\
         orient 2 a b c = 1 /\ orient 2 a c e = 1).
Proof.
  assert (H1 : section_fits cex_terrain 0 0).
  { unfold section_fits, wf_map, cex_terrain, cex_map; simpl. repeat split; try lia; reflexivity. }
  split; [exact H1|].
  exact (GenerateMeshSection_triangles cex_terrain 0 0 H1).
Defined.

(** ** The worker pool: C4 *)

(** C4 (code bug).  [RebuildMesh] starts [uint16 num_threads = 4] workers
    (fewer only when there are fewer sections) and never reads
    [WorkerThreads], documented as "the number of threads to use when
    generating a new map": with [WorkerThreads = 1] and 4 sections it still
    starts 4 workers, not [min(1, 4) = 1]. *)
Theorem RebuildMesh_ignores_WorkerThreads (cost : nat -> Z -> Z -> nat) :
  length (fst (StartBuilders cost (XWidth one_thread_terrain) (YWidth one_thread_terrain)
                 (mkSched 0 0 (PrepareMeshes one_thread_terrain) []))) = 4%nat /\
  SpecPoolSize one_thread_terrain = 1.
Proof. split; reflexivity. Qed.

(** ** ATerrain::Update: C10 *)

Lemma for_each_inv_some {A B} (P : B -> Prop) (body : A -> B -> option B) l s s' :
  (forall a s s', In a l -> P s -> body a s = Some s' -> P s') ->
  P s -> for_each l body s = Some s' -> P s'.
Proof.
  revert s; induction l as [|a l IH]; intros s Hb Hp H; simpl in H.
  - congruence.
  - destruct (body a s) as [s1|] eqn:E; [|discriminate].
    apply (IH s1); [intros; eapply Hb; eauto; right; assumption | | exact H].
    eapply Hb; eauto. left; reflexivity.
Qed.

Lemma in_zrange n i : In i (zrange n) -> 0 <= i < n.
Proof.
  unfold zrange. intros H. apply in_map_iff in H. destruct H as (j & <- & Hj).
  apply in_seq in Hj. lia.
Qed.

Lemma in_grid_xy nx ny x y : In (x, y) (grid_xy nx ny) -> 0 <= x < nx /\ 0 <= y < ny.
Proof.
  unfold grid_xy. intros H. apply in_flat_map in H. destruct H as (x' & Hx & H).
  apply in_map_iff in H. destruct H as (y' & E & Hy). injection E as -> ->.
  split; apply in_zrange; assumption.
Qed.

(** [GenerateMeshSection] without [CreateTriangles] leaves the index array. *)
Lemma GenerateMeshSection_keeps_triangles t X Y d d' :
  GenerateMeshSection t X Y d false = Some d' -> Triangles d' = Triangles d.
Proof.
  unfold GenerateMeshSection. intros H.
  destruct (for_each _ _ d) as [d1|] eqn:E1; [|discriminate].
  destruct (for_each _ _ d1) as [d2|] eqn:E2; [|discriminate].
  injection H as <-.
  transitivity (Triangles d1).
  - eapply (for_each_preserve Triangles); [|exact E2].
    intros [x y] s s'. cbn beta iota.
    destruct (NormalTangentAt _ _ _) as [[nrm vx]|]; [|discriminate].
    destruct (arr_set _ _ _); [|discriminate].
    destruct (arr_set _ _ _); [|discriminate].
    intros Hs; injection Hs as <-. reflexivity.
  - eapply (for_each_preserve Triangles); [|exact E1].
    intros [x y] s s'. cbn beta iota.
    destruct (GetHeight _ _ _); [|discriminate].
    destruct (arr_set _ _ _); [|discriminate].
    destruct (arr_set _ _ _); [|discriminate].
    intros Hs; injection Hs as <-. reflexivity.
Qed.

Lemma border_count_app evs e :
  border_count (evs ++ [e]) =
  (border_count evs + match e with GenBorder => 1 | GenSection _ _ => 0 end)%nat.
Proof.
  unfold border_count. rewrite filter_app, length_app. destruct e; reflexivity.
Qed.

Lemma arr_get_arr_set_other {A} (l l' : list A) i j v :
  arr_set l i v = Some l' -> i <> j -> arr_get l' j = arr_get l j.
Proof.
  unfold arr_set, arr_get. intros H Hij.
  destruct ((0 <=? i) && (i <? Z.of_nat (length l)))%bool eqn:E; [|discriminate].
  injection H as <-. apply andb_prop in E. destruct E as [E1 _]. apply Z.leb_le in E1.
  destruct (Z.leb_spec 0 j); [|reflexivity].
  apply nth_error_list_set_neq. lia.
Qed.

Lemma arr_get_arr_set_same {A} (l l' : list A) i v :
  arr_set l i v = Some l' -> arr_get l' i = Some v.
Proof.
  unfold arr_set, arr_get. intros H.
  destruct ((0 <=? i) && (i <? Z.of_nat (length l)))%bool eqn:E; [|discriminate].
  injection H as <-. apply andb_prop in E. destruct E as [E1 E2].
  apply Z.leb_le in E1. apply Z.ltb_lt in E2.
  destruct (Z.leb_spec 0 i); [|lia].
  apply nth_error_list_set_eq. lia.
Qed.

(** C10: in one [Update], the border is regenerated at most once; not at
    all when no edge section is marked; and the section regenerations keep
    the buffer's triangle indices. *)
Theorem Update_border_at_most_once t t' evs :
  Update t = Some (t', evs) ->
  (border_count evs <= 1)%nat /\
  ((forall x y, 0 <= x < XWidth t -> 0 <= y < YWidth t -> is_edge t x y = true ->
      arr_get (UpdateMesh t) (wrap32 (y * XWidth t + x)) <> Some true) ->
   border_count evs = 0%nat) /\
  Triangles (ComponentBuffer t') = Triangles (ComponentBuffer t).
Proof.
  unfold Update. intros H.
  destruct (for_each _ _ _) as [s|] eqn:E; [|discriminate].
  injection H as <- <-. cbn [ComponentBuffer].
  split; [|split].
  - (* the flag is cleared by the only border regeneration *)
    assert (Hinv : (update_border s = true /\ border_count (us_events s) = 0%nat) \/
                   (update_border s = false /\ border_count (us_events s) = 1%nat)).
    { refine (for_each_inv_some
        (fun s => (update_border s = true /\ border_count (us_events s) = 0%nat) \/
                  (update_border s = false /\ border_count (us_events s) = 1%nat))
        _ _ _ _ _ _ E); [|left; split; reflexivity].
      intros [x y] s1 s2 _ Hp Hs. unfold UpdateStep in Hs.
      destruct (arr_get _ _) as [[|]|]; [|injection Hs as <-; exact Hp|discriminate].
      destruct (GenerateMeshSection _ _ _ _ _); [|discriminate].
      destruct (mesh_write _ _); [|discriminate].
      destruct (update_border s1 && is_edge t x y)%bool eqn:Eb.
      + destruct (GenerateBorderSection _ _ _); [|discriminate].
        destruct (mesh_write_last _); [|discriminate].
        destruct (arr_set _ _ _); [|discriminate].
        injection Hs as <-. cbn [update_border us_events].
        apply andb_prop in Eb. destruct Eb as [Eb _].
        destruct Hp as [[_ Hc] | [Hf _]]; [|congruence].
        right. split; [reflexivity|].
        rewrite !border_count_app, Hc. reflexivity.
      + destruct (arr_set _ _ _); [|discriminate].
        injection Hs as <-. cbn [update_border us_events].
        rewrite border_count_app. rewrite Nat.add_0_r. exact Hp. }
    destruct Hinv as [[_ H0] | [_ H1]]; lia.
  - intros Hno.
    assert (Hinv : border_count (us_events s) = 0%nat /\
                   forall x y, 0 <= x < XWidth t -> 0 <= y < YWidth t -> is_edge t x y = true ->
                     arr_get (us_UpdateMesh s) (wrap32 (y * XWidth t + x)) <> Some true).
    { refine (for_each_inv_some
        (fun s => border_count (us_events s) = 0%nat /\
                  forall x y, 0 <= x < XWidth t -> 0 <= y < YWidth t -> is_edge t x y = true ->
                    arr_get (us_UpdateMesh s) (wrap32 (y * XWidth t + x)) <> Some true)
        _ _ _ _ _ _ E); [|split; [reflexivity|exact Hno]].
      intros [x y] s1 s2 Hin [Hc Hf] Hs. unfold UpdateStep in Hs.
      apply in_grid_xy in Hin. destruct Hin as [Hx Hy].
      destruct (arr_get _ _) as [[|]|] eqn:Eg; [|injection Hs as <-; split; assumption|discriminate].
      destruct (GenerateMeshSection _ _ _ _ _); [|discriminate].
      destruct (mesh_write _ _); [|discriminate].
      destruct (update_border s1 && is_edge t x y)%bool eqn:Eb.
      + apply andb_prop in Eb. destruct Eb as [_ Eb].
        exfalso. exact (Hf x y Hx Hy Eb Eg).
      + destruct (arr_set _ _ _) as [um|] eqn:Es; [|discriminate].
        injection Hs as <-. cbn [us_events us_UpdateMesh].
        split; [rewrite border_count_app, Nat.add_0_r; exact Hc|].
        intros x' y' Hx' Hy' He'.
        destruct (Z.eq_dec (wrap32 (y * XWidth t + x)) (wrap32 (y' * XWidth t + x'))) as [Heq|Hne].
        * rewrite <- Heq, (arr_get_arr_set_same _ _ _ _ Es). discriminate.
        * rewrite (arr_get_arr_set_other _ _ _ _ _ Es Hne). apply Hf; assumption. }
    apply Hinv.
  - refine (for_each_inv_some (fun s => Triangles (us_Buffer s) = Triangles (ComponentBuffer t))
      _ _ _ _ _ _ E); [|reflexivity].
    intros [x y] s1 s2 _ Hp Hs. unfold UpdateStep in Hs.
    destruct (arr_get _ _) as [[|]|]; [|injection Hs as <-; exact Hp|discriminate].
    destruct (GenerateMeshSection _ _ _ _ _) as [buf|] eqn:Eg; [|discriminate].
    apply GenerateMeshSection_keeps_triangles in Eg.
    destruct (mesh_write _ _); [|discriminate].
    destruct (update_border s1 && is_edge t x y)%bool.
    + destruct (GenerateBorderSection _ _ _); [|discriminate].
      destruct (mesh_write_last _); [|discriminate].
      destruct (arr_set _ _ _); [|discriminate].
      injection Hs as <-. cbn. congruence.
    + destruct (arr_set _ _ _); [|discriminate].
      injection Hs as <-. cbn. congruence.
Qed.

Lemma Update_border_at_most_once_witness :
  exists t' evs, Update update_terrain = Some (t', evs) /\
  (border_count evs <= 1)%nat /\
  ((forall x y, 0 <= x < XWidth update_terrain -> 0 <= y < YWidth update_terrain ->
      is_edge update_terrain x y = true ->
      arr_get (UpdateMesh update_terrain) (wrap32 (y * XWidth update_terrain + x)) <> Some true) ->
   border_count evs = 0%nat) /\
  Triangles (ComponentBuffer t') = Triangles (ComponentBuffer update_terrain).
Proof.
  destruct (Update update_terrain) as [[t' evs]|] eqn:E.
  - exists t', evs. split; [reflexivity|].
    exact (Update_border_at_most_once update_terrain t' evs E).
  - vm_compute in E. discriminate.
Defined.

(** ** The border: C8 *)

(** A [uint16] loop whose bound the counter reaches runs its body on
    [i, ..., b - 1]. *)
Lemma loop16_ok {B} (body : Z -> B -> option B) (f : Z -> B -> B) fuel i b s :
  (forall j s, i <= j < b -> body j s = Some (f j s)) ->
  0 <= i -> b <= 65535 -> (Z.to_nat (b - i) < fuel)%nat ->
  loop16 fuel i b body s =
  Some (fold_left (fun s j => f j s) (map (fun k => i + Z.of_nat k) (seq 0 (Z.to_nat (b - i)))) s).
Proof.
  revert i s; induction fuel as [|fuel IH]; intros i s Hb Hi Hb' Hf; [lia|].
  simpl. destruct (Z.ltb_spec i b).
  - rewrite Hb by lia.
    replace (Z.to_nat (b - i)) with (S (Z.to_nat (b - (i + 1)))) by lia.
    replace (u16 (i + 1)) with (i + 1) by (unfold u16; rewrite Z.mod_small; lia).
    rewrite IH by (intros; try apply Hb; lia).
    cbn [seq map fold_left]. rewrite Z.add_0_r. f_equal. f_equal.
    rewrite <- seq_shift, map_map. apply map_ext. intros; lia.
  - replace (Z.to_nat (b - i)) with 0%nat by lia. reflexivity.
Qed.

Lemma for16_ok {B} (body : Z -> B -> option B) (f : Z -> B -> B) b s :
  (forall j s, 0 <= j < b -> body j s = Some (f j s)) -> b <= 65535 ->
  for16 b body s = Some (fold_left (fun s j => f j s) (zrange b) s).
Proof.
  intros Hb Hb'. unfold for16. rewrite loop16_ok with (f := f) by (auto || lia).
  unfold zrange. rewrite ?Z.sub_0_r. reflexivity.
Qed.


Lemma fold_add_pair (F : ComponentData -> Z -> ComponentData)
    (a b : Z -> FVector) (c e : Z -> FVector2D) (n : FVector) (tg : FProcMeshTangent) l d0 :
  (forall d j, F d j = add_pair d (a j) (b j) (c j) (e j) n tg) ->
  fold_left F l d0 =
  mkData (Vertices d0 ++ flat_map (fun j => [a j; b j]) l) (UV0 d0 ++ flat_map (fun j => [c j; e j]) l)
         (Normals d0 ++ repeat n (2 * length l)) (Tangents d0 ++ repeat tg (2 * length l))
         (Triangles d0).
Proof.
  intros HF. revert d0; induction l as [|j l IH]; intros d0; cbn [fold_left flat_map length].
  - destruct d0; simpl. rewrite !app_nil_r. reflexivity.
  - rewrite IH, HF. unfold add_pair; cbn [Vertices UV0 Normals Tangents Triangles].
    rewrite <- !app_assoc.
    replace (2 * S (length l))%nat with (S (S (2 * length l))) by lia.
    reflexivity.
Qed.

Lemma fold_add_tris (F : ComponentData -> Z -> ComponentData) (g : Z -> list Z) l d0 :
  (forall d j, F d j = add_tris d (g j)) ->
  fold_left F l d0 =
  mkData (Vertices d0) (UV0 d0) (Normals d0) (Tangents d0) (Triangles d0 ++ flat_map g l).
Proof.
  intros HF. revert d0; induction l as [|j l IH]; intros d0; cbn [fold_left flat_map].
  - destruct d0; simpl. rewrite app_nil_r. reflexivity.
  - rewrite IH, HF. unfold add_tris; cbn [Vertices UV0 Normals Tangents Triangles].
    rewrite <- app_assoc. reflexivity.
Qed.


Lemma repeat_two_times {A} (v : A) k : repeat v (2 * k) = repeat v (Z.to_nat (2 * Z.of_nat k)).
Proof. f_equal. lia. Qed.




(** ** The worker scheduler of RebuildMesh: C3 *)

Lemma nth_list_set_eq {A} (l : list A) n v d :
  (n < length l)%nat -> nth n (list_set l n v) d = v.
Proof.
  revert n; induction l as [|h t IH]; intros [|n] Hn; simpl in *; try lia; auto.
  apply IH; lia.
Qed.

Lemma nth_list_set_neq {A} (l : list A) n k v d :
  k <> n -> nth k (list_set l n v) d = nth k l d.
Proof.
  revert n k; induction l as [|h t IH]; intros [|n] [|k] Hk; simpl; auto; try congruence.
Qed.

Lemma existsb_Zeqb (k : Z) l : existsb (Z.eqb k) l = true <-> In k l.
Proof.
  rewrite existsb_exists. split.
  - intros [x [Hx E]]. apply Z.eqb_eq in E. subst. exact Hx.
  - intros H. exists k. split; [exact H|apply Z.eqb_refl].
Qed.

Lemma sec_bidx XW k : 0 < XW -> k / XW * XW + k mod XW = k.
Proof.
  intros H. pose proof (Z.div_mod k XW). lia.
Qed.

Lemma advance_ok XW p :
  1 <= XW <= 65535 -> 0 <= p -> p / XW + 1 < 65536 ->
  advance XW (p mod XW) (p / XW) = ((p + 1) mod XW, (p + 1) / XW).
Proof.
  intros HX Hp Hq. unfold advance, u16.
  pose proof (Z.mod_pos_bound p XW ltac:(lia)) as Hr.
  pose proof (Z.div_mod p XW ltac:(lia)) as Hd.
  rewrite (Z.mod_small (p mod XW + 1)) by lia.
  destruct (Z.leb_spec XW (p mod XW + 1)).
  - rewrite (Z.mod_small (p / XW + 1)) by (pose proof (Z.div_pos p XW); lia).
    assert (E : p + 1 = (p / XW + 1) * XW) by lia.
    rewrite E, Z.mod_mul, Z.div_mul by lia. reflexivity.
  - f_equal.
    + apply Z.mod_unique with (q := p / XW); lia.
    + apply Z.div_unique with (r := p mod XW + 1); lia.
Qed.

Lemma map_bidx_sleep XW bs : map (bidx XW) (sleep bs) = map (bidx XW) bs.
Proof. unfold sleep. rewrite map_map. reflexivity. Qed.

Lemma sum_sleep bs :
  bs <> [] -> Forall (fun b => b_left b <> O) bs ->
  (list_sum (map b_left (sleep bs)) < list_sum (map b_left bs))%nat.
Proof.
  intros Hne Hf. unfold sleep. rewrite map_map. cbn [b_left].
  assert (Hle : forall l : list ComponentBuilder,
            (list_sum (map (fun b => Nat.pred (b_left b)) l) <= list_sum (map b_left l))%nat).
  { induction l as [|b l IH]; simpl; lia. }
  destruct bs as [|b bs]; [congruence|].
  inversion Hf as [|? ? Hb _]; subst. simpl.
  specialize (Hle bs). lia.
Qed.

Lemma StronglySorted_map_filter {A B} (R : B -> B -> Prop) (f : A -> B) (g : A -> bool) l :
  StronglySorted R (map f l) -> StronglySorted R (map f (filter g l)).
Proof.
  induction l as [|a l IH]; intros H; [constructor|].
  inversion H as [|? ? Hs Hf]; subst. cbn [filter].
  destruct (g a); [cbn [map]; constructor|]; auto.
  rewrite Forall_forall in *. intros y Hy. apply Hf.
  rewrite in_map_iff in *. destruct Hy as [x [<- Hx]]. exists x.
  rewrite filter_In in Hx. tauto.
Qed.

Lemma StronglySorted_map_seq {B} (R : B -> B -> Prop) (f : Z -> B) a n :
  (forall i j, 0 <= i < j -> R (f i) (f j)) ->
  StronglySorted R (map f (map Z.of_nat (seq a n))).
Proof.
  intros Hf. revert a; induction n as [|n IH]; intros a; [constructor|].
  cbn [seq map]. constructor; [apply IH|].
  rewrite Forall_forall. intros y Hy. rewrite map_map, in_map_iff in Hy.
  destruct Hy as [x [<- Hx]]. apply in_seq in Hx. apply Hf. lia.
Qed.

Lemma sec_sorted XW n : 0 < XW -> StronglySorted rm_lt (map (sec XW) (zrange n)).
Proof.
  intros HX. apply StronglySorted_map_seq. intros i j Hij. unfold rm_lt, sec. cbn [fst snd].
  pose proof (Z.div_mod i XW ltac:(lia)). pose proof (Z.div_mod j XW ltac:(lia)).
  pose proof (Z.mod_pos_bound i XW HX). pose proof (Z.mod_pos_bound j XW HX).
  assert (i / XW <= j / XW) by (apply Z.div_le_mono; lia).
  destruct (Z.eq_dec (i / XW) (j / XW)) as [E|E]; [right; split; [exact E|]|left]; nia.
Qed.

Lemma NoDup_zrange n : NoDup (zrange n).
Proof.
  unfold zrange. generalize O as a. induction (Z.to_nat n) as [|m IH]; intros a; [constructor|].
  cbn [seq map]. constructor; [|apply IH].
  intros Hin. rewrite in_map_iff in Hin. destruct Hin as [x [E Hx]].
  apply in_seq in Hx. lia.
Qed.

Lemma div_lt_iff XW YW a : 0 < XW -> 0 <= a -> (a / XW < YW <-> a < XW * YW).
Proof.
  intros HX Ha. split; intros H.
  - pose proof (Z.div_mod a XW ltac:(lia)). pose proof (Z.mod_pos_bound a XW HX). nia.
  - apply Z.div_lt_upper_bound; lia.
Qed.

Section SchedProof.
Variable cost : nat -> Z -> Z -> nat.
Variables XW YW : Z.
Variable nb : nat.
Variable m0 : list nat.
Hypothesis HXW : 1 <= XW.
Hypothesis HYW : 1 <= YW.
Hypothesis HN : XW * YW <= 65531.
Hypothesis Hm0 : XW * YW <= Z.of_nat (length m0).
Hypothesis Hnb : (1 <= nb <= 4)%nat.

Lemma delivered_step acc b rest X p k :
  NoDup (map (bidx XW) (acc ++ b :: rest)) ->
  (forall b', In b' (acc ++ b :: rest) -> bidx XW b' <= p) ->
  0 <= bidx XW b < XW * YW ->
  (X = [] /\ XW * YW <= p + 1 \/ map (bidx XW) X = [p + 1]) ->
  delivered XW YW (p + 1) (acc ++ X ++ rest) k =
  (delivered XW YW p (acc ++ b :: rest) k
   + (if Nat.eqb k (Z.to_nat (bidx XW b)) then 1 else 0))%nat.
Proof.
  intros Hnd Hle Hb HX. unfold delivered.
  assert (Hbp : bidx XW b <= p) by (apply Hle; apply in_or_app; right; left; reflexivity).
  rewrite map_app in Hnd. cbn [map] in Hnd.
  pose proof (NoDup_remove_2 _ _ _ Hnd) as Hni.
  rewrite !map_app, !existsb_app. cbn [map existsb].
  destruct (Nat.eqb_spec k (Z.to_nat (bidx XW b))) as [Ek|Ek].
  - subst k. rewrite Z2Nat.id by lia.
    assert (Ea : existsb (Z.eqb (bidx XW b)) (map (bidx XW) acc) = false).
    { destruct (existsb (Z.eqb (bidx XW b)) (map (bidx XW) acc)) eqn:E; [|reflexivity]. apply existsb_Zeqb in E.
      exfalso. apply Hni. apply in_or_app. left. exact E. }
    assert (Er : existsb (Z.eqb (bidx XW b)) (map (bidx XW) rest) = false).
    { destruct (existsb (Z.eqb (bidx XW b)) (map (bidx XW) rest)) eqn:E; [|reflexivity]. apply existsb_Zeqb in E.
      exfalso. apply Hni. apply in_or_app. right. exact E. }
    assert (Ex : existsb (Z.eqb (bidx XW b)) (map (bidx XW) X) = false).
    { destruct HX as [[-> _]|HXm]; [reflexivity|rewrite HXm]; cbn.
      destruct (Z.eqb_spec (bidx XW b) (p + 1)); [lia|reflexivity]. }
    rewrite Ea, Er, Ex, Z.eqb_refl. cbn [orb negb].
    destruct (Z.ltb_spec (bidx XW b) (XW * YW)); [|lia].
    destruct (Z.leb_spec (bidx XW b) p); [|lia].
    destruct (Z.leb_spec (bidx XW b) (p + 1)); [|lia]. reflexivity.
  - assert (Hk : Z.of_nat k <> bidx XW b) by lia.
    rewrite (proj2 (Z.eqb_neq _ _) Hk). cbn [orb].
    generalize (existsb (Z.eqb (Z.of_nat k)) (map (bidx XW) acc)) as ea.
    generalize (existsb (Z.eqb (Z.of_nat k)) (map (bidx XW) rest)) as er.
    intros er ea.
    destruct HX as [[-> HNp]|HXm]; [|rewrite HXm]; cbn [map existsb orb];
      destruct ea, er; cbn [orb negb andb];
      repeat match goal with
      | |- context [Z.ltb ?a ?b] => destruct (Z.ltb_spec a b)
      | |- context [Z.leb ?a ?b] => destruct (Z.leb_spec a b)
      | |- context [Z.eqb ?a ?b] => destruct (Z.eqb_spec a b)
      end; cbn [orb negb andb]; lia.
Qed.

Lemma inv_rebuild acc b rest s p w c :
  sched_inv XW YW nb m0 (acc ++ b :: rest) s p -> p + 1 < XW * YW ->
  sched_inv XW YW nb m0 (acc ++ mkBuilder w ((p + 1) mod XW) ((p + 1) / XW) c :: rest)
    (mkSched ((p + 1) mod XW) ((p + 1) / XW)
       (list_set (s_Meshes s) (Z.to_nat (bidx XW b))
                 (S (nth (Z.to_nat (bidx XW b)) (s_Meshes s) O)))
       (s_built s ++ [(w, sec XW (p + 1))])) (p + 1).
Proof.
  intros (Hp & Hsx & Hsy & Hbuilt & Hall & Hnd & Hlen & Hm & Hcount) Hlt.
  set (nw := mkBuilder w ((p + 1) mod XW) ((p + 1) / XW) c).
  assert (Hnw : bidx XW nw = p + 1) by (unfold bidx, nw; cbn; apply sec_bidx; lia).
  rewrite Forall_forall in Hall.
  assert (Hb : 0 <= b_x b < XW /\ 0 <= b_y b /\ bidx XW b < XW * YW /\ bidx XW b <= p)
    by (apply Hall; apply in_or_app; right; left; reflexivity).
  assert (Hb0 : 0 <= bidx XW b) by (unfold bidx; nia).
  unfold sched_inv; cbn [section_x section_y s_Meshes s_built].
  split; [lia|]. split; [reflexivity|]. split; [reflexivity|].
  split.
  { rewrite map_app, Hbuilt. rewrite !Z.min_l by lia.
    replace (p + 1 + 1) with (Z.of_nat (S (Z.to_nat (p + 1)))) by lia.
    rewrite zrange_succ, map_app, Z2Nat.id by lia. reflexivity. }
  split.
  { rewrite Forall_forall. intros b' Hb'. apply in_app_or in Hb'.
    destruct Hb' as [Hb'|[<-|Hb']].
    - assert (H := Hall b' ltac:(apply in_or_app; left; exact Hb')). lia.
    - rewrite Hnw. unfold nw; cbn [b_x b_y].
      pose proof (Z.mod_pos_bound (p + 1) XW ltac:(lia)).
      pose proof (Z.div_pos (p + 1) XW ltac:(lia) ltac:(lia)). lia.
    - assert (H := Hall b' ltac:(apply in_or_app; right; right; exact Hb')). lia. }
  split.
  { rewrite map_app in *. cbn [map] in *. rewrite Hnw.
    apply Permutation_NoDup with (l := (p + 1) :: map (bidx XW) acc ++ map (bidx XW) rest).
    - apply Permutation_middle.
    - constructor; [|exact (NoDup_remove_1 _ _ _ Hnd)].
      intros Hin. apply in_app_or in Hin. rewrite !in_map_iff in Hin.
      destruct Hin as [[b' [E Hb']]|[b' [E Hb']]].
      + assert (H := Hall b' ltac:(apply in_or_app; left; exact Hb')). lia.
      + assert (H := Hall b' ltac:(apply in_or_app; right; right; exact Hb')). lia. }
  split; [rewrite length_list_set; exact Hlen|].
  split.
  { intros k. change (acc ++ nw :: rest) with (acc ++ [nw] ++ rest).
    rewrite (delivered_step acc b rest [nw] p k); [| exact Hnd
      | intros b' Hb'; apply Hall; exact Hb' | lia | right; cbn; rewrite Hnw; reflexivity].
    destruct (Nat.eqb_spec k (Z.to_nat (bidx XW b))) as [->|Hk].
    - rewrite nth_list_set_eq by lia. rewrite Hm. lia.
    - rewrite nth_list_set_neq by exact Hk. rewrite Hm. lia. }
  rewrite length_app in *. cbn [length] in *.
  rewrite Z.max_l in * by lia. lia.
Qed.

Lemma inv_retire acc b rest s p :
  sched_inv XW YW nb m0 (acc ++ b :: rest) s p -> XW * YW <= p + 1 ->
  sched_inv XW YW nb m0 (acc ++ rest)
    (mkSched ((p + 1) mod XW) ((p + 1) / XW)
       (list_set (s_Meshes s) (Z.to_nat (bidx XW b))
                 (S (nth (Z.to_nat (bidx XW b)) (s_Meshes s) O)))
       (s_built s)) (p + 1).
Proof.
  intros (Hp & Hsx & Hsy & Hbuilt & Hall & Hnd & Hlen & Hm & Hcount) Hge.
  rewrite Forall_forall in Hall.
  assert (Hb : 0 <= b_x b < XW /\ 0 <= b_y b /\ bidx XW b < XW * YW /\ bidx XW b <= p)
    by (apply Hall; apply in_or_app; right; left; reflexivity).
  assert (Hb0 : 0 <= bidx XW b) by (unfold bidx; nia).
  unfold sched_inv; cbn [section_x section_y s_Meshes s_built].
  split; [lia|]. split; [reflexivity|]. split; [reflexivity|].
  split; [rewrite Hbuilt, !Z.min_r by lia; reflexivity|].
  split.
  { rewrite Forall_forall. intros b' Hb'. apply in_app_or in Hb'.
    destruct Hb' as [Hb'|Hb'].
    - assert (H := Hall b' ltac:(apply in_or_app; left; exact Hb')). lia.
    - assert (H := Hall b' ltac:(apply in_or_app; right; right; exact Hb')). lia. }
  split; [rewrite map_app in *; exact (NoDup_remove_1 _ _ _ Hnd)|].
  split; [rewrite length_list_set; exact Hlen|].
  split.
  { intros k. change (acc ++ rest) with (acc ++ [] ++ rest).
    rewrite (delivered_step acc b rest [] p k); [| exact Hnd
      | intros b' Hb'; apply Hall; exact Hb' | lia | left; split; [reflexivity|lia]].
    destruct (Nat.eqb_spec k (Z.to_nat (bidx XW b))) as [->|Hk].
    - rewrite nth_list_set_eq by lia. rewrite Hm. lia.
    - rewrite nth_list_set_neq by exact Hk. rewrite Hm. lia. }
  rewrite length_app in *. cbn [length] in *.
  rewrite !Z.max_r in * by lia. lia.
Qed.

Lemma sched_inv_sleep bs s p :
  sched_inv XW YW nb m0 bs s p -> sched_inv XW YW nb m0 (sleep bs) s p.
Proof.
  intros (Hp & Hsx & Hsy & Hbuilt & Hall & Hnd & Hlen & Hm & Hcount).
  unfold sched_inv, delivered in *. rewrite map_bidx_sleep.
  repeat (split; [assumption|]).
  split.
  { unfold sleep. rewrite Forall_map. eapply Forall_impl; [|exact Hall].
    intros b Hb. unfold bidx in *. cbn [b_x b_y]. exact Hb. }
  split; [assumption|]. split; [assumption|]. split; [assumption|].
  unfold sleep. rewrite length_map. exact Hcount.
Qed.

Lemma sched_inv_bound bs s p :
  sched_inv XW YW nb m0 bs s p -> bs <> [] -> p + 1 < XW * YW + Z.of_nat nb.
Proof.
  intros (_ & _ & _ & _ & _ & _ & _ & _ & Hcount) Hne.
  destruct bs; [congruence|]. cbn [length] in Hcount. lia.
Qed.

Lemma poll_ok rest : forall acc s p,
  sched_inv XW YW nb m0 (acc ++ rest) s p ->
  exists bs' s' p', poll cost XW YW rest acc s = Some (bs', s') /\
    sched_inv XW YW nb m0 bs' s' p' /\
    (p < p' \/ (bs' = acc ++ rest /\ s' = s /\ p' = p /\
                Forall (fun b => b_left b <> O) rest)).
Proof.
  induction rest as [|b rest IH]; intros acc s p Hinv.
  - exists acc, s, p. rewrite app_nil_r in Hinv. cbn [poll].
    split; [reflexivity|]. split; [exact Hinv|]. right. rewrite app_nil_r. auto.
  - cbn [poll]. unfold IsIdle. destruct (Nat.eqb_spec (b_left b) 0) as [H0|H0].
    + pose proof Hinv as (Hp & Hsx & Hsy & Hbuilt & Hall & Hnd & Hlen & Hm & Hcount).
      pose proof (sched_inv_bound _ _ _ Hinv ltac:(destruct acc; discriminate)) as Hpb.
      rewrite Forall_forall in Hall.
      assert (Hb : 0 <= b_x b < XW /\ 0 <= b_y b /\ bidx XW b < XW * YW /\ bidx XW b <= p)
        by (apply Hall; apply in_or_app; right; left; reflexivity).
      assert (Hb0 : 0 <= bidx XW b) by (unfold bidx; nia).
      unfold GetSection. change (b_y b * XW + b_x b) with (bidx XW b).
      rewrite wrap32_id by lia.
      unfold mesh_write. rewrite arr_get_ok by lia.
      rewrite (nth_error_nth' _ O) by lia.
      rewrite arr_set_ok by (rewrite length_list_set || idtac; lia).
      rewrite Hsx, Hsy.
      assert (Hq : p / XW <= p) by (apply Z.div_le_upper_bound; nia).
      rewrite advance_ok by nia.
      destruct (Z.ltb_spec ((p + 1) / XW) YW) as [Hy|Hy].
      * apply div_lt_iff in Hy; [|lia|lia].
        destruct (IH (acc ++ [Build cost (b_id b) ((p + 1) mod XW) ((p + 1) / XW)])
                     (mkSched ((p + 1) mod XW) ((p + 1) / XW)
                        (list_set (s_Meshes s) (Z.to_nat (bidx XW b))
                                  (S (nth (Z.to_nat (bidx XW b)) (s_Meshes s) O)))
                        (s_built s ++ [(b_id b, ((p + 1) mod XW, (p + 1) / XW))])) (p + 1))
          as (bs' & s' & p' & Hpoll & Hinv' & Hor).
        { rewrite <- app_assoc. cbn [app]. unfold Build. apply inv_rebuild; assumption. }
        exists bs', s', p'. split; [exact Hpoll|]. split; [exact Hinv'|]. left; lia.
      * assert (Hy' : XW * YW <= p + 1).
        { destruct (Z.lt_ge_cases (p + 1) (XW * YW)) as [Hc|Hc]; [|exact Hc].
          apply (div_lt_iff XW YW (p + 1)) in Hc; lia. }
        eexists _, _, (p + 1). split; [reflexivity|]. split; [|left; lia].
        apply inv_retire; assumption.
    + destruct (IH (acc ++ [b]) s p) as (bs' & s' & p' & Hpoll & Hinv' & Hor).
      { rewrite <- app_assoc. exact Hinv. }
      exists bs', s', p'. split; [exact Hpoll|]. split; [exact Hinv'|].
      destruct Hor as [Hlt|(-> & -> & -> & Hf)]; [left; exact Hlt|].
      right. rewrite <- app_assoc. repeat split; auto.
Qed.

Lemma sched_loop_ok a : forall c bs s p,
  sched_inv XW YW nb m0 bs s p ->
  (Z.to_nat (XW * YW + Z.of_nat nb - p) <= a)%nat ->
  (list_sum (map b_left bs) <= c)%nat ->
  exists fuel s' p', sched_loop cost XW YW fuel bs s = Some s' /\
    sched_inv XW YW nb m0 [] s' p'.
Proof.
  induction a as [|a IHa]; intros c; induction c as [|c IHc]; intros bs s p Hinv Ha Hc;
    (destruct bs as [|b0 bs0]; [exists 1%nat, s, p; split; [reflexivity|exact Hinv]|]);
    pose proof (sched_inv_bound _ _ _ Hinv ltac:(discriminate)) as Hpb;
    try (exfalso; lia);
    destruct (poll_ok (b0 :: bs0) [] s p Hinv) as (bs' & s' & p' & Hpoll & Hinv' & Hor);
    (destruct Hor as [Hlt|(-> & -> & -> & Hf)];
     [ destruct (IHa (list_sum (map b_left (sleep bs'))) (sleep bs') s' p'
                     (sched_inv_sleep _ _ _ Hinv') ltac:(lia) (le_n _))
         as (fuel & s'' & p'' & Hloop & Hfin)
     | pose proof (sum_sleep (b0 :: bs0) ltac:(discriminate) Hf) as Hsum ]).
  - exists (S fuel), s'', p''. cbn [sched_loop]. rewrite Hpoll. split; assumption.
  - exfalso. lia.
  - exists (S fuel), s'', p''. cbn [sched_loop]. rewrite Hpoll. split; assumption.
  - destruct (IHc (sleep (b0 :: bs0)) s p (sched_inv_sleep _ _ _ Hinv) Ha ltac:(lia))
      as (fuel & s'' & p'' & Hloop & Hfin).
    exists (S fuel), s'', p''. cbn [sched_loop]. rewrite Hpoll. split; assumption.
Qed.

Lemma sched_inv_done s p :
  sched_inv XW YW nb m0 [] s p ->
  map snd (s_built s) = map (sec XW) (zrange (XW * YW)) /\
  length (s_Meshes s) = length m0 /\
  (forall k, nth k (s_Meshes s) O =
             (nth k m0 O + (if (Z.of_nat k <? XW * YW)%Z then 1 else 0))%nat).
Proof.
  intros (Hp & Hsx & Hsy & Hbuilt & Hall & Hnd & Hlen & Hm & Hcount).
  cbn [length] in Hcount.
  split; [rewrite Hbuilt, Z.min_r by lia; reflexivity|].
  split; [exact Hlen|].
  intros k. rewrite Hm. unfold delivered. cbn [map existsb negb].
  destruct (Z.ltb_spec (Z.of_nat k) (XW * YW)); [|reflexivity].
  destruct (Z.leb_spec (Z.of_nat k) p); [reflexivity|lia].
Qed.
End SchedProof.

Lemma NumThreads_min XW YW :
  1 <= XW -> 1 <= YW -> XW * YW <= 65531 -> NumThreads XW YW = Z.min (XW * YW) 4.
Proof.
  intros HX HY HN. unfold NumThreads. rewrite wrap32_id by nia.
  destruct (Z.ltb_spec (XW * YW) 4); unfold u16; [rewrite Z.mod_small by nia|]; lia.
Qed.

Lemma start_ok cost XW YW m0 :
  1 <= XW -> 1 <= YW -> XW * YW <= 65531 ->
  let '(bs, s) := StartBuilders cost XW YW (mkSched 0 0 m0 []) in
  sched_inv XW YW (Z.to_nat (NumThreads XW YW)) m0 bs s (NumThreads XW YW - 1).
Proof.
  intros HX HY HN. rewrite (NumThreads_min XW YW HX HY HN).
  unfold StartBuilders. rewrite (NumThreads_min XW YW HX HY HN).
  match goal with |- context [fold_left ?F _ _] => set (step := F) end.
  assert (Hf : forall i, Z.of_nat i < XW * YW ->
    fold_left step (zrange (Z.of_nat (S i))) ([], mkSched 0 0 m0 []) =
    (map (fun j => Build cost (Z.to_nat j) (j mod XW) (j / XW)) (zrange (Z.of_nat (S i))),
     mkSched (Z.of_nat i mod XW) (Z.of_nat i / XW) m0
             (map (fun j => (Z.to_nat j, sec XW j)) (zrange (Z.of_nat (S i)))))).
  { induction i as [|i IH]; intros Hi.
    - reflexivity.
    - rewrite zrange_succ, fold_left_app, IH by lia. cbn [fold_left].
      unfold step. cbn beta iota.
      replace (0 <? Z.of_nat (S i)) with true by (symmetry; apply Z.ltb_lt; lia).
      assert (Hq : Z.of_nat i / XW <= Z.of_nat i) by (apply Z.div_le_upper_bound; nia).
      cbn [section_x section_y s_Meshes s_built]. rewrite advance_ok by nia.
      rewrite !map_app. cbn [map]. rewrite Nat2Z.inj_succ, <- Z.add_1_r. reflexivity. }
  set (T := Z.min (XW * YW) 4).
  assert (HT : 1 <= T <= 4 /\ T <= XW * YW) by (unfold T; nia).
  replace T with (Z.of_nat (S (Z.to_nat T - 1))) by lia.
  rewrite Hf by lia. rewrite Nat2Z.id.
  set (i := (Z.to_nat T - 1)%nat).
  replace (Z.of_nat (S i) - 1) with (Z.of_nat i) by lia.
  set (L := zrange (Z.of_nat (S i))).
  assert (HL : map (bidx XW) (map (fun j => Build cost (Z.to_nat j) (j mod XW) (j / XW)) L) = L).
  { rewrite map_map. rewrite <- (map_id L) at 2. apply map_ext_in.
    intros j Hj. apply in_zrange in Hj. unfold bidx, Build. cbn [b_x b_y].
    apply sec_bidx; lia. }
  unfold sched_inv. cbn [section_x section_y s_Meshes s_built].
  split; [lia|]. split; [reflexivity|]. split; [reflexivity|].
  split; [rewrite map_map, Z.min_l by lia; unfold L; rewrite Nat2Z.inj_succ, <- Z.add_1_r; reflexivity|].
  split.
  { rewrite Forall_map, Forall_forall. intros j Hj. apply in_zrange in Hj.
    unfold bidx, Build. cbn [b_x b_y]. rewrite sec_bidx by lia.
    pose proof (Z.mod_pos_bound j XW ltac:(lia)).
    pose proof (Z.div_pos j XW ltac:(lia) ltac:(lia)). lia. }
  split; [rewrite HL; apply NoDup_zrange|].
  split; [reflexivity|].
  split.
  { intros k. unfold delivered. rewrite HL.
    destruct (Z.leb_spec (Z.of_nat k) (Z.of_nat i)) as [Hk|Hk].
    - assert (Hin : existsb (Z.eqb (Z.of_nat k)) L = true).
      { apply existsb_Zeqb. unfold L, zrange. apply in_map. apply in_seq. lia. }
      rewrite Hin, Bool.andb_false_r. lia.
    - rewrite Bool.andb_false_r, Bool.andb_false_l. lia. }
  rewrite length_map. unfold L. rewrite length_zrange. lia.
Qed.

(** Modelled from the spec: the builders of the scheduler of
    [RebuildMesh].  C3 (counterexample).  With [256 * 256] sections, [uint16 component_count
    = XWidth * YWidth] wraps to [0] (and [1] with the border): the second
    finished section is delivered to [Meshes[1]], out of range, and the
    schedule fails however long it runs. *)
Lemma RebuildMesh_wide_fails :
  RebuildSchedule (fun _ _ _ => O) wide_terrain 1000 = None /\
  forall fuel, RebuildSchedule (fun _ _ _ => O) wide_terrain fuel = None.
Proof.
  split; [vm_compute; reflexivity|].
  intros [|fuel]; vm_compute; reflexivity.
Qed.

(** Modelled from the spec: the builders of the scheduler of
    [RebuildMesh], their timing left to [cost].  C3 (amended).  For a terrain of
    [1 <= XWidth], [1 <= YWidth] sections with [XWidth * YWidth <= 65531],
    whose mesh components are recreated ([DirtyMesh]) or already number at
    least [XWidth * YWidth], however long each build takes, the polling loop
    terminates; the sections built are exactly the row-major enumeration of
    all sections, each once; every section slot [k < XWidth * YWidth]
    receives exactly one mesh write and no other slot is written; and the
    sections each worker builds are in strictly increasing row-major
    order. *)
Theorem RebuildMesh_schedule_completes (cost : nat -> Z -> Z -> nat) (t : ATerrain) :
  1 <= XWidth t -> 1 <= YWidth t -> XWidth t * YWidth t <= 65531 ->
  (DirtyMesh t = true \/ XWidth t * YWidth t <= Z.of_nat (length (Meshes t))) ->
  exists fuel s, RebuildSchedule cost t fuel = Some s /\
    map snd (s_built s) = all_sections (XWidth t) (YWidth t) /\
    length (s_Meshes s) = length (PrepareMeshes t) /\
    (forall k, nth k (s_Meshes s) O =
               (nth k (PrepareMeshes t) O
                + (if (Z.of_nat k <? XWidth t * YWidth t)%Z then 1 else 0))%nat) /\
    (forall w, StronglySorted rm_lt
                 (map snd (filter (fun e => Nat.eqb (fst e) w) (s_built s)))).
Proof.
  intros HX HY HN Hm. unfold RebuildSchedule, Schedule.
  set (XW := XWidth t). set (YW := YWidth t). set (m0 := PrepareMeshes t).
  assert (Hm0 : XW * YW <= Z.of_nat (length m0)).
  { unfold m0, PrepareMeshes. destruct (DirtyMesh t) eqn:E.
    - rewrite repeat_length. unfold u16. fold XW YW.
      rewrite Z.mod_small by (destruct (Border t); nia).
      destruct (Border t); lia.
    - destruct Hm as [Hm|Hm]; [congruence|exact Hm]. }
  pose proof (start_ok cost XW YW m0 HX HY HN) as Hstart.
  destruct (StartBuilders cost XW YW (mkSched 0 0 m0 [])) as [bs s] eqn:Es.
  rewrite (NumThreads_min XW YW HX HY HN) in Hstart.
  destruct (sched_loop_ok cost XW YW (Z.to_nat (Z.min (XW * YW) 4)) m0 HX HY HN Hm0
              ltac:(lia) _ _ _ _ _ Hstart (le_n _) (le_n _))
    as (fuel & s' & p' & Hloop & Hfin).
  assert (Hdone : map snd (s_built s') = map (sec XW) (zrange (XW * YW)) /\
                  length (s_Meshes s') = length m0 /\
                  (forall k, nth k (s_Meshes s') O =
                             (nth k m0 O + (if (Z.of_nat k <? XW * YW)%Z then 1 else 0))%nat))
    by (eapply (sched_inv_done XW YW (Z.to_nat (Z.min (XW * YW) 4)) m0); (exact Hfin || lia)).
  destruct Hdone as (Hbuilt & Hlen & Hmesh).
  exists fuel, s'. split; [exact Hloop|].
  assert (Hg : all_sections XW YW = map (sec XW) (zrange (XW * YW))).
  { unfold all_sections. rewrite <- (Z2Nat.id YW) by lia.
    rewrite grid_spec by lia. reflexivity. }
  split; [rewrite Hg; exact Hbuilt|].
  split; [exact Hlen|]. split; [exact Hmesh|].
  intros w. apply StronglySorted_map_filter. rewrite Hbuilt. apply sec_sorted. lia.
Qed.

Lemma RebuildMesh_schedule_completes_witness :
  (1 <= XWidth update_terrain /\ 1 <= YWidth update_terrain /\
   XWidth update_terrain * YWidth update_terrain <= 65531 /\
   (DirtyMesh update_terrain = true \/
    XWidth update_terrain * YWidth update_terrain <= Z.of_nat (length (Meshes update_terrain)))) /\
  exists fuel s, RebuildSchedule (fun _ _ _ => 1%nat) update_terrain fuel = Some s /\
    map snd (s_built s) = all_sections (XWidth update_terrain) (YWidth update_terrain) /\
    length (s_Meshes s) = length (PrepareMeshes update_terrain) /\
    (forall k, nth k (s_Meshes s) O =
               (nth k (PrepareMeshes update_terrain) O
                + (if (Z.of_nat k <? XWidth update_terrain * YWidth update_terrain)%Z
                   then 1 else 0))%nat) /\
    (forall w, StronglySorted rm_lt
                 (map snd (filter (fun e => Nat.eqb (fst e) w) (s_built s)))).
Proof.
  assert (H1 : 1 <= XWidth update_terrain) by (cbn; lia).
  assert (H2 : 1 <= YWidth update_terrain) by (cbn; lia).
  assert (H3 : XWidth update_terrain * YWidth update_terrain <= 65531) by (cbn; lia).
  assert (H4 : DirtyMesh update_terrain = true \/
               XWidth update_terrain * YWidth update_terrain
               <= Z.of_nat (length (Meshes update_terrain))) by (right; cbn; lia).
  split; [repeat split; assumption|].
  exact (RebuildMesh_schedule_completes (fun _ _ _ => 1%nat) update_terrain H1 H2 H3 H4).
Defined.

(** ** Further properties *)

Lemma for_each_map {A A' B} (f : A -> A') (l : list A) (body : A' -> B -> option B) s :
  for_each (map f l) body s = for_each l (fun a => body (f a)) s.
Proof.
  revert s; induction l as [|a l IH]; intros s; simpl; [reflexivity|].
  destruct (body (f a) s); [apply IH|reflexivity].
Qed.

Lemma grid_from_shift ax bx ay by_ :
  grid_from ax bx ay by_ = map (fun '(x, y) => (ax + x, ay + y)) (grid (bx - ax) (by_ - ay)).
Proof.
  unfold grid_from, grid, zrange_from.
  induction (zrange (by_ - ay)) as [|y ys IH]; simpl; [reflexivity|].
  rewrite IH, map_app, !map_map. reflexivity.
Qed.

Lemma arr_set_length {A} (l l' : list A) i v : arr_set l i v = Some l' -> length l' = length l.
Proof.
  unfold arr_set. destruct (_ && _); intros H; [|discriminate].
  injection H as <-. apply length_list_set.
Qed.

Lemma in_zrange_iff n i : In i (zrange n) <-> 0 <= i < n.
Proof.
  unfold zrange. rewrite in_map_iff. split.
  - intros (j & <- & Hj). apply in_seq in Hj. lia.
  - intros H. exists (Z.to_nat i). split; [lia|]. apply in_seq. lia.
Qed.

Lemma in_grid_xy_iff nx ny x y : In (x, y) (grid_xy nx ny) <-> 0 <= x < nx /\ 0 <= y < ny.
Proof.
  unfold grid_xy. rewrite in_flat_map. split.
  - intros (x' & Hx & Hy). apply in_map_iff in Hy. destruct Hy as (y' & E & Hy).
    injection E as <- <-. rewrite in_zrange_iff in Hx, Hy. lia.
  - intros [Hx Hy]. exists x. split; [apply in_zrange_iff; lia|].
    apply in_map_iff. exists y. split; [reflexivity|apply in_zrange_iff; lia].
Qed.

(** X1: On a well-formed map, UMapGenerator::Flat succeeds, keeps the map dimensions and maximum height, and sets every height of the map data to zero. *)
Theorem Flat_zeroes m :
  wf_map m ->
  exists m', Flat m = Some m' /\ WidthX m' = WidthX m /\ WidthY m' = WidthY m /\
    MaxHeight m' = MaxHeight m /\ MapData m' = repeat 0%R (length (MapData m)).
Proof.
  intros Hwf. pose proof Hwf as (HX & HY & Hsz & Hlen).
  unfold Flat.
  set (P := fun (pre : list (Z * Z)) (m' : UHeightMap) =>
    WidthX m' = WidthX m /\ WidthY m' = WidthY m /\ MaxHeight m' = MaxHeight m /\
    length (MapData m') = length (MapData m) /\
    forall i j, In (i, j) pre -> nth (Z.to_nat (j * WidthX m + i)) (MapData m') 1%R = 0%R).
  destruct (for_each_inv P (fun '(i, j) m => SetHeight m i j 0%R) (grid_xy (WidthX m) (WidthY m)))
    with (s := m) as (m' & E & HP).
  - intros pre [i j] post s Hfull (H1 & H2 & H3 & H4 & H5).
    assert (Hij : In (i, j) (grid_xy (WidthX m) (WidthY m))).
    { rewrite Hfull. apply in_or_app. right. left. reflexivity. }
    apply in_grid_xy_iff in Hij.
    unfold SetHeight, MapIndex. rewrite wrap32_id by nia.
    rewrite H1, arr_set_ok by (rewrite H4, Hlen; nia).
    eexists; split; [reflexivity|]. unfold P. cbn [WidthX WidthY MaxHeight MapData].
    split; [reflexivity|]. split; [exact H2|]. split; [exact H3|].
    split; [rewrite length_list_set; exact H4|].
    intros i' j' Hin. apply in_app_or in Hin. destruct Hin as [Hin|[Hin|[]]].
    + destruct (Z.eq_dec (j' * WidthX m + i') (j * WidthX m + i)) as [Heq|Hne].
      * rewrite Heq. apply nth_list_set_eq. rewrite H4, Hlen. nia.
      * assert (Hin' : In (i', j') (grid_xy (WidthX m) (WidthY m))).
        { rewrite Hfull. apply in_or_app. left. exact Hin. }
        apply in_grid_xy_iff in Hin'.
        rewrite nth_list_set_neq by nia. apply H5. exact Hin.
    + injection Hin as <- <-. apply nth_list_set_eq. rewrite H4, Hlen. nia.
  - unfold P. repeat split. intros i j [].
  - exists m'. rewrite E. destruct HP as (H1 & H2 & H3 & H4 & H5).
    split; [reflexivity|]. split; [exact H1|]. split; [exact H2|]. split; [exact H3|].
    apply nth_ext with (d := 1%R) (d' := 1%R).
    + rewrite repeat_length. exact H4.
    + intros k Hk. rewrite nth_repeat_lt by (rewrite <- H4; exact Hk).
      rewrite H4, Hlen in Hk.
      assert (HW : 0 < WidthX m) by nia.
      pose proof (Z.div_mod (Z.of_nat k) (WidthX m) ltac:(lia)).
      pose proof (Z.mod_pos_bound (Z.of_nat k) (WidthX m) HW).
      assert (0 <= Z.of_nat k / WidthX m) by (apply Z.div_pos; lia).
      assert (Z.of_nat k / WidthX m < WidthY m) by (apply Z.div_lt_upper_bound; lia).
      replace k with (Z.to_nat (Z.of_nat k / WidthX m * WidthX m + Z.of_nat k mod WidthX m)) by lia.
      apply H5. apply in_grid_xy_iff. lia.
Qed.

Lemma in_grid_iff nx ny x y : In (x, y) (grid nx ny) <-> 0 <= x < nx /\ 0 <= y < ny.
Proof.
  unfold grid. rewrite in_flat_map. split.
  - intros (y' & Hy & Hx). apply in_map_iff in Hx. destruct Hx as (x' & E & Hx).
    injection E as <- <-. rewrite in_zrange_iff in Hx, Hy. lia.
  - intros [Hx Hy]. exists y. split; [apply in_zrange_iff; lia|].
    apply in_map_iff. exists x. split; [reflexivity|apply in_zrange_iff; lia].
Qed.

Lemma SetNum_ok {A} (l : list A) n d :
  0 <= n -> exists l', SetNum l n d = Some l' /\ length l' = Z.to_nat n /\
    forall k, (k < Z.to_nat n)%nat -> nth_error l' k = nth_error (l ++ repeat d (Z.to_nat n)) k.
Proof.
  intros Hn. unfold SetNum. destruct (Z.ltb_spec n 0); [lia|].
  destruct (Z.ltb_spec (Z.of_nat (length l)) n).
  - eexists; split; [reflexivity|]. rewrite length_app, repeat_length. split; [lia|].
    intros k Hk. destruct (Nat.ltb_spec k (length l)).
    + rewrite !nth_error_app1 by lia. reflexivity.
    + rewrite !nth_error_app2 by lia. rewrite !nth_error_repeat by lia. reflexivity.
  - eexists; split; [reflexivity|]. rewrite length_firstn. split; [lia|].
    intros k Hk. rewrite nth_error_firstn. destruct (Nat.ltb_spec k (Z.to_nat n)); [|lia].
    rewrite nth_error_app1 by lia. reflexivity.
Qed.

Lemma Resize_run m X Y Z :
  0 < X -> 0 < Y -> 0 < Z -> X * Y < 2 ^ 31 ->
  exists m', Resize m X Y Z = Some m' /\ wf_map m' /\
    WidthX m' = X /\ WidthY m' = Y /\ MaxHeight m' = Z /\
    forall k, (k < Z.to_nat (X * Y))%nat -> nth k (MapData m') 0%R = nth k (MapData m) 0%R.
Proof.
  intros HX HY HZ Hs. unfold Resize.
  destruct (Z.leb_spec X 0); [lia|]. destruct (Z.leb_spec Y 0); [lia|].
  destruct (Z.leb_spec Z 0); [lia|]. simpl.
  unfold SetNumZeroed. rewrite wrap32_id by nia.
  destruct (Z.ltb_spec (X * Y) 0); [lia|].
  destruct (Z.ltb_spec (Z.of_nat (length (MapData m))) (X * Y)).
  - eexists; split; [reflexivity|]. cbn [WidthX WidthY MaxHeight MapData].
    split; [unfold wf_map; simpl; rewrite length_app, repeat_length; repeat split; lia|].
    repeat split. intros k Hk. destruct (Nat.ltb_spec k (length (MapData m))).
    + apply app_nth1. lia.
    + rewrite app_nth2 by lia. rewrite nth_repeat_lt by lia. rewrite nth_overflow by lia. reflexivity.
  - eexists; split; [reflexivity|]. cbn [WidthX WidthY MaxHeight MapData].
    split; [unfold wf_map; simpl; rewrite length_firstn; repeat split; lia|].
    repeat split. intros k Hk. rewrite nth_firstn. destruct (Nat.ltb_spec k (Z.to_nat (X * Y))); [reflexivity|lia].
Qed.

(** The normal/tangent loop, for maps whose tangent writes stay in range. *)
Lemma row_major_bound a b x y : 0 <= x < a -> 0 <= y < b -> 0 <= y * a + x < a * b.
Proof. intros Hx Hy. nia. Qed.

Lemma CalculateNormalsAndTangents_run m dn dt Normals Tangents :
  wf_map m -> 3 <= WidthX m -> 3 <= WidthY m ->
  (forall x y, 0 <= x < WidthX m - 2 -> 0 <= y < WidthY m - 2 ->
     y * (WidthY m - 2) + x < (WidthX m - 2) * (WidthY m - 2)) ->
  exists ns ts ts0,
    SetNum Tangents ((WidthX m - 2) * (WidthY m - 2)) dt = Some ts0 /\
    CalculateNormalsAndTangents m dn dt Normals Tangents = Some (ns, ts) /\
    ns = map (fun '(x, y) => fst (MapNormalTangent m (1 + x) (1 + y)))
             (grid (WidthX m - 2) (WidthY m - 2)) /\
    length ts = Z.to_nat ((WidthX m - 2) * (WidthY m - 2)) /\
    forall k,
      (nth_error ts k = nth_error ts0 k /\
       forall x y, In (x, y) (grid (WidthX m - 2) (WidthY m - 2)) ->
         Z.to_nat (y * (WidthY m - 2) + x) <> k) \/
      (exists x y, In (x, y) (grid (WidthX m - 2) (WidthY m - 2)) /\
         k = Z.to_nat (y * (WidthY m - 2) + x) /\
         nth_error ts k = Some (let v := snd (MapNormalTangent m (1 + x) (1 + y)) in
                                ProcMeshTangent (VX v) (VY v) (VZ v))).
Proof.
  intros Hwf H3x H3y Htan. pose proof Hwf as (HX & HY & Hsz & Hlen).
  set (a := WidthX m - 2) in *. set (b := WidthY m - 2) in *.
  assert (HWX : WidthX m < 2 ^ 31) by nia.
  assert (HWY : WidthY m < 2 ^ 31) by nia.
  assert (Hab31 : a * b < 2 ^ 31) by nia.
  destruct (SetNum_ok Normals (a * b) dn ltac:(nia)) as (ns0 & En & Ln & _).
  destruct (SetNum_ok Tangents (a * b) dt ltac:(nia)) as (ts0 & Et & Lt & _).

  unfold CalculateNormalsAndTangents.
  rewrite (wrap32_id (WidthX m - 2)), (wrap32_id (WidthY m - 2)) by lia. fold a b.
  rewrite wrap32_id by nia. rewrite En, Et.
  rewrite (wrap32_id (WidthX m - 1)), (wrap32_id (WidthY m - 1)) by lia.
  rewrite grid_from_shift, for_each_map.
  replace (WidthX m - 1 - 1) with a by (unfold a; lia).
  replace (WidthY m - 1 - 1) with b by (unfold b; lia).
  set (fN := fun '(x, y) => fst (MapNormalTangent m (1 + x) (1 + y))).
  set (fT := fun '(x, y) => let v := snd (MapNormalTangent m (1 + x) (1 + y)) in
                              ProcMeshTangent (VX v) (VY v) (VZ v)).
  set (P := fun (pre : list (Z * Z)) (s : list FVector * list FProcMeshTangent) =>
    fst s = map fN pre ++ skipn (length pre) ns0 /\
    length (snd s) = Z.to_nat (a * b) /\
    forall k,
      (nth_error (snd s) k = nth_error ts0 k /\
       forall x y, In (x, y) pre -> Z.to_nat (y * b + x) <> k) \/
      (exists x y, In (x, y) pre /\ k = Z.to_nat (y * b + x) /\ nth_error (snd s) k = Some (fT (x, y)))).
  lazymatch goal with |- context [for_each (grid a b) ?body (ns0, ts0)] =>
    destruct (for_each_inv P body (grid a b)) with (s := (ns0, ts0)) as ([ns ts] & E & HP) end.
  - intros pre [x y] post [ns1 ts1] Hfull (HN & HL & HT). cbn [fst snd] in HN, HL, HT.
    destruct (grid_position a b pre x y post ltac:(lia) ltac:(lia) Hfull) as (Hj & Hx & Hy).
    cbn beta iota zeta.
    pose proof (row_major_bound a b x y Hx Hy) as Hab.
    pose proof (Htan x y Hx Hy) as Hti.
    rewrite (wrap32_id (1 + x - 1)), (wrap32_id (1 + x + 1)), (wrap32_id (1 + y - 1)),
      (wrap32_id (1 + y + 1)) by lia.
    rewrite !GetHeight_in_range by (assumption || lia).
    assert (Hlt : (length pre < length ns0)%nat) by (rewrite Ln; lia).
    destruct (skipn_cons_nth ns0 (length pre) Hlt) as [hn Es].
    replace ((1 + y - 1) * a + (1 + x - 1)) with (y * a + x) by ring.
    replace ((1 + y - 1) * b + (1 + x - 1)) with (y * b + x) by ring.
    assert (Hyb : 0 <= y * b) by (apply Z.mul_nonneg_nonneg; lia).
    rewrite (wrap32_id (y * a + x)) by lia.
    rewrite (wrap32_id (y * b + x)) by lia.
    rewrite HN, Es, arr_set_at by (rewrite length_map; lia).
    rewrite arr_set_ok by (rewrite HL; lia).
    eexists; split; [reflexivity|]. unfold P; cbn [fst snd].
    split.
    { rewrite map_app, length_app. cbn [map length]. rewrite <- !app_assoc.
      replace (length pre + 1)%nat with (S (length pre)) by lia. reflexivity. }
    split; [rewrite length_list_set; exact HL|].
    intros k. destruct (Nat.eq_dec k (Z.to_nat (y * b + x))) as [->|Hk].
    + right. exists x, y. split; [apply in_or_app; right; left; reflexivity|].
      split; [reflexivity|]. rewrite nth_error_list_set_eq by (rewrite HL; lia). reflexivity.
    + rewrite nth_error_list_set_neq by exact Hk.
      destruct (HT k) as [[Hk1 Hk2]|(x' & y' & Hin & Hk' & Hv)].
      * left. split; [exact Hk1|]. intros x' y' Hin. apply in_app_or in Hin.
        destruct Hin as [Hin|[Hin|[]]]; [apply Hk2; exact Hin|].
        injection Hin as <- <-. intros Heq. apply Hk. symmetry. exact Heq.
      * right. exists x', y'. split; [apply in_or_app; left; exact Hin|]. split; assumption.
  - unfold P; cbn [fst snd]. split; [reflexivity|]. split; [rewrite Lt; reflexivity|].
    intros k. left. split; [reflexivity|]. intros x y [].
  - destruct HP as (HN & HL & HT). cbn [fst snd] in HN, HL, HT.
    exists ns, ts, ts0. split; [reflexivity|]. split; [exact E|].
    split.
    { rewrite HN, skipn_all2, app_nil_r; [reflexivity|].
      pose proof (length_grid a b ltac:(lia) ltac:(lia)). lia. }
    split; [exact HL|]. exact HT.
Qed.

Lemma row_major_inj a x y x' y' :
  0 <= x < a -> 0 <= x' < a -> 0 <= y -> 0 <= y' -> y * a + x = y' * a + x' -> x = x' /\ y = y'.
Proof.
  intros Hx Hx' Hy Hy' E.
  assert (Ey : y = y').
  { assert (y < y' \/ y = y' \/ y' < y) as [H|[H|H]] by lia; [nia|exact H|nia]. }
  subst y'. split; lia.
Qed.

Lemma arr_set_out {A} (l : list A) i v : Z.of_nat (length l) <= i -> arr_set l i v = None.
Proof.
  intros H. unfold arr_set. destruct (Z.ltb_spec i (Z.of_nat (length l))); [lia|].
  rewrite Bool.andb_false_r. reflexivity.
Qed.

Lemma grid_row_start a b k : 0 < a -> 0 <= k < b ->
  exists pre post, grid a b = pre ++ (0, k) :: post.
Proof.
  intros Ha Hk.
  assert (Hz : forall n, 0 < n -> exists r, zrange n = 0 :: r).
  { intros n Hn. unfold zrange. destruct (Z.to_nat n) eqn:E; [lia|]. cbn. eexists; reflexivity. }
  unfold grid.
  replace b with (Z.of_nat (Z.to_nat k + Z.to_nat (b - k))) by lia.
  rewrite zrange_add, flat_map_app.
  destruct (Hz (Z.of_nat (Z.to_nat (b - k)))) as [r Hr]; [lia|]. rewrite Hr.
  destruct (Hz a Ha) as [r' Hr']. rewrite Hr'. cbn [map flat_map].
  replace (Z.of_nat (Z.to_nat k) + 0) with k by lia.
  eexists _, _. reflexivity.
Qed.

Lemma grid_last a b : 0 < a -> 0 < b -> exists pre, grid a b = pre ++ [(a - 1, b - 1)].
Proof.
  intros Ha Hb. unfold grid.
  replace b with (Z.of_nat (S (Z.to_nat (b - 1)))) by lia.
  rewrite (zrange_succ (Z.to_nat (b - 1))), flat_map_app. cbn [flat_map]. rewrite app_nil_r.
  replace a with (Z.of_nat (S (Z.to_nat (a - 1)))) by lia.
  rewrite zrange_succ, map_app. cbn [map].
  eexists. rewrite app_assoc. f_equal. f_equal. f_equal; lia.
Qed.

(** X3: On a square well-formed map at least 3 wide, CalculateNormalsAndTangents resizes both arrays to (WidthX - 2) * (WidthY - 2) and stores, at index (y - 1) * (WidthX - 2) + (x - 1), the normal and tangent computed from the four neighbours of interior point (x, y). *)
Theorem CalculateNormalsAndTangents_square m dn dt Normals Tangents :
  wf_map m -> WidthX m = WidthY m -> 3 <= WidthX m ->
  exists ns ts, CalculateNormalsAndTangents m dn dt Normals Tangents = Some (ns, ts) /\
    length ns = Z.to_nat ((WidthX m - 2) * (WidthY m - 2)) /\
    length ts = Z.to_nat ((WidthX m - 2) * (WidthY m - 2)) /\
    forall x y, 1 <= x <= WidthX m - 2 -> 1 <= y <= WidthY m - 2 ->
      nth_error ns (Z.to_nat ((y - 1) * (WidthX m - 2) + (x - 1))) =
        Some (fst (MapNormalTangent m x y)) /\
      nth_error ts (Z.to_nat ((y - 1) * (WidthX m - 2) + (x - 1))) =
        Some (let v := snd (MapNormalTangent m x y) in ProcMeshTangent (VX v) (VY v) (VZ v)).
Proof.
  intros Hwf Hsq H3.
  destruct (CalculateNormalsAndTangents_run m dn dt Normals Tangents Hwf H3 ltac:(lia))
    as (ns & ts & ts0 & _ & E & HN & HL & HT).
  { intros x y Hx Hy. rewrite <- Hsq. nia. }
  exists ns, ts. split; [exact E|].
  rewrite <- Hsq in *.
  split; [rewrite HN, length_map; pose proof (length_grid (WidthX m - 2) (WidthX m - 2)
                                               ltac:(lia) ltac:(lia)); lia|].
  split; [exact HL|].
  intros x y Hx Hy. split.
  - rewrite HN, nth_error_map, grid_nth by lia. try unfold option_map; cbv beta iota.
    replace (1 + (x - 1)) with x by ring. replace (1 + (y - 1)) with y by ring. reflexivity.
  - destruct (HT (Z.to_nat ((y - 1) * (WidthX m - 2) + (x - 1))))
      as [[_ Hno]|(x' & y' & Hin & Hk & Hv)].
    + exfalso. apply (Hno (x - 1) (y - 1)); [apply in_grid_iff; lia|reflexivity].
    + apply in_grid_iff in Hin.
      assert (Heq : (y - 1) * (WidthX m - 2) + (x - 1) = y' * (WidthX m - 2) + x')
        by (apply Z2Nat.inj; [nia|nia|exact Hk]).
      destruct (row_major_inj (WidthX m - 2) (x - 1) (y - 1) x' y') as [<- <-]; try lia.
      rewrite Hv. try unfold option_map; cbv beta iota.
      replace (1 + (x - 1)) with x by ring. replace (1 + (y - 1)) with y by ring. reflexivity.
Qed.

(** X4: On a well-formed map wider than it is tall (height at least 4), every normal lands at its row-major index, but tangents are indexed with width_y instead of width_x, so the last tangent slot is never written and keeps the value SetNum gave it. *)
Theorem CalculateNormalsAndTangents_wide m dn dt Normals Tangents :
  wf_map m -> 4 <= WidthY m < WidthX m ->
  exists ns ts, CalculateNormalsAndTangents m dn dt Normals Tangents = Some (ns, ts) /\
    (forall x y, 1 <= x <= WidthX m - 2 -> 1 <= y <= WidthY m - 2 ->
       nth_error ns (Z.to_nat ((y - 1) * (WidthX m - 2) + (x - 1))) =
         Some (fst (MapNormalTangent m x y))) /\
    nth_error ts (Z.to_nat ((WidthX m - 2) * (WidthY m - 2) - 1)) =
      nth_error (Tangents ++ repeat dt (Z.to_nat ((WidthX m - 2) * (WidthY m - 2))))
                (Z.to_nat ((WidthX m - 2) * (WidthY m - 2) - 1)).
Proof.
  intros Hwf Hw.
  assert (Hfar : forall x y, 0 <= x < WidthX m - 2 -> 0 <= y < WidthY m - 2 ->
            y * (WidthY m - 2) + x < (WidthX m - 2) * (WidthY m - 2) - 1).
  { intros x y Hx Hy.
    assert (y * (WidthY m - 2) <= (WidthY m - 3) * (WidthY m - 2)) by nia.
    assert (1 <= (WidthX m - WidthY m) * (WidthY m - 3)) by nia. nia. }
  destruct (CalculateNormalsAndTangents_run m dn dt Normals Tangents Hwf ltac:(lia) ltac:(lia))
    as (ns & ts & ts0 & Et & E & HN & HL & HT).
  { intros x y Hx Hy. specialize (Hfar x y Hx Hy). lia. }
  exists ns, ts. split; [exact E|]. split.
  - intros x y Hx Hy.
    rewrite HN, nth_error_map, grid_nth by lia. try unfold option_map; cbv beta iota.
    replace (1 + (x - 1)) with x by ring. replace (1 + (y - 1)) with y by ring. reflexivity.
  - destruct (SetNum_ok Tangents ((WidthX m - 2) * (WidthY m - 2)) dt ltac:(nia))
      as (ts1 & Et1 & _ & Hts1).
    rewrite Et in Et1. injection Et1 as <-.
    destruct (HT (Z.to_nat ((WidthX m - 2) * (WidthY m - 2) - 1)))
      as [[Hv _]|(x' & y' & Hin & Hk & _)].
    + rewrite Hv. apply Hts1. nia.
    + exfalso. apply in_grid_iff in Hin. specialize (Hfar x' y' ltac:(lia) ltac:(lia)).
      apply Z2Nat.inj in Hk; [lia|nia|nia].
Qed.

(** X5: On a well-formed map taller than it is wide (width at least 3), the tangent index (y - 1) * width_y + (x - 1) reaches the end of the tangent array at the first point of row y = WidthX - 1, so CalculateNormalsAndTangents fails with an out-of-range write. *)
Theorem CalculateNormalsAndTangents_tall_fails m dn dt Normals Tangents :
  wf_map m -> 3 <= WidthX m < WidthY m ->
  CalculateNormalsAndTangents m dn dt Normals Tangents = None.
Proof.
  intros Hwf Hw. pose proof Hwf as (HX & HY & Hsz & Hlen).
  assert (HWX : WidthX m < 2 ^ 31) by nia.
  assert (HWY : WidthY m < 2 ^ 31) by nia.
  set (a := WidthX m - 2) in *. set (b := WidthY m - 2) in *.
  destruct (SetNum_ok Normals (a * b) dn ltac:(nia)) as (ns0 & En & Ln & _).
  destruct (SetNum_ok Tangents (a * b) dt ltac:(nia)) as (ts0 & Et & Lt & _).
  unfold CalculateNormalsAndTangents.
  rewrite (wrap32_id (WidthX m - 2)), (wrap32_id (WidthY m - 2)) by lia. fold a b.
  rewrite wrap32_id by nia. rewrite En, Et.
  rewrite (wrap32_id (WidthX m - 1)), (wrap32_id (WidthY m - 1)) by lia.
  rewrite grid_from_shift, for_each_map.
  replace (WidthX m - 1 - 1) with a by (unfold a; lia).
  replace (WidthY m - 1 - 1) with b by (unfold b; lia).
  destruct (grid_row_start a b a ltac:(lia) ltac:(lia)) as (pre & post & ->).
  rewrite for_each_app.
  lazymatch goal with |- context [for_each pre ?body (ns0, ts0)] =>
    destruct (for_each pre body (ns0, ts0)) as [[ns ts]|] eqn:Epre; [|reflexivity];
    assert (Hts : length (snd (ns, ts)) = length (snd (ns0, ts0)));
    [apply (for_each_preserve (fun s => length (snd s)) body pre _ _); [|exact Epre]|] end.
  { intros [x y] [ns1 ts1] s' Hb. cbn beta iota zeta in Hb.
    destruct (GetHeight m _ _); [|discriminate]. destruct (GetHeight m _ _); [|discriminate].
    destruct (GetHeight m _ _); [|discriminate]. destruct (GetHeight m _ _); [|discriminate].
    destruct (arr_set ns1 _ _); [|discriminate].
    destruct (arr_set ts1 _ _) eqn:Ea; [|discriminate].
    injection Hb as <-. cbn [snd]. apply (arr_set_length _ _ _ _ Ea). }
  cbn [snd] in Hts. rewrite Lt in Hts.
  cbn [for_each]. cbv beta iota zeta.
  destruct (GetHeight m _ _); [|reflexivity]. destruct (GetHeight m _ _); [|reflexivity].
  destruct (GetHeight m _ _); [|reflexivity]. destruct (GetHeight m _ _); [|reflexivity].
  rewrite (arr_set_out ts) by (rewrite wrap32_id by nia; rewrite Hts; nia).
  destruct (arr_set ns _ _); reflexivity.
Qed.

Lemma for_each_inv_pre {A B} (P : list A -> B -> Prop) (body : A -> B -> option B) l s s' :
  (forall pre a post s1 s2, l = pre ++ a :: post -> P pre s1 -> body a s1 = Some s2 ->
     P (pre ++ [a]) s2) ->
  P [] s -> for_each l body s = Some s' -> P l s'.
Proof.
  intros Hstep.
  assert (G : forall suf pre s, l = pre ++ suf -> P pre s -> for_each suf body s = Some s' -> P l s').
  { induction suf as [|a suf IH]; intros pre s1 Hl Hp Hf; simpl in Hf.
    - injection Hf as <-. rewrite app_nil_r in Hl. subst. exact Hp.
    - destruct (body a s1) as [s2|] eqn:Eb; [|discriminate].
      apply (IH (pre ++ [a]) s2); [rewrite <- app_assoc; exact Hl| |exact Hf].
      exact (Hstep pre a suf s1 s2 Hl Hp Eb). }
  intros Hp Hf. exact (G l [] s eq_refl Hp Hf).
Qed.

Lemma NoDup_map_pair {A B} (x : A) (ys : list B) : NoDup ys -> NoDup (map (fun y => (x, y)) ys).
Proof.
  induction 1 as [|y ys Hy Hnd IH]; simpl; constructor; [|exact IH].
  intros Hin. apply in_map_iff in Hin. destruct Hin as (y' & E & Hin). injection E as ->. contradiction.
Qed.

Lemma NoDup_grid_xy nx ny : NoDup (grid_xy nx ny).
Proof.
  unfold grid_xy. pose proof (NoDup_zrange nx) as Hx. pose proof (NoDup_zrange ny) as Hy.
  induction Hx as [|x xs Hx Hnd IH]; simpl; [constructor|].
  apply NoDup_app; [apply NoDup_map_pair; exact Hy|exact IH|].
  intros [x1 y1] H1 H2. apply in_map_iff in H1. destruct H1 as (y' & E & _). injection E as <- <-.
  apply in_flat_map in H2. destruct H2 as (x' & Hx' & H2). apply in_map_iff in H2.
  destruct H2 as (y'' & E & _). injection E as <- <-. contradiction.
Qed.

Lemma nth_arr_set {A} (l l' : list A) i v k d :
  arr_set l i v = Some l' -> nth k l' d = if Nat.eqb k (Z.to_nat i) then v else nth k l d.
Proof.
  unfold arr_set. destruct ((0 <=? i) && (i <? Z.of_nat (length l)))%bool eqn:E; [|discriminate].
  intros H; injection H as <-. apply andb_prop in E. destruct E as [E1 E2]. apply Z.leb_le in E1. apply Z.ltb_lt in E2.
  destruct (Nat.eqb_spec k (Z.to_nat i)) as [->|Hne].
  - apply nth_list_set_eq. lia.
  - apply nth_list_set_neq. exact Hne.
Qed.

Lemma arr_get_nth {A} (l : list A) i v d : arr_get l i = Some v -> v = nth (Z.to_nat i) l d.
Proof.
  unfold arr_get. destruct (0 <=? i); [|discriminate]. intros H. symmetry. apply nth_error_nth. exact H.
Qed.

(** The run of [Update]'s loops. *)
Lemma Update_run t t' evs :
  0 <= XWidth t -> 0 <= YWidth t -> XWidth t * YWidth t < 2 ^ 31 ->
  Update t = Some (t', evs) ->
  gen_sections evs =
    filter (fun '(x, y) => nth (Z.to_nat (y * XWidth t + x)) (UpdateMesh t) false)
           (grid_xy (XWidth t) (YWidth t)) /\
  length (UpdateMesh t') = length (UpdateMesh t) /\
  forall k, nth k (UpdateMesh t') false =
    (if Z.of_nat k <? XWidth t * YWidth t then false else nth k (UpdateMesh t) false).
Proof.
  intros HX HY Hs. unfold Update. intros H.
  destruct (for_each _ _ _) as [s|] eqn:E; [|discriminate].
  injection H as <- <-. cbn [UpdateMesh].
  set (XW := XWidth t) in *. set (YW := YWidth t) in *.
  set (um0 := UpdateMesh t).
  set (idx := fun (c : Z * Z) => let '(x, y) := c in Z.to_nat (y * XW + x)).
  set (P := fun (pre : list (Z * Z)) (s : UpdateState) =>
    gen_sections (us_events s) = filter (fun '(x, y) => nth (Z.to_nat (y * XW + x)) um0 false) pre /\
    length (us_UpdateMesh s) = length um0 /\
    forall k, nth k (us_UpdateMesh s) false =
      (negb (existsb (fun c => Nat.eqb (idx c) k) pre) && nth k um0 false)%bool).
  assert (HP : P (grid_xy XW YW) s).
  { refine (for_each_inv_pre P (UpdateStep t) (grid_xy XW YW) _ s _ _ E);
    [|split; [reflexivity|split; [reflexivity|reflexivity]]].
    intros pre [x y] post s1 s2 Hfull (He & Hl & Hn) Hb.
    assert (Hin : In (x, y) (grid_xy XW YW)) by (rewrite Hfull; apply in_or_app; right; left; reflexivity).
    apply in_grid_xy in Hin. destruct Hin as [Hx Hy].
    assert (Hnot : ~ In (x, y) pre).
    { pose proof (NoDup_grid_xy XW YW) as Hnd. rewrite Hfull in Hnd.
      apply NoDup_remove_2 in Hnd. intros Hp. apply Hnd. apply in_or_app. left. exact Hp. }
    assert (Hfresh : existsb (fun c => Nat.eqb (idx c) (Z.to_nat (y * XW + x))) pre = false).
    { apply Bool.not_true_iff_false. intros Hex. apply existsb_exists in Hex.
      destruct Hex as ([x' y'] & Hp & Heq). apply Nat.eqb_eq in Heq. cbn in Heq.
      assert (Hp' : In (x', y') (grid_xy XW YW)) by (rewrite Hfull; apply in_or_app; left; exact Hp).
      apply in_grid_xy in Hp'.
      destruct (row_major_inj XW x' y' x y) as [<- <-]; try lia.
      contradiction. }
    unfold UpdateStep in Hb. fold XW in Hb. rewrite wrap32_id in Hb by nia.
    destruct (arr_get (us_UpdateMesh s1) (y * XW + x)) as [flag|] eqn:Eg; [|discriminate].
    apply (arr_get_nth _ _ _ false) in Eg. rewrite Hn, Hfresh in Eg. cbn [negb andb] in Eg.
    unfold P; cbv beta. rewrite filter_app. cbn [filter].
    destruct flag.
    - destruct (GenerateMeshSection _ _ _ _ _); [|discriminate].
      destruct (mesh_write _ _); [|discriminate].
      destruct (update_border s1 && is_edge t x y)%bool.
      + destruct (GenerateBorderSection _ _ _); [|discriminate].
        destruct (mesh_write_last _); [|discriminate].
        destruct (arr_set _ _ _) as [um|] eqn:Es; [|discriminate].
        injection Hb as <-. cbn [us_events us_UpdateMesh] in *.
        rewrite <- Eg. split.
        { unfold gen_sections in *. rewrite !flat_map_app, He. cbn. rewrite <- ?app_assoc. reflexivity. }
        split; [rewrite (arr_set_length _ _ _ _ Es); exact Hl|].
        intros k. rewrite existsb_app. cbn [existsb]. rewrite (nth_arr_set _ _ _ _ _ _ Es), Hn.
        destruct (Nat.eqb_spec k (Z.to_nat (y * XW + x))) as [->|Hk].
        * rewrite Hfresh, <- Eg. cbn. rewrite Nat.eqb_refl. reflexivity.
        * cbn [idx]. destruct (Nat.eqb_spec (Z.to_nat (y * XW + x)) k); [congruence|].
          rewrite Bool.orb_false_r. reflexivity.
      + destruct (arr_set _ _ _) as [um|] eqn:Es; [|discriminate].
        injection Hb as <-. cbn [us_events us_UpdateMesh] in *.
        rewrite <- Eg. split.
        { unfold gen_sections in *. rewrite !flat_map_app, He. cbn. rewrite <- ?app_assoc. reflexivity. }
        split; [rewrite (arr_set_length _ _ _ _ Es); exact Hl|].
        intros k. rewrite existsb_app. cbn [existsb]. rewrite (nth_arr_set _ _ _ _ _ _ Es), Hn.
        destruct (Nat.eqb_spec k (Z.to_nat (y * XW + x))) as [->|Hk].
        * rewrite Hfresh, <- Eg. cbn. rewrite Nat.eqb_refl. reflexivity.
        * cbn [idx]. destruct (Nat.eqb_spec (Z.to_nat (y * XW + x)) k); [congruence|].
          rewrite Bool.orb_false_r. reflexivity.
    - injection Hb as <-. rewrite <- Eg. split; [rewrite app_nil_r; exact He|].
      split; [exact Hl|].
      intros k. rewrite existsb_app. cbn [existsb]. rewrite Hn. cbn [idx].
      destruct (Nat.eqb_spec (Z.to_nat (y * XW + x)) k) as [<-|Hk].
      + rewrite Hfresh, <- Eg. reflexivity.
      + rewrite Bool.orb_false_r. reflexivity. }
  destruct HP as (He & Hl & Hn). split; [exact He|]. split; [exact Hl|].
  intros k. rewrite Hn.
  destruct (Z.ltb_spec (Z.of_nat k) (XW * YW)) as [Hk|Hk].
  - replace (existsb _ _) with true; [reflexivity|]. symmetry. apply existsb_exists.
    assert (HXW : 0 < XW) by nia.
    exists (Z.of_nat k mod XW, Z.of_nat k / XW). split.
    + apply in_grid_xy_iff. split; [apply Z.mod_pos_bound; lia|].
      split; [apply Z.div_pos; lia|]. apply Z.div_lt_upper_bound; lia.
    + apply Nat.eqb_eq. cbn [idx]. rewrite Z.mul_comm, <- Z.div_mod by lia. lia.
  - replace (existsb _ _) with false; [reflexivity|]. symmetry.
    apply Bool.not_true_iff_false. intros Hex. apply existsb_exists in Hex.
    destruct Hex as ([x y] & Hin & Heq). apply Nat.eqb_eq in Heq. cbn [idx] in Heq.
    apply in_grid_xy in Hin. nia.
Qed.


(** X6: When Update succeeds, the sections it regenerates are exactly those whose UpdateMesh flag was set, in x-outer, y-inner order; afterwards every flag of the XWidth * YWidth grid is cleared and the rest of the array is unchanged. *)
Theorem Update_regenerates_flagged t t' evs :
  0 <= XWidth t -> 0 <= YWidth t -> XWidth t * YWidth t < 2 ^ 31 ->
  Update t = Some (t', evs) ->
  gen_sections evs =
    filter (fun '(x, y) => nth (Z.to_nat (y * XWidth t + x)) (UpdateMesh t) false)
           (grid_xy (XWidth t) (YWidth t)) /\
  length (UpdateMesh t') = length (UpdateMesh t) /\
  forall k, nth k (UpdateMesh t') false =
    (if Z.of_nat k <? XWidth t * YWidth t then false else nth k (UpdateMesh t) false).
Proof. exact (Update_run t t' evs). Qed.


Lemma in_zrange_from a b v : In v (zrange_from a b) <-> a <= v < b.
Proof.
  unfold zrange_from. rewrite in_map_iff. split.
  - intros (i & <- & Hi). apply in_zrange_iff in Hi. lia.
  - intros H. exists (v - a). split; [lia|]. apply in_zrange_iff. lia.
Qed.

Lemma in_grid_xy_from ax bx ay by_ x y :
  In (x, y) (grid_xy_from ax bx ay by_) <-> ax <= x < bx /\ ay <= y < by_.
Proof.
  unfold grid_xy_from. rewrite in_flat_map. split.
  - intros (x' & Hx & Hy). apply in_map_iff in Hy. destruct Hy as (y' & E & Hy).
    injection E as <- <-. rewrite in_zrange_from in Hx, Hy. lia.
  - intros [Hx Hy]. exists x. split; [apply in_zrange_from; lia|].
    apply in_map_iff. exists y. split; [reflexivity|apply in_zrange_from; lia].
Qed.

(** The marking loop of [UpdateSection]/[UpdateRange] over any list of sections. *)
Lemma mark_loop (XW : Z) (l : list (Z * Z)) (um0 : list bool) :
  (forall x y, In (x, y) l -> 0 <= x < XW /\ 0 <= y /\ y * XW + x < Z.of_nat (length um0) /\
                              y * XW + x < 2 ^ 31) ->
  exists um, for_each l (fun '(x, y) um => arr_set um (wrap32 (y * XW + x)) true) um0 = Some um /\
    length um = length um0 /\
    forall k, nth k um false =
      (nth k um0 false || existsb (fun '(x, y) => Nat.eqb (Z.to_nat (y * XW + x)) k) l)%bool.
Proof.
  revert um0. induction l as [|[x y] l IH]; intros um0 Hl.
  - exists um0. split; [reflexivity|]. split; [reflexivity|]. intros k. cbn. symmetry. apply Bool.orb_false_r.
  - destruct (Hl x y (or_introl eq_refl)) as (Hx & Hy & Hi & Hw).
    cbn [for_each]. rewrite wrap32_id by nia. rewrite arr_set_ok by nia.
    destruct (IH (list_set um0 (Z.to_nat (y * XW + x)) true)) as (um & E & Hlen & Hn).
    { intros x' y' Hin. rewrite length_list_set. apply Hl. right. exact Hin. }
    exists um. split; [exact E|]. split; [rewrite Hlen, length_list_set; reflexivity|].
    intros k. rewrite Hn. cbn [existsb].
    destruct (Nat.eqb_spec (Z.to_nat (y * XW + x)) k) as [<-|Hk].
    + rewrite nth_list_set_eq by nia. rewrite Bool.orb_true_r. reflexivity.
    + rewrite nth_list_set_neq by congruence. reflexivity.
Qed.

Lemma div_le_iff q p x : 0 < p -> (q / p <= x <-> q < p * (x + 1)).
Proof.
  intros Hp. split; intros H.
  - pose proof (Z.div_mod q p ltac:(lia)). pose proof (Z.mod_pos_bound q p Hp). nia.
  - assert (q / p < x + 1) by (apply Z.div_lt_upper_bound; lia). lia.
Qed.

Lemma le_div_iff q p x : 0 < p -> (x <= q / p <-> p * x <= q).
Proof.
  intros Hp. split; intros H.
  - pose proof (Z.mul_div_le q p Hp). nia.
  - apply Z.div_le_lower_bound; lia.
Qed.

Lemma clamp_min v : (if v <? 1 then 1 else v) = Z.max v 1.
Proof. destruct (Z.ltb_spec v 1); lia. Qed.

Lemma clamp_max v w : (if w <? v then w else v) = Z.min v w.
Proof. destruct (Z.ltb_spec w v); lia. Qed.

Lemma quot_bounds a p : 0 < p -> Z.min a 0 <= Z.quot a p <= Z.max a 0.
Proof.
  intros Hp. destruct (Z.le_gt_cases 0 a) as [Ha|Ha].
  - rewrite Z.quot_div_nonneg by lia.
    assert (0 <= a / p) by (apply Z.div_pos; lia).
    assert (a / p <= a) by (apply Z.div_le_upper_bound; nia). lia.
  - replace a with (- (- a)) by lia. rewrite Z.quot_opp_l by lia.
    rewrite Z.quot_div_nonneg by lia.
    assert (0 <= - a / p) by (apply Z.div_pos; lia).
    assert (- a / p <= - a) by (apply Z.div_le_upper_bound; nia). lia.
Qed.

Lemma quot_below_width a p w : 0 < p -> 1 <= w -> a <= p * w - 1 -> Z.quot a p < w.
Proof.
  intros Hp Hw Ha. destruct (Z.le_gt_cases 0 a) as [H0|H0].
  - rewrite Z.quot_div_nonneg by lia.
    apply Z.div_lt_upper_bound; lia.
  - pose proof (quot_bounds a p Hp). lia.
Qed.

(** The run of [UpdateRange]: it marks the sections [(x, y)] of the
    quotient rectangle. *)
Lemma UpdateRange_run t R :
  2 <= ComponentSize t < 2 ^ 31 -> 1 <= XWidth t -> 1 <= YWidth t ->
  WidthX (Map t) = (ComponentSize t - 1) * XWidth t + 3 -> WidthX (Map t) < 2 ^ 31 ->
  WidthY (Map t) = (ComponentSize t - 1) * YWidth t + 3 -> WidthY (Map t) < 2 ^ 31 ->
  XWidth t * YWidth t <= Z.of_nat (length (UpdateMesh t)) -> XWidth t * YWidth t < 2 ^ 31 ->
  IX (Min R) < 2 ^ 31 -> IY (Min R) < 2 ^ 31 -> - 2 ^ 31 < IX (Max R) -> - 2 ^ 31 < IY (Max R) ->
  exists um,
    UpdateRange t R = Some (mkTerrain (Map t) (ComponentSize t) (XWidth t) (YWidth t) (Tiling t)
                              (Border t) (WorkerThreads t) (DirtyMesh t) (Meshes t) um
                              (ComponentBuffer t)) /\
    length um = length (UpdateMesh t) /\
    (forall x y, 0 <= x < XWidth t -> 0 <= y < YWidth t ->
       nth (Z.to_nat (y * XWidth t + x)) um false =
       (nth (Z.to_nat (y * XWidth t + x)) (UpdateMesh t) false ||
        (Z.quot (Z.max (IX (Min R)) 1 - 1) (ComponentSize t - 1) <=? x) &&
        (x <=? Z.quot (Z.min (IX (Max R)) ((ComponentSize t - 1) * XWidth t) - 1) (ComponentSize t - 1)) &&
        (Z.quot (Z.max (IY (Min R)) 1 - 1) (ComponentSize t - 1) <=? y) &&
        (y <=? Z.quot (Z.min (IY (Max R)) ((ComponentSize t - 1) * YWidth t) - 1) (ComponentSize t - 1)))%bool) /\
    (forall k, XWidth t * YWidth t <= Z.of_nat k -> nth k um false = nth k (UpdateMesh t) false).
Proof.
  intros Hc HX HY HWX HWX' HWY HWY' Hlen Hs Hmx Hmy HMx HMy.
  set (p := ComponentSize t - 1) in *. set (XW := XWidth t) in *. set (YW := YWidth t) in *.
  set (ax := Z.max (IX (Min R)) 1) in *. set (bx := Z.min (IX (Max R)) (p * XW)) in *.
  set (ay := Z.max (IY (Min R)) 1) in *. set (by_ := Z.min (IY (Max R)) (p * YW)) in *.
  set (cx0 := Z.quot (ax - 1) p). set (cx1 := Z.quot (bx - 1) p).
  set (cy0 := Z.quot (ay - 1) p). set (cy1 := Z.quot (by_ - 1) p).
  assert (Hp : 0 < p) by lia.
  assert (Hax : 1 <= ax < 2 ^ 31) by (unfold ax; lia).
  assert (Hay : 1 <= ay < 2 ^ 31) by (unfold ay; lia).
  assert (Hbx : - 2 ^ 31 < bx <= p * XW) by (unfold bx; lia).
  assert (Hby : - 2 ^ 31 < by_ <= p * YW) by (unfold by_; lia).
  assert (HpX : p * XW < 2 ^ 31) by lia. assert (HpY : p * YW < 2 ^ 31) by lia.
  assert (Hcx0 : 0 <= cx0 <= ax - 1) by (pose proof (quot_bounds (ax - 1) p Hp); lia).
  assert (Hcy0 : 0 <= cy0 <= ay - 1) by (pose proof (quot_bounds (ay - 1) p Hp); lia).
  assert (Hcx1 : Z.min (bx - 1) 0 <= cx1 <= Z.max (bx - 1) 0) by (apply quot_bounds; exact Hp).
  assert (Hcy1 : Z.min (by_ - 1) 0 <= cy1 <= Z.max (by_ - 1) 0) by (apply quot_bounds; exact Hp).
  assert (Hcx1' : cx1 < XW) by (apply quot_below_width; lia).
  assert (Hcy1' : cy1 < YW) by (apply quot_below_width; lia).
  assert (Hrun : UpdateRange t R =
    match for_each (grid_xy_from cx0 (cx1 + 1) cy0 (cy1 + 1))
            (fun '(x, y) um => arr_set um (wrap32 (y * XW + x)) true) (UpdateMesh t) with
    | Some um => Some (mkTerrain (Map t) (ComponentSize t) XW YW (Tiling t) (Border t)
                   (WorkerThreads t) (DirtyMesh t) (Meshes t) um (ComponentBuffer t))
    | None => None
    end).
  { unfold UpdateRange. cbv zeta. fold p XW YW.
    rewrite HWX, HWY, (wrap32_id p) by lia.
    replace (p * XW + 3 - 3) with (p * XW) by lia. replace (p * YW + 3 - 3) with (p * YW) by lia.
    rewrite (wrap32_id (p * XW)), (wrap32_id (p * YW)) by lia.
    rewrite !clamp_min, !clamp_max. fold ax bx ay by_.
    rewrite (wrap32_id (ax - 1)), (wrap32_id (ay - 1)), (wrap32_id (bx - 1)), (wrap32_id (by_ - 1)) by lia.
    replace (p =? 0) with false by (symmetry; apply Z.eqb_neq; lia).
    fold cx0 cx1 cy0 cy1.
    rewrite (wrap32_id cx0), (wrap32_id cx1), (wrap32_id cy0), (wrap32_id cy1) by lia.
    reflexivity. }
  clearbody cx0 cx1 cy0 cy1.
  assert (Hcx : 0 <= cx0 /\ cx1 < XW) by lia. assert (Hcy : 0 <= cy0 /\ cy1 < YW) by lia.
  clear Hcx0 Hcy0 Hcx1 Hcy1 Hcx1' Hcy1'.
  destruct (mark_loop XW (grid_xy_from cx0 (cx1 + 1) cy0 (cy1 + 1)) (UpdateMesh t))
    as (um & E & Hl & Hn).
  { intros x y Hin. apply in_grid_xy_from in Hin.
    assert (y * XW + x < XW * YW) by nia. lia. }
  exists um. rewrite Hrun, E. split; [reflexivity|split; [exact Hl|split]].
  - intros x y Hx Hy. rewrite Hn. f_equal.
    destruct (existsb _ _) eqn:Ex.
    + apply existsb_exists in Ex. destruct Ex as ([x' y'] & Hin & Heq).
      apply Nat.eqb_eq in Heq. apply in_grid_xy_from in Hin.
      apply Z2Nat.inj in Heq; [|nia|nia].
      destruct (row_major_inj XW x' y' x y) as [-> ->]; try lia.
    + symmetry. apply Bool.not_true_iff_false. intros Hh.
      repeat rewrite Bool.andb_true_iff in Hh. rewrite !Z.leb_le in Hh.
      apply Bool.not_true_iff_false in Ex. apply Ex. apply existsb_exists.
      exists (x, y). split; [|apply Nat.eqb_refl].
      apply in_grid_xy_from. lia.
  - intros k Hk. rewrite Hn. replace (existsb _ _) with false; [apply Bool.orb_false_r|].
    symmetry. apply Bool.not_true_iff_false. intros Ex.
    apply existsb_exists in Ex. destruct Ex as ([x' y'] & Hin & Heq).
    apply Nat.eqb_eq in Heq. apply in_grid_xy_from in Hin.
    assert (y' * XW + x' < XW * YW) by nia. lia.
Qed.

Lemma UpdateRange_hits t R :
  2 <= ComponentSize t < 2 ^ 31 -> 1 <= XWidth t -> 1 <= YWidth t ->
  WidthX (Map t) = (ComponentSize t - 1) * XWidth t + 3 -> WidthX (Map t) < 2 ^ 31 ->
  WidthY (Map t) = (ComponentSize t - 1) * YWidth t + 3 -> WidthY (Map t) < 2 ^ 31 ->
  XWidth t * YWidth t <= Z.of_nat (length (UpdateMesh t)) -> XWidth t * YWidth t < 2 ^ 31 ->
  Z.max (IX (Min R)) 1 <= Z.min (IX (Max R)) ((ComponentSize t - 1) * XWidth t) ->
  Z.max (IY (Min R)) 1 <= Z.min (IY (Max R)) ((ComponentSize t - 1) * YWidth t) ->
  exists um,
    UpdateRange t R = Some (mkTerrain (Map t) (ComponentSize t) (XWidth t) (YWidth t) (Tiling t)
                              (Border t) (WorkerThreads t) (DirtyMesh t) (Meshes t) um
                              (ComponentBuffer t)) /\
    length um = length (UpdateMesh t) /\
    (forall x y, 0 <= x < XWidth t -> 0 <= y < YWidth t ->
       nth (Z.to_nat (y * XWidth t + x)) um false =
       (nth (Z.to_nat (y * XWidth t + x)) (UpdateMesh t) false ||
        range_hits (Z.max (IX (Min R)) 1) (Z.min (IX (Max R)) ((ComponentSize t - 1) * XWidth t))
                   (ComponentSize t - 1) x &&
        range_hits (Z.max (IY (Min R)) 1) (Z.min (IY (Max R)) ((ComponentSize t - 1) * YWidth t))
                   (ComponentSize t - 1) y)%bool) /\
    (forall k, XWidth t * YWidth t <= Z.of_nat k -> nth k um false = nth k (UpdateMesh t) false).
Proof.
  intros Hc HX HY HWX HWX' HWY HWY' Hlen Hs Hrx Hry.
  destruct (UpdateRange_run t R) as (um & E & Hl & Hn & Hk); try assumption; try lia.
  exists um. split; [exact E|]. split; [exact Hl|]. split; [|exact Hk].
  intros x y Hx Hy. rewrite Hn by assumption. f_equal.
  set (p := ComponentSize t - 1) in *.
  assert (Hp : 0 < p) by lia.
  rewrite !Z.quot_div_nonneg by lia. unfold range_hits.
  apply Bool.eq_iff_eq_true. repeat rewrite Bool.andb_true_iff. rewrite !Z.leb_le.
  rewrite !div_le_iff, !le_div_iff by exact Hp. lia.
Qed.

(** X8: On a terrain whose map matches its sections and a range whose clamped bounds are non-empty (x clamped to [1, p * XWidth], y to [1, p * YWidth], p = ComponentSize - 1), UpdateRange succeeds, changes only UpdateMesh, and sets the flag of each section (X, Y) whose map columns X * p + 1 .. X * p + p and rows Y * p + 1 .. Y * p + p overlap the clamped range; other flags and the entries past the grid keep their values. *)
Theorem UpdateRange_marks t R :
  2 <= ComponentSize t < 2 ^ 31 -> 1 <= XWidth t -> 1 <= YWidth t ->
  WidthX (Map t) = (ComponentSize t - 1) * XWidth t + 3 -> WidthX (Map t) < 2 ^ 31 ->
  WidthY (Map t) = (ComponentSize t - 1) * YWidth t + 3 -> WidthY (Map t) < 2 ^ 31 ->
  XWidth t * YWidth t <= Z.of_nat (length (UpdateMesh t)) -> XWidth t * YWidth t < 2 ^ 31 ->
  Z.max (IX (Min R)) 1 <= Z.min (IX (Max R)) ((ComponentSize t - 1) * XWidth t) ->
  Z.max (IY (Min R)) 1 <= Z.min (IY (Max R)) ((ComponentSize t - 1) * YWidth t) ->
  exists um,
    UpdateRange t R = Some (mkTerrain (Map t) (ComponentSize t) (XWidth t) (YWidth t) (Tiling t)
                              (Border t) (WorkerThreads t) (DirtyMesh t) (Meshes t) um
                              (ComponentBuffer t)) /\
    length um = length (UpdateMesh t) /\
    (forall x y, 0 <= x < XWidth t -> 0 <= y < YWidth t ->
       nth (Z.to_nat (y * XWidth t + x)) um false =
       (nth (Z.to_nat (y * XWidth t + x)) (UpdateMesh t) false ||
        range_hits (Z.max (IX (Min R)) 1) (Z.min (IX (Max R)) ((ComponentSize t - 1) * XWidth t))
                   (ComponentSize t - 1) x &&
        range_hits (Z.max (IY (Min R)) 1) (Z.min (IY (Max R)) ((ComponentSize t - 1) * YWidth t))
                   (ComponentSize t - 1) y)%bool) /\
    (forall k, XWidth t * YWidth t <= Z.of_nat k -> nth k um false = nth k (UpdateMesh t) false).
Proof. exact (UpdateRange_hits t R). Qed.

(** X9: On a terrain whose map matches its sections, when the range's minimum x is at most ComponentSize - 1 and its maximum x lies between 3 - ComponentSize and 0 (left of the first interior column, so the clamped x range is empty) and the clamped y range is non-empty, UpdateRange still marks the sections of column 0 in every row whose map rows the clamped y range hits, because its divisions truncate toward zero. *)
Theorem UpdateRange_truncates_toward_zero t R :
  2 <= ComponentSize t < 2 ^ 31 -> 1 <= XWidth t -> 1 <= YWidth t ->
  WidthX (Map t) = (ComponentSize t - 1) * XWidth t + 3 -> WidthX (Map t) < 2 ^ 31 ->
  WidthY (Map t) = (ComponentSize t - 1) * YWidth t + 3 -> WidthY (Map t) < 2 ^ 31 ->
  XWidth t * YWidth t <= Z.of_nat (length (UpdateMesh t)) -> XWidth t * YWidth t < 2 ^ 31 ->
  IX (Min R) <= ComponentSize t - 1 -> 3 - ComponentSize t <= IX (Max R) <= 0 ->
  Z.max (IY (Min R)) 1 <= Z.min (IY (Max R)) ((ComponentSize t - 1) * YWidth t) ->
  exists t', UpdateRange t R = Some t' /\
    forall y, 0 <= y < YWidth t ->
      range_hits (Z.max (IY (Min R)) 1) (Z.min (IY (Max R)) ((ComponentSize t - 1) * YWidth t))
                 (ComponentSize t - 1) y = true ->
      nth (Z.to_nat (y * XWidth t)) (UpdateMesh t') false = true.
Proof.
  intros Hc HX HY HWX HWX' HWY HWY' Hlen Hs Hmx HMx Hry.
  destruct (UpdateRange_run t R) as (um & E & Hl & Hn & Hk); try assumption; try lia.
  eexists; split; [exact E|]. intros y Hy Hh. cbn [UpdateMesh].
  replace (y * XWidth t) with (y * XWidth t + 0) by lia. rewrite Hn by lia.
  set (p := ComponentSize t - 1) in *. assert (Hp : 0 < p) by lia.
  unfold range_hits in Hh. repeat rewrite Bool.andb_true_iff in Hh. rewrite !Z.leb_le in Hh.
  replace (Z.quot (Z.max (IX (Min R)) 1 - 1) p) with 0.
  2:{ rewrite Z.quot_div_nonneg by lia. symmetry. apply Z.div_small. lia. }
  replace (Z.quot (Z.min (IX (Max R)) (p * XWidth t) - 1) p) with 0.
  2:{ replace (Z.min (IX (Max R)) (p * XWidth t) - 1) with (- (1 - IX (Max R))) by nia.
      rewrite Z.quot_opp_l by lia. rewrite Z.quot_div_nonneg by lia. rewrite Z.div_small by lia.
      reflexivity. }
  rewrite !Z.quot_div_nonneg by lia.
  replace ((Z.max (IY (Min R)) 1 - 1) / p <=? y) with true.
  2:{ symmetry. apply Z.leb_le. apply div_le_iff; lia. }
  replace (y <=? (Z.min (IY (Max R)) (p * YWidth t) - 1) / p) with true.
  2:{ symmetry. apply Z.leb_le. apply le_div_iff; lia. }
  apply Bool.orb_true_r.
Qed.

Section MaterialsFacts.
Context {M : Type}.

Lemma set_prefix_loop (v : M) (n : nat) (l : list M) :
  (n <= length l)%nat ->
  for_each (zrange (Z.of_nat n)) (fun i l => arr_set l i v) l = Some (repeat v n ++ skipn n l).
Proof.
  induction n as [|n IH]; intros Hn; [reflexivity|].
  rewrite zrange_succ, for_each_app, IH by lia. cbn [for_each].
  destruct (skipn_cons_nth l n ltac:(lia)) as [h Eh]. rewrite Eh.
  rewrite arr_set_at by (rewrite repeat_length; reflexivity).
  assert (Hr : repeat v (S n) = repeat v n ++ [v]) by (clear; induction n as [|n IHn]; [reflexivity|]; cbn in *; rewrite IHn; reflexivity).
  rewrite Hr, <- app_assoc. reflexivity.
Qed.

(** X10: With a border, ApplyMaterials fails on an empty mesh list and otherwise gives every mesh the terrain material except the last, which gets the border material; without a border every mesh gets the terrain material. *)
Theorem ApplyMaterials_assigns (Border : bool) (tm bm : M) (mats : list M) :
  Z.of_nat (length mats) < 2 ^ 31 ->
  ApplyMaterials Border tm bm mats =
    if Border then
      match mats with
      | [] => None
      | _ :: _ => Some (repeat tm (length mats - 1) ++ [bm])
      end
    else Some (repeat tm (length mats)).
Proof.
  intros Hl. unfold ApplyMaterials. destruct Border.
  - destruct mats as [|m ms] eqn:Em; [reflexivity|].
    rewrite <- Em in *.
    destruct (exists_last (l := mats) ltac:(subst; discriminate)) as (pre & last & Ep).
    assert (Hpre : length mats = S (length pre)) by (rewrite Ep, length_app; cbn; lia).
    rewrite Hpre. replace (Z.of_nat (S (length pre)) - 1) with (Z.of_nat (length pre)) by lia.
    rewrite Zmod_small by lia. rewrite Ep.
    rewrite arr_set_at by reflexivity. rewrite app_nil_r.
    rewrite set_prefix_loop by (rewrite length_app; lia).
    rewrite skipn_app, skipn_all, Nat.sub_diag. cbn. rewrite Nat.sub_0_r. reflexivity.
  - rewrite set_prefix_loop by lia. rewrite skipn_all, app_nil_r. reflexivity.
Qed.
End MaterialsFacts.

Lemma cell_bounds n X Y x y WX WY :
  2 <= n -> 0 <= X -> 0 <= Y -> X * (n - 1) + n + 2 <= WX -> Y * (n - 1) + n + 2 <= WY ->
  0 <= WX -> 0 <= WY -> WX * WY < 2 ^ 31 -> 0 <= x < n -> 0 <= y < n ->
  0 <= y * n + x < n * n /\ n * n < 2 ^ 31 /\ 0 <= X * (n - 1) /\ 0 <= Y * (n - 1) /\
  WX < 2 ^ 31 /\ WY < 2 ^ 31 /\ 0 <= y * n.
Proof.
  intros Hn HX HY HWX HWY H1 H2 H3 Hx Hy.
  assert (0 <= X * (n - 1)) by (apply Z.mul_nonneg_nonneg; lia).
  assert (0 <= Y * (n - 1)) by (apply Z.mul_nonneg_nonneg; lia).
  assert (n * n <= WX * WY) by (apply Z.mul_le_mono_nonneg; lia).
  assert (WX * 1 <= WX * WY) by (apply Z.mul_le_mono_nonneg_l; lia).
  assert (1 * WY <= WX * WY) by (apply Z.mul_le_mono_nonneg_r; lia).
  assert (0 <= y * n) by (apply Z.mul_nonneg_nonneg; lia).
  assert (y * n <= (n - 1) * n) by (apply Z.mul_le_mono_nonneg_r; lia).
  repeat split; lia.
Qed.

Ltac wrap32_lia :=
  repeat match goal with |- context [wrap32 ?e] => rewrite (wrap32_id e) by lia end.

Lemma GenerateMeshSection_vertex_run t X Y d cre d' :
  section_fits t X Y -> sized (ComponentSize t) d ->
  GenerateMeshSection t X Y d cre = Some d' ->
  Vertices d' = map (mesh_vertex t X Y) (grid (ComponentSize t) (ComponentSize t)) /\
  UV0 d' = map (mesh_uv t X Y) (grid (ComponentSize t) (ComponentSize t)).
Proof.
  intros Hfit Hsz HG.
  destruct Hfit as (Hn & Hwf & HX & HY & HWX & HWY).
  set (n := ComponentSize t) in *.
  assert (HWX' : WidthX (Map t) < 2 ^ 31).
  { destruct Hwf as (? & ? & ? & ?). nia. }
  assert (HWY' : WidthY (Map t) < 2 ^ 31).
  { destruct Hwf as (? & ? & ? & ?). nia. }
  unfold GenerateMeshSection in HG. fold n in HG.
  set (fV := mesh_vertex t X Y) in *. set (fU := mesh_uv t X Y) in *.
  lazymatch type of HG with context [for_each (grid n n) ?body d] =>
    let P := constr:(fun (pre : list (Z * Z)) s => sized n s /\
                Vertices s = map fV pre ++ skipn (length pre) (Vertices d) /\
                UV0 s = map fU pre ++ skipn (length pre) (UV0 d)) in
    assert (L1 : exists s', for_each (grid n n) body d = Some s' /\ P (grid n n) s');
    [apply (for_each_inv P body (grid n n))|] end.
  { intros pre [x y] post s Hfull (Hs & HV & HU).
    destruct (grid_position n n pre x y post ltac:(lia) ltac:(lia) Hfull) as (Hj & Hx & Hy).
    pose proof Hwf as Hwf0. destruct Hwf0 as (Hw1 & Hw2 & Hw3 & _).
    destruct (cell_bounds n X Y x y (WidthX (Map t)) (WidthY (Map t)) ltac:(lia) HX HY HWX HWY
                Hw1 Hw2 Hw3 Hx Hy) as (B1 & B2 & B3 & B4 & B5 & B6 & B7).
    assert (Hlt : (length pre < length (Vertices d))%nat).
    { destruct Hsz as (L1 & _). rewrite L1. lia. }
    assert (Hlt' : (length pre < length (UV0 d))%nat).
    { destruct Hsz as (_ & L2 & _). rewrite L2. lia. }
    cbn beta iota zeta. wrap32_lia.
    rewrite GetHeight_in_range by (assumption || lia).
    destruct (skipn_cons_nth (Vertices d) (length pre) Hlt) as [hv Ev].
    destruct (skipn_cons_nth (UV0 d) (length pre) Hlt') as [hu Eu].
    rewrite HV, Ev, arr_set_at by (rewrite length_map; lia).
    rewrite HU, Eu, arr_set_at by (rewrite length_map; lia).
    eexists; split; [reflexivity|].
    assert (Efv : fV (x, y) = mkV (IZR x - (IZR (WidthX (Map t) - 3) / 2 - IZR ((n - 1) * X)))
                                  (IZR (WidthY (Map t) - 3) / 2 - IZR ((n - 1) * Y) - IZR y)
                                  (hget (Map t) (X * (n - 1) + x + 1) (Y * (n - 1) + y + 1))).
    { unfold fV, mesh_vertex. fold n. f_equal.
      - rewrite plus_IZR, (Z.mul_comm X). lra.
      - rewrite plus_IZR, (Z.mul_comm Y). lra. }
    assert (Efu : fU (x, y) = mkV2 (IZR (x + X * (n - 1)) * Tiling t) (IZR (y + Y * (n - 1)) * Tiling t)).
    { unfold fU, mesh_uv. fold n. f_equal; f_equal; f_equal; ring. }
    replace (WidthX (Map t) - 2 - 1) with (WidthX (Map t) - 3) by ring.
    replace (WidthY (Map t) - 2 - 1) with (WidthY (Map t) - 3) by ring.
    destruct Hs as (L1 & L2 & L3 & L4 & L5).
    unfold sized; cbn [Vertices UV0 Normals Tangents Triangles].
    rewrite !map_app, !length_app. cbn [map length].
    rewrite Efv, Efu, ?length_app, ?length_map, ?length_skipn, ?Nat.add_1_r.
    destruct Hsz as (M1 & M2 & M3 & M4 & M5).
    repeat split; try assumption; try reflexivity; cbn [length]; lia. }
  { simpl. exact (conj Hsz (conj eq_refl eq_refl)). }
  cbv beta in L1. destruct L1 as (d1 & E1 & Hs1 & HV1 & HU1).
  rewrite E1 in HG.
  assert (Hgl : length (grid n n) = Z.to_nat (n * n)).
  { pose proof (length_grid n n ltac:(lia) ltac:(lia)). lia. }
  assert (HV1' : Vertices d1 = map fV (grid n n)).
  { rewrite HV1, skipn_all2, app_nil_r; [reflexivity|]. destruct Hsz as (L1 & _). lia. }
  assert (HU1' : UV0 d1 = map fU (grid n n)).
  { rewrite HU1, skipn_all2, app_nil_r; [reflexivity|]. destruct Hsz as (_ & L2 & _). lia. }
  destruct (for_each (grid n n) _ d1) as [d2|] eqn:E2; [|discriminate].
  assert (P2 : (Vertices d2, UV0 d2) = (Vertices d1, UV0 d1)).
  { refine (for_each_preserve (fun s => (Vertices s, UV0 s)) _ _ _ _ _ E2).
    intros [x y] s s' Hb. cbn beta iota zeta in Hb.
    destruct (NormalTangentAt _ _ _) as [[nrm vx]|]; [|discriminate].
    destruct (arr_set (Normals s) _ _); [|discriminate].
    destruct (arr_set (Tangents s) _ _); [|discriminate].
    injection Hb as <-. reflexivity. }
  injection P2 as PV PU.
  assert (P3 : (Vertices d', UV0 d') = (Vertices d2, UV0 d2)).
  { destruct cre; [|injection HG as <-; reflexivity].
    refine (for_each_preserve (fun s => (Vertices s, UV0 s)) _ _ _ _ _ HG).
    intros [x y] s s' Hb. cbn beta iota zeta in Hb.
    repeat match type of Hb with context [arr_set ?l ?i ?v] =>
      destruct (arr_set l i v); [|discriminate] end.
    injection Hb as <-. reflexivity. }
  injection P3 as PV' PU'. split; congruence.
Qed.

(** X11: A successful GenerateMeshSection places vertex (x, y) of section (X, Y) at the map-centred world position of map cell (X * (n - 1) + x + 1, Y * (n - 1) + y + 1), with the y axis mirrored and that cell height as z, and gives it the tiled global coordinates as UV. *)
Theorem GenerateMeshSection_world_positions t X Y d cre d' :
  section_fits t X Y -> sized (ComponentSize t) d ->
  GenerateMeshSection t X Y d cre = Some d' ->
  forall x y, 0 <= x < ComponentSize t -> 0 <= y < ComponentSize t ->
    nth_error (Vertices d') (Z.to_nat (y * ComponentSize t + x)) =
      Some (mkV (IZR (X * (ComponentSize t - 1) + x) - IZR (WidthX (Map t) - 3) / 2)
                (IZR (WidthY (Map t) - 3) / 2 - IZR (Y * (ComponentSize t - 1) + y))
                (hget (Map t) (X * (ComponentSize t - 1) + x + 1) (Y * (ComponentSize t - 1) + y + 1))) /\
    nth_error (UV0 d') (Z.to_nat (y * ComponentSize t + x)) =
      Some (mkV2 (IZR (X * (ComponentSize t - 1) + x) * Tiling t)
                 (IZR (Y * (ComponentSize t - 1) + y) * Tiling t)).
Proof.
  intros Hfit Hsz HG x y Hx Hy.
  destruct (GenerateMeshSection_vertex_run t X Y d cre d' Hfit Hsz HG) as [HV HU].
  rewrite HV, HU, !nth_error_map, grid_nth by assumption. split; reflexivity.
Qed.

Lemma GenerateMeshSection_cells t X Y d cre d' :
  section_fits t X Y -> sized (ComponentSize t) d ->
  GenerateMeshSection t X Y d cre = Some d' ->
  forall x y, 0 <= x < ComponentSize t -> 0 <= y < ComponentSize t ->
    nth_error (Vertices d') (Z.to_nat (y * ComponentSize t + x)) = Some (mesh_vertex t X Y (x, y)) /\
    nth_error (UV0 d') (Z.to_nat (y * ComponentSize t + x)) = Some (mesh_uv t X Y (x, y)) /\
    nth_error (Normals d') (Z.to_nat (y * ComponentSize t + x)) =
      Some (fst (MeshNormalTangent (Map t) (X * (ComponentSize t - 1) + x + 1)
                                           (Y * (ComponentSize t - 1) + y + 1))) /\
    nth_error (Tangents d') (Z.to_nat (y * ComponentSize t + x)) =
      Some (let v := snd (MeshNormalTangent (Map t) (X * (ComponentSize t - 1) + x + 1)
                                                    (Y * (ComponentSize t - 1) + y + 1)) in
            ProcMeshTangent (VX v) (VY v) (VZ v)).
Proof.
  intros Hfit Hsz HG x y Hx Hy.
  destruct (GenerateMeshSection_vertex_run t X Y d cre d' Hfit Hsz HG) as [HV HU].
  destruct (GenerateMeshSection_ok t X Y d cre Hfit Hsz) as (d'' & E & _ & HN & HT & _).
  rewrite HG in E. injection E as <-.
  rewrite HV, HU, HN, HT, !nth_error_map, grid_nth by assumption.
  repeat split; reflexivity.
Qed.

(** X12: For two horizontally adjacent sections, the last vertex column of the left one and the first vertex column of the right one have equal positions, UVs, normals and tangents. *)
Theorem GenerateMeshSection_seam_x t X Y d1 d2 c1 c2 a b :
  section_fits t X Y -> section_fits t (X + 1) Y ->
  sized (ComponentSize t) d1 -> sized (ComponentSize t) d2 ->
  GenerateMeshSection t X Y d1 c1 = Some a -> GenerateMeshSection t (X + 1) Y d2 c2 = Some b ->
  forall y, 0 <= y < ComponentSize t ->
    let i := Z.to_nat (y * ComponentSize t + (ComponentSize t - 1)) in
    let j := Z.to_nat (y * ComponentSize t) in
    nth_error (Vertices a) i = nth_error (Vertices b) j /\
    nth_error (UV0 a) i = nth_error (UV0 b) j /\
    nth_error (Normals a) i = nth_error (Normals b) j /\
    nth_error (Tangents a) i = nth_error (Tangents b) j.
Proof.
  intros Ha Hb Hs1 Hs2 Ea Eb y Hy i j.
  assert (Hn : 2 <= ComponentSize t) by (destruct Ha; lia).
  destruct (GenerateMeshSection_cells t X Y d1 c1 a Ha Hs1 Ea (ComponentSize t - 1) y ltac:(lia) Hy)
    as (V1 & U1 & N1 & T1).
  destruct (GenerateMeshSection_cells t (X + 1) Y d2 c2 b Hb Hs2 Eb 0 y ltac:(lia) Hy)
    as (V2 & U2 & N2 & T2).
  unfold i, j. rewrite V1, U1, N1, T1.
  replace (y * ComponentSize t) with (y * ComponentSize t + 0) by ring.
  rewrite V2, U2, N2, T2.
  unfold mesh_vertex, mesh_uv. cbv beta iota zeta.
  replace ((X + 1) * (ComponentSize t - 1) + 0) with (X * (ComponentSize t - 1) + (ComponentSize t - 1)) by ring.
  repeat split; reflexivity.
Qed.

(** X13: For two vertically adjacent sections, the last vertex row of the upper one and the first vertex row of the lower one have equal positions, UVs, normals and tangents. *)
Theorem GenerateMeshSection_seam_y t X Y d1 d2 c1 c2 a b :
  section_fits t X Y -> section_fits t X (Y + 1) ->
  sized (ComponentSize t) d1 -> sized (ComponentSize t) d2 ->
  GenerateMeshSection t X Y d1 c1 = Some a -> GenerateMeshSection t X (Y + 1) d2 c2 = Some b ->
  forall x, 0 <= x < ComponentSize t ->
    let i := Z.to_nat ((ComponentSize t - 1) * ComponentSize t + x) in
    let j := Z.to_nat x in
    nth_error (Vertices a) i = nth_error (Vertices b) j /\
    nth_error (UV0 a) i = nth_error (UV0 b) j /\
    nth_error (Normals a) i = nth_error (Normals b) j /\
    nth_error (Tangents a) i = nth_error (Tangents b) j.
Proof.
  intros Ha Hb Hs1 Hs2 Ea Eb x Hx i j.
  assert (Hn : 2 <= ComponentSize t) by (destruct Ha; lia).
  destruct (GenerateMeshSection_cells t X Y d1 c1 a Ha Hs1 Ea x (ComponentSize t - 1) Hx ltac:(lia))
    as (V1 & U1 & N1 & T1).
  destruct (GenerateMeshSection_cells t X (Y + 1) d2 c2 b Hb Hs2 Eb x 0 Hx ltac:(lia))
    as (V2 & U2 & N2 & T2).
  unfold i, j. rewrite V1, U1, N1, T1.
  replace (Z.to_nat x) with (Z.to_nat (0 * ComponentSize t + x)) by (f_equal; ring).
  rewrite V2, U2, N2, T2.
  unfold mesh_vertex, mesh_uv. cbv beta iota zeta.
  replace ((Y + 1) * (ComponentSize t - 1) + 0) with (Y * (ComponentSize t - 1) + (ComponentSize t - 1)) by ring.
  repeat split; reflexivity.
Qed.

Lemma arr_get_at {A} (p r : list A) (h : A) (k : Z) :
  Z.of_nat (length p) = k -> arr_get (p ++ h :: r) k = Some h.
Proof.
  intros Hk. unfold arr_get. replace (0 <=? k) with true by (symmetry; apply Z.leb_le; lia).
  rewrite nth_error_app2 by lia. replace (Z.to_nat k - length p)%nat with O by lia. reflexivity.
Qed.

Lemma arr_set_at' {A} (p r : list A) (h v : A) (k : Z) :
  Z.of_nat (length p) = k -> arr_set (p ++ h :: r) k v = Some (p ++ v :: r).
Proof. intros Hk. rewrite arr_set_at by exact Hk. rewrite <- app_assoc. reflexivity. Qed.

Lemma firstn_S_skipn {A} (l r : list A) k h :
  skipn k l = h :: r -> firstn (S k) l = firstn k l ++ [h].
Proof.
  revert l; induction k as [|k IH]; intros [|a l] H; cbn in *; try discriminate.
  - injection H as -> ->. reflexivity.
  - f_equal. apply IH. exact H.
Qed.

Lemma u32_id z : 0 <= z < 2 ^ 31 -> u32 z = z.
Proof. intros H. unfold u32. apply Z.mod_small. lia. Qed.

Lemma quad_idx_bounds n x y : 2 <= n <= 18919 -> 0 <= x < n - 1 -> 0 <= y < n - 1 ->
  0 <= y * (n - 1) + x /\ (y * (n - 1) + x) * 6 + 6 <= (n - 1) * (n - 1) * 6 /\
  (n - 1) * (n - 1) * 6 < 2 ^ 31 /\ 0 <= y * n /\ 1 + x + (y + 1) * n < 2 ^ 31 /\
  0 <= (y * (n - 1) + x) * 6.
Proof. intros. nia. Qed.

Lemma GenerateMeshSection_TerrainVertex_run t X Y Vs Is u ui :
  section_fits t X Y ->
  exists vs is, GenerateMeshSection_TerrainVertex t X Y Vs Is u ui = Some (vs, is) /\
    map Position vs = map (fun c => let v := mesh_vertex t X Y c in mkV (VX v) (VY v) (VZ v + 10))
                          (grid (ComponentSize t) (ComponentSize t)) /\
    map UV vs = map (mesh_uv t X Y) (grid (ComponentSize t) (ComponentSize t)) /\
    map Normal vs = map (fun '(x, y) => fst (MeshNormalTangent (Map t)
                        (X * (ComponentSize t - 1) + x + 1) (Y * (ComponentSize t - 1) + y + 1)))
                        (grid (ComponentSize t) (ComponentSize t)) /\
    map Tangent vs = map (fun '(x, y) => let v := snd (MeshNormalTangent (Map t)
                        (X * (ComponentSize t - 1) + x + 1) (Y * (ComponentSize t - 1) + y + 1)) in
                        mkV (VX v) (VY v) (VZ v))
                        (grid (ComponentSize t) (ComponentSize t)) /\
    is = flat_map (quad_tris (ComponentSize t)) (grid (ComponentSize t - 1) (ComponentSize t - 1)).
Proof.
  intros Hfit. pose proof Hfit as Hfit'.
  destruct Hfit as (Hn & Hwf & HX & HY & HWX & HWY).
  set (n := ComponentSize t) in *.
  assert (HWX' : WidthX (Map t) < 2 ^ 31).
  { destruct Hwf as (? & ? & ? & ?). nia. }
  assert (HWY' : WidthY (Map t) < 2 ^ 31).
  { destruct Hwf as (? & ? & ? & ?). nia. }
  unfold GenerateMeshSection_TerrainVertex. fold n. cbv zeta.
  rewrite (wrap32_id (n - 1)) by lia.
  rewrite (wrap32_id (WidthX (Map t) - 2 - 1)), (wrap32_id (WidthY (Map t) - 2 - 1)) by nia.
  rewrite (wrap32_id ((n - 1) * X)), (wrap32_id ((n - 1) * Y)) by nia.
  rewrite (wrap32_id (X * (n - 1))), (wrap32_id (Y * (n - 1))) by nia.
  rewrite (wrap32_id (n * n)), (wrap32_id ((n - 1) * (n - 1) * 6)) by nia.
  destruct (SetNum_ok Vs (n * n) u ltac:(nia)) as (vs0 & E0 & L0 & _). rewrite E0.
  assert (Hgl : length (grid n n) = Z.to_nat (n * n)).
  { pose proof (length_grid n n ltac:(lia) ltac:(lia)). lia. }
  set (fP := fun c => let v := mesh_vertex t X Y c in mkV (VX v) (VY v) (VZ v + 10)).
  set (fU := mesh_uv t X Y).
  set (fN := fun '(x, y) => fst (MeshNormalTangent (Map t) (X * (n - 1) + x + 1) (Y * (n - 1) + y + 1))).
  set (fT := fun '(x, y) => let v := snd (MeshNormalTangent (Map t)
                        (X * (n - 1) + x + 1) (Y * (n - 1) + y + 1)) in mkV (VX v) (VY v) (VZ v)).
  (* vertices and UVs *)
  lazymatch goal with |- context [for_each (grid n n) ?body vs0] =>
    let P := constr:(fun (pre : list (Z * Z)) s => exists A, s = A ++ skipn (length pre) vs0 /\
                length A = length pre /\ map Position A = map fP pre /\ map UV A = map fU pre) in
    assert (L1 : exists s', for_each (grid n n) body vs0 = Some s' /\ P (grid n n) s');
    [apply (for_each_inv P body (grid n n))|] end.
  { intros pre [x y] post s Hfull (A & Es & LA & HP & HU).
    destruct (grid_position n n pre x y post ltac:(lia) ltac:(lia) Hfull) as (Hj & Hx & Hy).
    pose proof Hwf as Hwf0. destruct Hwf0 as (Hw1 & Hw2 & Hw3 & _).
    destruct (cell_bounds n X Y x y (WidthX (Map t)) (WidthY (Map t)) ltac:(lia) HX HY HWX HWY
                Hw1 Hw2 Hw3 Hx Hy) as (B1 & B2 & B3 & B4 & B5 & B6 & B7).
    assert (Hlt : (length pre < length vs0)%nat) by lia.
    destruct (skipn_cons_nth vs0 (length pre) Hlt) as [h Eh].
    cbn beta iota zeta. wrap32_lia.
    rewrite GetHeight_in_range by (assumption || lia).
    rewrite Es, Eh. rewrite arr_get_at by lia. rewrite arr_set_at' by lia.
    rewrite arr_get_at by lia. rewrite arr_set_at' by lia.
    cbn [Position UV Normal Tangent].
    match goal with |- exists s', Some (A ++ ?v :: ?r) = Some s' /\ _ =>
      exists (A ++ v :: r); split; [reflexivity|]; exists (A ++ [v]) end.
    split; [|split; [|split]].
    - rewrite <- app_assoc, length_app, Nat.add_1_r. reflexivity.
    - rewrite !length_app. cbn [length]. lia.
    - rewrite !map_app, HP. cbn [map Position]. do 2 f_equal.
      unfold fP, mesh_vertex. fold n. cbv beta iota zeta. cbn [VX VY VZ]. f_equal.
      + rewrite !plus_IZR. replace (WidthX (Map t) - 2 - 1) with (WidthX (Map t) - 3) by ring.
        rewrite (Z.mul_comm X). lra.
      + rewrite !plus_IZR. replace (WidthY (Map t) - 2 - 1) with (WidthY (Map t) - 3) by ring.
        rewrite (Z.mul_comm Y). lra.
    - rewrite !map_app, HU. cbn [map UV]. do 2 f_equal.
      unfold fU, mesh_uv. fold n. f_equal; f_equal; f_equal; ring. }
  { exists []. cbn. repeat split; reflexivity. }
  cbv beta in L1. destruct L1 as (vs1 & E1 & A1 & Es1 & LA1 & HP1 & HU1).
  assert (Hvs1 : vs1 = A1).
  { rewrite Es1, skipn_all2, app_nil_r; [reflexivity|]. lia. }
  rewrite Hvs1 in E1. clear Es1 Hvs1 vs1. rewrite E1.
  (* normals and tangents *)
  set (PU := fun v => (Position v, UV v)).
  lazymatch goal with |- context [for_each (grid n n) ?body A1] =>
    let P := constr:(fun (pre : list (Z * Z)) s => exists A, s = A ++ skipn (length pre) A1 /\
                length A = length pre /\ map PU A = map PU (firstn (length pre) A1) /\
                map Normal A = map fN pre /\ map Tangent A = map fT pre) in
    assert (L2 : exists s', for_each (grid n n) body A1 = Some s' /\ P (grid n n) s');
    [apply (for_each_inv P body (grid n n))|] end.
  { intros pre [x y] post s Hfull (A & Es & LA & HPU & HN & HT).
    destruct (grid_position n n pre x y post ltac:(lia) ltac:(lia) Hfull) as (Hj & Hx & Hy).
    pose proof Hwf as Hwf0. destruct Hwf0 as (Hw1 & Hw2 & Hw3 & _).
    destruct (cell_bounds n X Y x y (WidthX (Map t)) (WidthY (Map t)) ltac:(lia) HX HY HWX HWY
                Hw1 Hw2 Hw3 Hx Hy) as (B1 & B2 & B3 & B4 & B5 & B6 & B7).
    assert (Hlt : (length pre < length A1)%nat) by lia.
    destruct (skipn_cons_nth A1 (length pre) Hlt) as [h Eh].
    cbn beta iota zeta. wrap32_lia.
    rewrite NormalTangentAt_ok by (assumption || lia).
    destruct (MeshNormalTangent (Map t) (X * (n - 1) + x + 1) (Y * (n - 1) + y + 1))
      as [nrm vx] eqn:Ent.
    rewrite Es, Eh. rewrite arr_get_at by lia. rewrite arr_set_at' by lia.
    rewrite arr_get_at by lia. rewrite arr_set_at' by lia.
    cbn [Position UV Normal Tangent].
    match goal with |- exists s', Some (A ++ ?v :: ?r) = Some s' /\ _ =>
      exists (A ++ v :: r); split; [reflexivity|]; exists (A ++ [v]) end.
    split; [|split; [|split; [|split]]].
    - rewrite <- app_assoc, length_app, Nat.add_1_r. reflexivity.
    - rewrite !length_app. cbn [length]. lia.
    - rewrite length_app, Nat.add_1_r, (firstn_S_skipn _ _ _ _ Eh), !map_app, HPU. reflexivity.
    - rewrite !map_app, HN. cbn [map]. unfold fN. rewrite Ent. reflexivity.
    - rewrite !map_app, HT. cbn [map]. unfold fT. rewrite Ent. reflexivity. }
  { exists []. cbn. repeat split; reflexivity. }
  cbv beta in L2. destruct L2 as (vs2 & E2 & A2 & Es2 & LA2 & HPU2 & HN2 & HT2).
  assert (Hvs2 : vs2 = A2).
  { rewrite Es2, skipn_all2, app_nil_r; [reflexivity|]. lia. }
  rewrite Hvs2 in E2. clear Es2 Hvs2 vs2. rewrite E2.
  rewrite firstn_all2 in HPU2 by (rewrite LA1; lia).
  (* indices *)
  destruct (SetNum_ok Is ((n - 1) * (n - 1) * 6) ui ltac:(nia)) as (is0 & E3 & L3 & _). rewrite E3.
  lazymatch goal with |- context [for_each (grid ?p ?p) ?body is0] =>
    let P := constr:(fun (pre : list (Z * Z)) s =>
                s = flat_map (quad_tris n) pre ++ skipn (6 * length pre) is0) in
    assert (L4 : exists s', for_each (grid p p) body is0 = Some s' /\ P (grid p p) s');
    [apply (for_each_inv P body (grid p p))|] end.
  { intros pre [x y] post s Hfull Hs.
    destruct (grid_position (n - 1) (n - 1) pre x y post ltac:(lia) ltac:(lia) Hfull)
      as (Hj & Hx & Hy).
    destruct (quad_idx_bounds n x y Hn Hx Hy) as (Q1 & Q2 & Q3 & Q4 & Q5 & Q6).
    assert (Hlt : (6 * length pre + 6 <= length is0)%nat) by lia.
    destruct (skipn_six is0 (6 * length pre) Hlt) as (h0 & h1 & h2 & h3 & h4 & h5 & E6).
    cbn beta iota zeta. wrap32_lia. rewrite !u32_id by lia.
    rewrite Hs, E6.
    pose proof (length_flat_map_quad n pre) as HLq.
    rewrite arr_set_at by lia.
    rewrite arr_set_at by (rewrite length_app; simpl; lia).
    rewrite arr_set_at by (rewrite !length_app; simpl; lia).
    rewrite arr_set_at by (rewrite !length_app; simpl; lia).
    rewrite arr_set_at by (rewrite !length_app; simpl; lia).
    rewrite arr_set_at by (rewrite !length_app; simpl; lia).
    eexists; split; [reflexivity|].
    rewrite flat_map_app, length_app. cbn [length flat_map quad_tris].
    replace (6 * (length pre + 1))%nat with (6 * length pre + 6)%nat by lia.
    rewrite <- !app_assoc. reflexivity. }
  { reflexivity. }
  cbv beta in L4. destruct L4 as (is1 & E4 & HI).
  rewrite E4. exists A2, is1. split; [reflexivity|].
  assert (HPU' : map PU A2 = map (fun c => (fP c, fU c)) (grid n n)).
  { rewrite HPU2. clear -HP1 HU1. revert HP1 HU1. generalize (grid n n).
    induction A1 as [|a A IH]; intros [|c l] HP HU; cbn in *; try discriminate; [reflexivity|].
    injection HP as Ha HP. injection HU as Hb HU. unfold PU. rewrite Ha, Hb. f_equal. apply IH; assumption. }
  split; [|split; [|split; [exact HN2|split; [exact HT2|]]]].
  - replace (map Position A2) with (map fst (map PU A2)) by (rewrite map_map; reflexivity).
    rewrite HPU', map_map. reflexivity.
  - replace (map UV A2) with (map snd (map PU A2)) by (rewrite map_map; reflexivity).
    rewrite HPU', map_map. reflexivity.
  - rewrite HI, skipn_all2, app_nil_r; [reflexivity|].
    pose proof (length_grid (n - 1) (n - 1) ltac:(lia) ltac:(lia)). nia.
Qed.

(** X14: For a section inside the map, the ComponentData and FTerrainVertex overloads of GenerateMeshSection both succeed with the same UVs, normals, tangents and triangles; the FTerrainVertex positions are the same points raised by 10. *)
Theorem GenerateMeshSection_overloads_agree t X Y d Vs Is u ui :
  section_fits t X Y -> sized (ComponentSize t) d ->
  exists d' vs is,
    GenerateMeshSection t X Y d true = Some d' /\
    GenerateMeshSection_TerrainVertex t X Y Vs Is u ui = Some (vs, is) /\
    map Position vs = map (fun v => mkV (VX v) (VY v) (VZ v + 10)) (Vertices d') /\
    map UV vs = UV0 d' /\ map Normal vs = Normals d' /\
    map (fun v => ProcMeshTangent (VX (Tangent v)) (VY (Tangent v)) (VZ (Tangent v))) vs = Tangents d' /\
    is = Triangles d'.
Proof.
  intros Hfit Hsz.
  destruct (GenerateMeshSection_ok t X Y d true Hfit Hsz) as (d' & E & _ & HN & HT & HTr).
  destruct (GenerateMeshSection_vertex_run t X Y d true d' Hfit Hsz E) as [HV HU].
  destruct (GenerateMeshSection_TerrainVertex_run t X Y Vs Is u ui Hfit)
    as (vs & is & E' & HP & HU' & HN' & HT' & HI).
  exists d', vs, is. split; [exact E|]. split; [exact E'|].
  split; [rewrite HP, HV, map_map; reflexivity|].
  split; [rewrite HU', HU; reflexivity|].
  split; [rewrite HN', HN; reflexivity|].
  split; [|rewrite HI, HTr; reflexivity].
  replace (map (fun v => ProcMeshTangent (VX (Tangent v)) (VY (Tangent v)) (VZ (Tangent v))) vs)
    with (map (fun v => ProcMeshTangent (VX v) (VY v) (VZ v)) (map Tangent vs))
    by (rewrite map_map; reflexivity).
  rewrite HT', HT, map_map. apply map_ext. intros [x y]. reflexivity.
Qed.


Lemma GenerateBorderSection_vertices t :
  wf_map (Map t) -> 3 <= WidthX (Map t) <= 65537 -> 3 <= WidthY (Map t) <= 65537 ->
  let m := Map t in
  let wx := WidthX m - 2 in
  let wy := WidthY m - 2 in
  let world_x := (IZR (wx - 1) / 2)%R in
  let world_y := (IZR (wy - 1) / 2)%R in
  exists d, GenerateBorderSection t EmptyData true = Some d /\
    Vertices d =
      flat_map (fun y => [mkV (- world_x) (world_y - IZR y) BorderBottom;
                          mkV (- world_x) (world_y - IZR y) (hget m 1 (y + 1))]) (zrange wy) ++
      flat_map (fun y => [mkV world_x (world_y - IZR y) BorderBottom;
                          mkV world_x (world_y - IZR y) (hget m wx (y + 1))]) (zrange wy) ++
      flat_map (fun x => [mkV (- world_x + IZR x) world_y BorderBottom;
                          mkV (- world_x + IZR x) world_y (hget m (x + 1) 1)]) (zrange wx) ++
      flat_map (fun x => [mkV (- world_x + IZR x) (- world_y) BorderBottom;
                          mkV (- world_x + IZR x) (- world_y) (hget m (x + 1) wy)]) (zrange wx).
Proof.
  intros Hwf HX HY. cbv zeta.
  assert (HWX' : WidthX (Map t) * 1 <= WidthX (Map t) * WidthY (Map t)) by nia.
  assert (HWY' : 1 * WidthY (Map t) <= WidthX (Map t) * WidthY (Map t)) by nia.
  assert (Hsz : WidthX (Map t) * WidthY (Map t) < 2 ^ 31) by apply Hwf.
  unfold GenerateBorderSection. cbn zeta.
  rewrite (wrap32_id (WidthY (Map t) - 2)) by lia.
  rewrite (wrap32_id (WidthX (Map t) - 2)) by lia.
  rewrite (wrap32_id (WidthY (Map t) - 2 - 1)) by lia.
  rewrite (wrap32_id (WidthX (Map t) - 2 - 1)) by lia.
  do 4 (erewrite for16_ok;
    [| intros j s Hj; cbn beta; rewrite GetHeight_in_range by (assumption || lia); reflexivity
     | lia];
    cbn [Vertices UV0 Normals Tangents Triangles EmptyData];
    erewrite fold_add_pair; [|intros ? ?; reflexivity];
    erewrite for16_ok; [|intros j s Hj; reflexivity|lia];
    cbn [Vertices UV0 Normals Tangents Triangles EmptyData];
    erewrite fold_add_tris; [|intros ? ?; reflexivity]).
  eexists. split; [reflexivity|]. cbn [Vertices]. rewrite <- !app_assoc. reflexivity.
Qed.

Lemma length_pairs {A B} (a b : B -> A) (l : list B) :
  length (flat_map (fun j => [a j; b j]) l) = (2 * length l)%nat.
Proof. induction l as [|j l IH]; cbn [flat_map length app]; [reflexivity|]. rewrite IH. lia. Qed.

Lemma nth_error_pairs {A} (a b : Z -> A) (w j : Z) :
  0 <= j < w ->
  nth_error (flat_map (fun j => [a j; b j]) (zrange w)) (2 * Z.to_nat j + 1) = Some (b j).
Proof.
  intros Hj. rewrite <- (Z2Nat.id w) in * by lia. induction (Z.to_nat w) as [|k IH]; [lia|].
  rewrite zrange_succ, flat_map_app.
  destruct (Z.eq_dec j (Z.of_nat k)) as [->|Hne].
  - rewrite nth_error_app2 by (rewrite length_pairs, length_zrange; lia).
    rewrite length_pairs, length_zrange, !Nat2Z.id.
    replace (2 * k + 1 - 2 * k)%nat with 1%nat by lia. reflexivity.
  - rewrite nth_error_app1 by (rewrite length_pairs, length_zrange; lia). apply IH. lia.
Qed.

Lemma border_fits t X Y :
  2 <= ComponentSize t <= 18919 -> wf_map (Map t) ->
  WidthX (Map t) = (ComponentSize t - 1) * XWidth t + 3 ->
  WidthY (Map t) = (ComponentSize t - 1) * YWidth t + 3 ->
  0 <= X < XWidth t -> 0 <= Y < YWidth t -> section_fits t X Y.
Proof.
  intros Hn Hwf HWX HWY HX HY. unfold section_fits.
  split; [exact Hn|split; [exact Hwf|]]. rewrite HWX, HWY. repeat split; nia.
Qed.

Lemma border_index_bound W n K k :
  2 <= n -> 0 <= K < W -> 0 <= k < n -> 0 <= K * (n - 1) + k < (n - 1) * W + 1.
Proof. intros. nia. Qed.

(** X16: On a terrain whose map matches its sections, GenerateBorderSection succeeds, and on each of the four sides the second vertex of every border vertex pair equals the matching edge vertex of the adjacent section built by GenerateMeshSection. *)
Theorem GenerateBorderSection_meets_sections t :
  2 <= ComponentSize t <= 18919 -> 1 <= XWidth t -> 1 <= YWidth t -> wf_map (Map t) ->
  WidthX (Map t) = (ComponentSize t - 1) * XWidth t + 3 -> WidthX (Map t) <= 65537 ->
  WidthY (Map t) = (ComponentSize t - 1) * YWidth t + 3 -> WidthY (Map t) <= 65537 ->
  let n := ComponentSize t in
  let wx := WidthX (Map t) - 2 in
  let wy := WidthY (Map t) - 2 in
  exists d, GenerateBorderSection t EmptyData true = Some d /\
    (forall Y y d1 c a, 0 <= Y < YWidth t -> 0 <= y < n -> sized n d1 ->
       GenerateMeshSection t 0 Y d1 c = Some a ->
       nth_error (Vertices d) (Z.to_nat (2 * (Y * (n - 1) + y) + 1)) =
       nth_error (Vertices a) (Z.to_nat (y * n))) /\
    (forall Y y d1 c a, 0 <= Y < YWidth t -> 0 <= y < n -> sized n d1 ->
       GenerateMeshSection t (XWidth t - 1) Y d1 c = Some a ->
       nth_error (Vertices d) (Z.to_nat (2 * wy + 2 * (Y * (n - 1) + y) + 1)) =
       nth_error (Vertices a) (Z.to_nat (y * n + (n - 1)))) /\
    (forall X x d1 c a, 0 <= X < XWidth t -> 0 <= x < n -> sized n d1 ->
       GenerateMeshSection t X 0 d1 c = Some a ->
       nth_error (Vertices d) (Z.to_nat (4 * wy + 2 * (X * (n - 1) + x) + 1)) =
       nth_error (Vertices a) (Z.to_nat x)) /\
    (forall X x d1 c a, 0 <= X < XWidth t -> 0 <= x < n -> sized n d1 ->
       GenerateMeshSection t X (YWidth t - 1) d1 c = Some a ->
       nth_error (Vertices d) (Z.to_nat (4 * wy + 2 * wx + 2 * (X * (n - 1) + x) + 1)) =
       nth_error (Vertices a) (Z.to_nat ((n - 1) * n + x))).
Proof.
  intros Hn HXW HYW Hwf HWX HWX' HWY HWY'. cbv zeta.
  destruct (GenerateBorderSection_vertices t Hwf ltac:(nia) ltac:(nia)) as (d & E & HV).
  cbv zeta in HV. exists d. split; [exact E|].
  set (n := ComponentSize t) in *. set (m := Map t) in *.
  set (wx := WidthX m - 2) in *. set (wy := WidthY m - 2) in *.
  assert (Lwy : length (zrange wy) = Z.to_nat wy) by apply length_zrange.
  assert (Lwx : length (zrange wx) = Z.to_nat wx) by apply length_zrange.
  assert (Ewx : wx = (n - 1) * XWidth t + 1) by (unfold wx; lia).
  assert (Ewy : wy = (n - 1) * YWidth t + 1) by (unfold wy; lia).
  assert (Pwx : 0 <= (n - 1) * XWidth t) by (apply Z.mul_nonneg_nonneg; lia).
  assert (Pwy : 0 <= (n - 1) * YWidth t) by (apply Z.mul_nonneg_nonneg; lia).
  split; [|split; [|split]].
  - intros Y y d1 c a HY Hy Hsz HG.
    assert (Hfit : section_fits t 0 Y) by (apply border_fits; (assumption || lia)).
    destruct (GenerateMeshSection_cells t 0 Y d1 c a Hfit Hsz HG 0 y ltac:(lia) Hy) as (Ha & _). fold n m in Ha.
    pose proof (border_index_bound (YWidth t) n Y y ltac:(lia) HY Hy) as Hb.
    rewrite Z.add_0_r in Ha. rewrite Ha, HV.
    replace (Z.to_nat (2 * (Y * (n - 1) + y) + 1)) with (2 * Z.to_nat (Y * (n - 1) + y) + 1)%nat by lia.
    rewrite nth_error_app1 by (rewrite length_pairs; lia).
    rewrite nth_error_pairs by lia. f_equal. unfold mesh_vertex. fold n m. unfold wx, wy.
    replace (WidthX m - 2 - 1) with (WidthX m - 3) by ring.
    replace (WidthY m - 2 - 1) with (WidthY m - 3) by ring.
    rewrite ?Z.mul_0_l, ?Z.add_0_r. change (IZR 0) with 0%R.
    f_equal; try lra; f_equal; nia.
  - intros Y y d1 c a HY Hy Hsz HG.
    assert (Hfit : section_fits t (XWidth t - 1) Y) by (apply border_fits; (assumption || lia)).
    destruct (GenerateMeshSection_cells t _ Y d1 c a Hfit Hsz HG (n - 1) y ltac:(lia) Hy) as (Ha & _). fold n m in Ha.
    pose proof (border_index_bound (YWidth t) n Y y ltac:(lia) HY Hy) as Hb.
    rewrite Ha, HV.
    rewrite nth_error_app2 by (rewrite length_pairs; lia). rewrite length_pairs.
    replace (Z.to_nat (2 * wy + 2 * (Y * (n - 1) + y) + 1) - 2 * length (zrange wy))%nat
      with (2 * Z.to_nat (Y * (n - 1) + y) + 1)%nat by lia.
    rewrite nth_error_app1 by (rewrite length_pairs; lia).
    rewrite nth_error_pairs by lia. f_equal. unfold mesh_vertex. fold n m. unfold wx, wy.
    replace (WidthX m - 2 - 1) with (WidthX m - 3) by ring.
    replace (WidthY m - 2 - 1) with (WidthY m - 3) by ring.
    replace ((XWidth t - 1) * (n - 1) + (n - 1)) with (WidthX m - 3) by lia.
    rewrite ?Z.mul_0_l, ?Z.add_0_r. change (IZR 0) with 0%R.
    f_equal; try lra; f_equal; nia.
  - intros X x d1 c a HX Hx Hsz HG.
    assert (Hfit : section_fits t X 0) by (apply border_fits; (assumption || lia)).
    destruct (GenerateMeshSection_cells t X 0 d1 c a Hfit Hsz HG x 0 Hx ltac:(lia)) as (Ha & _). fold n m in Ha.
    pose proof (border_index_bound (XWidth t) n X x ltac:(lia) HX Hx) as Hb.
    replace (0 * n + x) with x in Ha by ring. rewrite Ha, HV.
    rewrite nth_error_app2 by (rewrite length_pairs; lia). rewrite length_pairs.
    rewrite nth_error_app2 by (rewrite length_pairs; lia). rewrite length_pairs.
    replace (Z.to_nat (4 * wy + 2 * (X * (n - 1) + x) + 1) - 2 * length (zrange wy) - 2 * length (zrange wy))%nat
      with (2 * Z.to_nat (X * (n - 1) + x) + 1)%nat by lia.
    rewrite nth_error_app1 by (rewrite length_pairs; lia).
    rewrite nth_error_pairs by lia. f_equal. unfold mesh_vertex. fold n m. unfold wx, wy.
    replace (WidthX m - 2 - 1) with (WidthX m - 3) by ring.
    replace (WidthY m - 2 - 1) with (WidthY m - 3) by ring.
    rewrite ?Z.mul_0_l, ?Z.add_0_r. change (IZR 0) with 0%R.
    f_equal; try lra; f_equal; nia.
  - intros X x d1 c a HX Hx Hsz HG.
    assert (Hfit : section_fits t X (YWidth t - 1)) by (apply border_fits; (assumption || lia)).
    destruct (GenerateMeshSection_cells t X _ d1 c a Hfit Hsz HG x (n - 1) Hx ltac:(lia)) as (Ha & _). fold n m in Ha.
    pose proof (border_index_bound (XWidth t) n X x ltac:(lia) HX Hx) as Hb.
    rewrite Ha, HV.
    rewrite nth_error_app2 by (rewrite length_pairs; lia). rewrite length_pairs.
    rewrite nth_error_app2 by (rewrite length_pairs; lia). rewrite length_pairs.
    rewrite nth_error_app2 by (rewrite length_pairs; lia). rewrite length_pairs.
    replace (Z.to_nat (4 * wy + 2 * wx + 2 * (X * (n - 1) + x) + 1) - 2 * length (zrange wy)
               - 2 * length (zrange wy) - 2 * length (zrange wx))%nat
      with (2 * Z.to_nat (X * (n - 1) + x) + 1)%nat by lia.
    rewrite nth_error_pairs by lia. f_equal. unfold mesh_vertex. fold n m. unfold wx, wy.
    replace (WidthX m - 2 - 1) with (WidthX m - 3) by ring.
    replace (WidthY m - 2 - 1) with (WidthY m - 3) by ring.
    replace ((YWidth t - 1) * (n - 1) + (n - 1)) with (WidthY m - 3) by lia.
    rewrite ?Z.mul_0_l, ?Z.add_0_r. change (IZR 0) with 0%R.
    f_equal; try lra; f_equal; nia.
Qed.

(** X17: When both heightmap dimensions (ComponentSize - 1) * Width + 3 fit a uint16 and their product fits an int32, RebuildHeightmap resizes the map to them with the given maximum height, keeps the leading heights, and changes nothing else. *)
Theorem RebuildHeightmap_resizes t DefaultMaxHeight :
  0 < (ComponentSize t - 1) * XWidth t + 3 < 65536 ->
  0 < (ComponentSize t - 1) * YWidth t + 3 < 65536 ->
  ((ComponentSize t - 1) * XWidth t + 3) * ((ComponentSize t - 1) * YWidth t + 3) < 2 ^ 31 ->
  0 < DefaultMaxHeight ->
  exists m, RebuildHeightmap t DefaultMaxHeight =
              Some (mkTerrain m (ComponentSize t) (XWidth t) (YWidth t) (Tiling t) (Border t)
                      (WorkerThreads t) (DirtyMesh t) (Meshes t) (UpdateMesh t) (ComponentBuffer t)) /\
    wf_map m /\
    WidthX m = (ComponentSize t - 1) * XWidth t + 3 /\
    WidthY m = (ComponentSize t - 1) * YWidth t + 3 /\
    MaxHeight m = DefaultMaxHeight /\
    forall k, (k < Z.to_nat (WidthX m * WidthY m))%nat ->
      nth k (MapData m) 0%R = nth k (MapData (Map t)) 0%R.
Proof.
  intros Hx Hy Hp Hz. unfold RebuildHeightmap, u16.
  rewrite (Z.mod_small ((ComponentSize t - 1) * XWidth t + 3)) by lia.
  rewrite (Z.mod_small ((ComponentSize t - 1) * YWidth t + 3)) by lia.
  rewrite wrap32_id by nia.
  destruct (Z.eqb_spec (((ComponentSize t - 1) * XWidth t + 3) * ((ComponentSize t - 1) * YWidth t + 3)) 0); [nia|].
  destruct (Resize_run (Map t) ((ComponentSize t - 1) * XWidth t + 3) ((ComponentSize t - 1) * YWidth t + 3)
              DefaultMaxHeight ltac:(lia) ltac:(lia) Hz Hp) as (m & E & Hwf & HX & HY & HZ & Hd).
  rewrite E. exists m. split; [reflexivity|]. do 4 (split; [assumption|]). rewrite HX, HY. exact Hd.
Qed.

(** X19: ComponentData::Allocate fails for every size from 46341 to 65535, because Size * Size wraps to a negative int32 array size. *)
Theorem Allocate_vertex_overflow Size :
  46341 <= Size <= 65535 -> Allocate Size = None.
Proof.
  intros H. unfold Allocate, SetNum.
  replace (wrap32 (Size * Size)) with (Size * Size - 2 ^ 32).
  - destruct (Z.ltb_spec (Size * Size - 2 ^ 32) 0); [reflexivity|nia].
  - unfold wrap32. replace (Size * Size + 2 ^ 31) with ((Size * Size - 2 ^ 32 + 2 ^ 31) + 1 * 2 ^ 32) by ring.
    rewrite Z.mod_add by lia. rewrite Z.mod_small by nia. ring.
Qed.



(** ** Examples of the properties above *)

Lemma wf_cex_map : wf_map cex_map.
Proof. unfold wf_map, cex_map; simpl. repeat split; try lia; reflexivity. Qed.

Lemma sized_section_data2 : sized 2 section_data2.
Proof. unfold sized, section_data2; simpl. repeat split; reflexivity. Qed.

Lemma Flat_zeroes_witness :
  wf_map cex_map /\
  exists m', Flat cex_map = Some m' /\ WidthX m' = WidthX cex_map /\ WidthY m' = WidthY cex_map /\
    MaxHeight m' = MaxHeight cex_map /\ MapData m' = repeat 0%R (length (MapData cex_map)).
Proof.
  split; [exact wf_cex_map|]. exact (Flat_zeroes cex_map wf_cex_map).
Defined.

Lemma CalculateNormalsAndTangents_square_witness :
  (wf_map cex_map /\ WidthX cex_map = WidthY cex_map /\ 3 <= WidthX cex_map) /\
  exists ns ts, CalculateNormalsAndTangents cex_map ZeroVector (ProcMeshTangent 0 0 0) [] [] = Some (ns, ts) /\
    length ns = Z.to_nat ((WidthX cex_map - 2) * (WidthY cex_map - 2)) /\
    length ts = Z.to_nat ((WidthX cex_map - 2) * (WidthY cex_map - 2)) /\
    forall x y, 1 <= x <= WidthX cex_map - 2 -> 1 <= y <= WidthY cex_map - 2 ->
      nth_error ns (Z.to_nat ((y - 1) * (WidthX cex_map - 2) + (x - 1))) =
        Some (fst (MapNormalTangent cex_map x y)) /\
      nth_error ts (Z.to_nat ((y - 1) * (WidthX cex_map - 2) + (x - 1))) =
        Some (let v := snd (MapNormalTangent cex_map x y) in ProcMeshTangent (VX v) (VY v) (VZ v)).
Proof.
  assert (H1 : WidthX cex_map = WidthY cex_map) by reflexivity.
  assert (H2 : 3 <= WidthX cex_map) by (simpl; lia).
  split; [split; [exact wf_cex_map|split; assumption]|].
  exact (CalculateNormalsAndTangents_square cex_map ZeroVector (ProcMeshTangent 0 0 0) [] []
           wf_cex_map H1 H2).
Defined.

Lemma CalculateNormalsAndTangents_wide_witness :
  (wf_map wide_map /\ 4 <= WidthY wide_map < WidthX wide_map) /\
  exists ns ts, CalculateNormalsAndTangents wide_map ZeroVector (ProcMeshTangent 0 0 0) [] [] = Some (ns, ts) /\
    (forall x y, 1 <= x <= WidthX wide_map - 2 -> 1 <= y <= WidthY wide_map - 2 ->
       nth_error ns (Z.to_nat ((y - 1) * (WidthX wide_map - 2) + (x - 1))) =
         Some (fst (MapNormalTangent wide_map x y))) /\
    nth_error ts (Z.to_nat ((WidthX wide_map - 2) * (WidthY wide_map - 2) - 1)) =
      nth_error ([] ++ repeat (ProcMeshTangent 0 0 0) (Z.to_nat ((WidthX wide_map - 2) * (WidthY wide_map - 2))))
                (Z.to_nat ((WidthX wide_map - 2) * (WidthY wide_map - 2) - 1)).
Proof.
  assert (H1 : wf_map wide_map) by (unfold wf_map, wide_map; simpl; repeat split; try lia; reflexivity).
  assert (H2 : 4 <= WidthY wide_map < WidthX wide_map) by (simpl; lia).
  split; [split; assumption|].
  exact (CalculateNormalsAndTangents_wide wide_map ZeroVector (ProcMeshTangent 0 0 0) [] [] H1 H2).
Defined.

Lemma CalculateNormalsAndTangents_tall_fails_witness :
  (wf_map tall_map4 /\ 3 <= WidthX tall_map4 < WidthY tall_map4) /\
  CalculateNormalsAndTangents tall_map4 ZeroVector (ProcMeshTangent 0 0 0) [] [] = None.
Proof.
  assert (H1 : wf_map tall_map4) by (unfold wf_map, tall_map4; simpl; repeat split; try lia; reflexivity).
  assert (H2 : 3 <= WidthX tall_map4 < WidthY tall_map4) by (simpl; lia).
  split; [split; assumption|].
  exact (CalculateNormalsAndTangents_tall_fails tall_map4 ZeroVector (ProcMeshTangent 0 0 0) [] []
           H1 H2).
Defined.

Lemma Update_regenerates_flagged_witness :
  (0 <= XWidth update_terrain /\ 0 <= YWidth update_terrain /\
   XWidth update_terrain * YWidth update_terrain < 2 ^ 31) /\
  exists t' evs, Update update_terrain = Some (t', evs) /\
  gen_sections evs =
    filter (fun '(x, y) => nth (Z.to_nat (y * XWidth update_terrain + x)) (UpdateMesh update_terrain) false)
           (grid_xy (XWidth update_terrain) (YWidth update_terrain)) /\
  length (UpdateMesh t') = length (UpdateMesh update_terrain) /\
  forall k, nth k (UpdateMesh t') false =
    (if Z.of_nat k <? XWidth update_terrain * YWidth update_terrain then false
     else nth k (UpdateMesh update_terrain) false).
Proof.
  assert (H1 : 0 <= XWidth update_terrain) by (simpl; lia).
  assert (H2 : 0 <= YWidth update_terrain) by (simpl; lia).
  assert (H3 : XWidth update_terrain * YWidth update_terrain < 2 ^ 31) by (simpl; lia).
  split; [split; [|split]; assumption|].
  destruct (Update update_terrain) as [[t' evs]|] eqn:E.
  - exists t', evs. split; [reflexivity|].
    exact (Update_regenerates_flagged update_terrain t' evs H1 H2 H3 E).
  - vm_compute in E. discriminate.
Defined.


Lemma UpdateRange_marks_witness :
  let R := mkIntRect (mkIntPoint 1 1) (mkIntPoint 2 3) in
  let t := update_terrain in
  (2 <= ComponentSize t < 2 ^ 31 /\ 1 <= XWidth t /\ 1 <= YWidth t /\
   WidthX (Map t) = (ComponentSize t - 1) * XWidth t + 3 /\ WidthX (Map t) < 2 ^ 31 /\
   WidthY (Map t) = (ComponentSize t - 1) * YWidth t + 3 /\ WidthY (Map t) < 2 ^ 31 /\
   XWidth t * YWidth t <= Z.of_nat (length (UpdateMesh t)) /\ XWidth t * YWidth t < 2 ^ 31 /\
   Z.max (IX (Min R)) 1 <= Z.min (IX (Max R)) ((ComponentSize t - 1) * XWidth t) /\
   Z.max (IY (Min R)) 1 <= Z.min (IY (Max R)) ((ComponentSize t - 1) * YWidth t)) /\
  exists um,
    UpdateRange t R = Some (mkTerrain (Map t) (ComponentSize t) (XWidth t) (YWidth t) (Tiling t)
                              (Border t) (WorkerThreads t) (DirtyMesh t) (Meshes t) um
                              (ComponentBuffer t)) /\
    length um = length (UpdateMesh t) /\
    (forall x y, 0 <= x < XWidth t -> 0 <= y < YWidth t ->
       nth (Z.to_nat (y * XWidth t + x)) um false =
       (nth (Z.to_nat (y * XWidth t + x)) (UpdateMesh t) false ||
        range_hits (Z.max (IX (Min R)) 1) (Z.min (IX (Max R)) ((ComponentSize t - 1) * XWidth t))
                   (ComponentSize t - 1) x &&
        range_hits (Z.max (IY (Min R)) 1) (Z.min (IY (Max R)) ((ComponentSize t - 1) * YWidth t))
                   (ComponentSize t - 1) y)%bool) /\
    (forall k, XWidth t * YWidth t <= Z.of_nat k -> nth k um false = nth k (UpdateMesh t) false).
Proof.
  cbv zeta.
  assert (H : 2 <= 2 < 2 ^ 31) by lia.
  split; [cbn; repeat split; lia|].
  exact (UpdateRange_marks update_terrain (mkIntRect (mkIntPoint 1 1) (mkIntPoint 2 3)) H
           ltac:(cbn; lia) ltac:(cbn; lia) ltac:(cbn; lia) ltac:(cbn; lia) ltac:(cbn; lia)
           ltac:(cbn; lia) ltac:(cbn; lia) ltac:(cbn; lia) ltac:(cbn; lia) ltac:(cbn; lia)).
Defined.

Lemma UpdateRange_truncates_toward_zero_witness :
  let R := mkIntRect (mkIntPoint 1 1) (mkIntPoint 0 2) in
  let t := single_terrain in
  (2 <= ComponentSize t < 2 ^ 31 /\ 1 <= XWidth t /\ 1 <= YWidth t /\
   WidthX (Map t) = (ComponentSize t - 1) * XWidth t + 3 /\ WidthX (Map t) < 2 ^ 31 /\
   WidthY (Map t) = (ComponentSize t - 1) * YWidth t + 3 /\ WidthY (Map t) < 2 ^ 31 /\
   XWidth t * YWidth t <= Z.of_nat (length (UpdateMesh t)) /\ XWidth t * YWidth t < 2 ^ 31 /\
   IX (Min R) <= ComponentSize t - 1 /\ 3 - ComponentSize t <= IX (Max R) <= 0 /\
   Z.max (IY (Min R)) 1 <= Z.min (IY (Max R)) ((ComponentSize t - 1) * YWidth t)) /\
  exists t', UpdateRange t R = Some t' /\
    forall y, 0 <= y < YWidth t ->
      range_hits (Z.max (IY (Min R)) 1) (Z.min (IY (Max R)) ((ComponentSize t - 1) * YWidth t))
                 (ComponentSize t - 1) y = true ->
      nth (Z.to_nat (y * XWidth t)) (UpdateMesh t') false = true.
Proof.
  cbv zeta.
  assert (H : 2 <= ComponentSize single_terrain < 2 ^ 31) by (cbn; lia).
  split; [cbn; repeat split; lia|].
  exact (UpdateRange_truncates_toward_zero single_terrain (mkIntRect (mkIntPoint 1 1) (mkIntPoint 0 2)) H
           ltac:(cbn; lia) ltac:(cbn; lia) ltac:(cbn; lia) ltac:(cbn; lia) ltac:(cbn; lia)
           ltac:(cbn; lia) ltac:(cbn; lia) ltac:(cbn; lia) ltac:(cbn; lia) ltac:(cbn; lia)
           ltac:(cbn; lia)).
Defined.


Lemma ApplyMaterials_assigns_witness :
  Z.of_nat (length [1; 2; 3]%nat) < 2 ^ 31 /\
  ApplyMaterials true 7%nat 9%nat [1; 2; 3]%nat =
    Some (repeat 7%nat (length [1; 2; 3]%nat - 1) ++ [9%nat]).
Proof.
  assert (H : Z.of_nat (length [1; 2; 3]%nat) < 2 ^ 31) by (simpl; lia).
  split; [exact H|]. exact (ApplyMaterials_assigns true 7%nat 9%nat [1; 2; 3]%nat H).
Defined.

Lemma fits_cex_terrain : section_fits cex_terrain 0 0.
Proof. unfold section_fits, wf_map, cex_terrain, cex_map; simpl. repeat split; try lia; reflexivity. Qed.

Lemma fits_one_thread_terrain X Y : 0 <= X <= 1 -> 0 <= Y <= 1 -> section_fits one_thread_terrain X Y.
Proof.
  intros HX HY. unfold section_fits, wf_map, one_thread_terrain; simpl.
  repeat split; try lia; reflexivity.
Qed.

Lemma GenerateMeshSection_world_positions_witness :
  (section_fits cex_terrain 0 0 /\ sized (ComponentSize cex_terrain) section_data2) /\
  exists d', GenerateMeshSection cex_terrain 0 0 section_data2 true = Some d' /\
  forall x y, 0 <= x < ComponentSize cex_terrain -> 0 <= y < ComponentSize cex_terrain ->
    nth_error (Vertices d') (Z.to_nat (y * ComponentSize cex_terrain + x)) =
      Some (mkV (IZR (0 * (ComponentSize cex_terrain - 1) + x) - IZR (WidthX (Map cex_terrain) - 3) / 2)
                (IZR (WidthY (Map cex_terrain) - 3) / 2 - IZR (0 * (ComponentSize cex_terrain - 1) + y))
                (hget (Map cex_terrain) (0 * (ComponentSize cex_terrain - 1) + x + 1)
                                        (0 * (ComponentSize cex_terrain - 1) + y + 1))) /\
    nth_error (UV0 d') (Z.to_nat (y * ComponentSize cex_terrain + x)) =
      Some (mkV2 (IZR (0 * (ComponentSize cex_terrain - 1) + x) * Tiling cex_terrain)
                 (IZR (0 * (ComponentSize cex_terrain - 1) + y) * Tiling cex_terrain)).
Proof.
  split; [exact (conj fits_cex_terrain sized_section_data2)|].
  destruct (GenerateMeshSection_ok cex_terrain 0 0 section_data2 true fits_cex_terrain sized_section_data2)
    as (d' & E & _).
  exists d'. split; [exact E|].
  exact (GenerateMeshSection_world_positions cex_terrain 0 0 section_data2 true d'
           fits_cex_terrain sized_section_data2 E).
Defined.

Lemma GenerateMeshSection_seam_x_witness :
  (section_fits one_thread_terrain 0 0 /\ section_fits one_thread_terrain 1 0 /\
   sized (ComponentSize one_thread_terrain) section_data2) /\
  exists a b,
    GenerateMeshSection one_thread_terrain 0 0 section_data2 true = Some a /\
    GenerateMeshSection one_thread_terrain 1 0 section_data2 true = Some b /\
    forall y, 0 <= y < ComponentSize one_thread_terrain ->
      let i := Z.to_nat (y * ComponentSize one_thread_terrain + (ComponentSize one_thread_terrain - 1)) in
      let j := Z.to_nat (y * ComponentSize one_thread_terrain) in
      nth_error (Vertices a) i = nth_error (Vertices b) j /\
      nth_error (UV0 a) i = nth_error (UV0 b) j /\
      nth_error (Normals a) i = nth_error (Normals b) j /\
      nth_error (Tangents a) i = nth_error (Tangents b) j.
Proof.
  assert (F0 : section_fits one_thread_terrain 0 0) by (apply fits_one_thread_terrain; lia).
  assert (F1 : section_fits one_thread_terrain (0 + 1) 0) by (apply fits_one_thread_terrain; lia).
  split; [exact (conj F0 (conj F1 sized_section_data2))|].
  destruct (GenerateMeshSection_ok one_thread_terrain 0 0 section_data2 true F0 sized_section_data2)
    as (a & Ea & _).
  destruct (GenerateMeshSection_ok one_thread_terrain (0 + 1) 0 section_data2 true F1 sized_section_data2)
    as (b & Eb & _).
  exists a, b. split; [exact Ea|]. split; [exact Eb|].
  exact (GenerateMeshSection_seam_x one_thread_terrain 0 0 section_data2 section_data2 true true a b
           F0 F1 sized_section_data2 sized_section_data2 Ea Eb).
Defined.

Lemma GenerateMeshSection_seam_y_witness :
  (section_fits one_thread_terrain 0 0 /\ section_fits one_thread_terrain 0 1 /\
   sized (ComponentSize one_thread_terrain) section_data2) /\
  exists a b,
    GenerateMeshSection one_thread_terrain 0 0 section_data2 true = Some a /\
    GenerateMeshSection one_thread_terrain 0 1 section_data2 true = Some b /\
    forall x, 0 <= x < ComponentSize one_thread_terrain ->
      let i := Z.to_nat ((ComponentSize one_thread_terrain - 1) * ComponentSize one_thread_terrain + x) in
      let j := Z.to_nat x in
      nth_error (Vertices a) i = nth_error (Vertices b) j /\
      nth_error (UV0 a) i = nth_error (UV0 b) j /\
      nth_error (Normals a) i = nth_error (Normals b) j /\
      nth_error (Tangents a) i = nth_error (Tangents b) j.
Proof.
  assert (F0 : section_fits one_thread_terrain 0 0) by (apply fits_one_thread_terrain; lia).
  assert (F1 : section_fits one_thread_terrain 0 (0 + 1)) by (apply fits_one_thread_terrain; lia).
  split; [exact (conj F0 (conj F1 sized_section_data2))|].
  destruct (GenerateMeshSection_ok one_thread_terrain 0 0 section_data2 true F0 sized_section_data2)
    as (a & Ea & _).
  destruct (GenerateMeshSection_ok one_thread_terrain 0 (0 + 1) section_data2 true F1 sized_section_data2)
    as (b & Eb & _).
  exists a, b. split; [exact Ea|]. split; [exact Eb|].
  exact (GenerateMeshSection_seam_y one_thread_terrain 0 0 section_data2 section_data2 true true a b
           F0 F1 sized_section_data2 sized_section_data2 Ea Eb).
Defined.

Lemma GenerateMeshSection_overloads_agree_witness :
  let u := mkTerrainVertex ZeroVector (mkV2 0 0) ZeroVector ZeroVector in
  (section_fits cex_terrain 0 0 /\ sized (ComponentSize cex_terrain) section_data2) /\
  exists d' vs is,
    GenerateMeshSection cex_terrain 0 0 section_data2 true = Some d' /\
    GenerateMeshSection_TerrainVertex cex_terrain 0 0 [] [] u 0 = Some (vs, is) /\
    map Position vs = map (fun v => mkV (VX v) (VY v) (VZ v + 10)) (Vertices d') /\
    map UV vs = UV0 d' /\ map Normal vs = Normals d' /\
    map (fun v => ProcMeshTangent (VX (Tangent v)) (VY (Tangent v)) (VZ (Tangent v))) vs = Tangents d' /\
    is = Triangles d'.
Proof.
  cbv zeta. split; [exact (conj fits_cex_terrain sized_section_data2)|].
  exact (GenerateMeshSection_overloads_agree cex_terrain 0 0 section_data2 [] []
           (mkTerrainVertex ZeroVector (mkV2 0 0) ZeroVector ZeroVector) 0
           fits_cex_terrain sized_section_data2).
Defined.

Lemma GenerateBorderSection_meets_sections_witness :
  let t := one_thread_terrain in
  (2 <= ComponentSize t <= 18919 /\ 1 <= XWidth t /\ 1 <= YWidth t /\ wf_map (Map t) /\
   WidthX (Map t) = (ComponentSize t - 1) * XWidth t + 3 /\ WidthX (Map t) <= 65537 /\
   WidthY (Map t) = (ComponentSize t - 1) * YWidth t + 3 /\ WidthY (Map t) <= 65537) /\
  let n := ComponentSize t in
  let wx := WidthX (Map t) - 2 in
  let wy := WidthY (Map t) - 2 in
  exists d, GenerateBorderSection t EmptyData true = Some d /\
    (forall Y y d1 c a, 0 <= Y < YWidth t -> 0 <= y < n -> sized n d1 ->
       GenerateMeshSection t 0 Y d1 c = Some a ->
       nth_error (Vertices d) (Z.to_nat (2 * (Y * (n - 1) + y) + 1)) =
       nth_error (Vertices a) (Z.to_nat (y * n))) /\
    (forall Y y d1 c a, 0 <= Y < YWidth t -> 0 <= y < n -> sized n d1 ->
       GenerateMeshSection t (XWidth t - 1) Y d1 c = Some a ->
       nth_error (Vertices d) (Z.to_nat (2 * wy + 2 * (Y * (n - 1) + y) + 1)) =
       nth_error (Vertices a) (Z.to_nat (y * n + (n - 1)))) /\
    (forall X x d1 c a, 0 <= X < XWidth t -> 0 <= x < n -> sized n d1 ->
       GenerateMeshSection t X 0 d1 c = Some a ->
       nth_error (Vertices d) (Z.to_nat (4 * wy + 2 * (X * (n - 1) + x) + 1)) =
       nth_error (Vertices a) (Z.to_nat x)) /\
    (forall X x d1 c a, 0 <= X < XWidth t -> 0 <= x < n -> sized n d1 ->
       GenerateMeshSection t X (YWidth t - 1) d1 c = Some a ->
       nth_error (Vertices d) (Z.to_nat (4 * wy + 2 * wx + 2 * (X * (n - 1) + x) + 1)) =
       nth_error (Vertices a) (Z.to_nat ((n - 1) * n + x))).
Proof.
  cbv zeta.
  assert (Hwf : wf_map (Map one_thread_terrain))
    by (unfold wf_map, one_thread_terrain; simpl; repeat split; try lia; reflexivity).
  split; [split; [cbn; lia|]; split; [cbn; lia|]; split; [cbn; lia|]; split; [exact Hwf|];
          cbn; repeat split; lia|].
  exact (GenerateBorderSection_meets_sections one_thread_terrain ltac:(cbn; lia) ltac:(cbn; lia)
           ltac:(cbn; lia) Hwf ltac:(cbn; lia) ltac:(cbn; lia) ltac:(cbn; lia) ltac:(cbn; lia)).
Defined.

Lemma RebuildHeightmap_resizes_witness :
  let t := one_thread_terrain in
  (0 < (ComponentSize t - 1) * XWidth t + 3 < 65536 /\
   0 < (ComponentSize t - 1) * YWidth t + 3 < 65536 /\
   ((ComponentSize t - 1) * XWidth t + 3) * ((ComponentSize t - 1) * YWidth t + 3) < 2 ^ 31 /\
   0 < 1) /\
  exists m, RebuildHeightmap t 1 =
              Some (mkTerrain m (ComponentSize t) (XWidth t) (YWidth t) (Tiling t) (Border t)
                      (WorkerThreads t) (DirtyMesh t) (Meshes t) (UpdateMesh t) (ComponentBuffer t)) /\
    wf_map m /\
    WidthX m = (ComponentSize t - 1) * XWidth t + 3 /\
    WidthY m = (ComponentSize t - 1) * YWidth t + 3 /\
    MaxHeight m = 1 /\
    forall k, (k < Z.to_nat (WidthX m * WidthY m))%nat ->
      nth k (MapData m) 0%R = nth k (MapData (Map t)) 0%R.
Proof.
  cbv zeta. split; [cbn; repeat split; lia|].
  exact (RebuildHeightmap_resizes one_thread_terrain 1 ltac:(cbn; lia) ltac:(cbn; lia)
           ltac:(cbn; lia) ltac:(lia)).
Defined.

Lemma Allocate_vertex_overflow_witness : 46341 <= 46341 <= 65535 /\ Allocate 46341 = None.
Proof.
  assert (H : 46341 <= 46341 <= 65535) by lia.
  split; [exact H|]. exact (Allocate_vertex_overflow 46341 H).
Defined.

Section TerrainComponentFacts.
Import TerrainComponent.


(** X20: SetLODs keeps the LOD count between 0 and Size: a count in [0, Size) is kept, a negative count (a huge uint32) is replaced by Size, and the distance scale is stored. *)
Theorem SetLODs_bounded c NumLODs DistanceScale :
  0 <= Size c < 2 ^ 31 -> -2 ^ 31 <= NumLODs < 2 ^ 31 ->
  let c' := SetLODs c NumLODs DistanceScale in
  0 <= LODs c' <= Size c /\
  (0 <= NumLODs < Size c -> LODs c' = NumLODs) /\
  (NumLODs < 0 -> LODs c' = Size c) /\
  LODScale c' = DistanceScale.
Proof.
  intros Hs Hn. cbv zeta. unfold SetLODs. cbn [LODs LODScale].
  rewrite (wrap32_id (Size c)) by lia.
  destruct (Z_lt_le_dec NumLODs 0) as [Hneg | Hpos].
  - replace (NumLODs mod 2 ^ 32) with (NumLODs + 2 ^ 32).
    2:{ rewrite <- (Z.mod_add NumLODs 1) by lia. rewrite Z.mod_small by lia. ring. }
    destruct (Z.ltb_spec (NumLODs + 2 ^ 32) (Size c)); [lia|]. repeat split; lia.
  - rewrite Z.mod_small by lia.
    destruct (Z.ltb_spec NumLODs (Size c)); repeat split; lia.
Qed.

Lemma Find_first (l pre post : list nat) b :
  l = pre ++ b :: post -> ~ In b pre -> Find l b = Some (Z.of_nat (length pre)).
Proof.
  intros -> Hn. induction pre as [|a pre IH]; cbn [app Find].
  - rewrite Nat.eqb_refl. reflexivity.
  - destruct (Nat.eqb_spec a b) as [->|Hab]; [exfalso; apply Hn; left; reflexivity|].
    rewrite IH by (intros H; apply Hn; right; exact H). f_equal. cbn [length]. lia.
Qed.

Lemma copy_loop (q : list nat) (k : Z) (m : nat) :
  0 <= k -> (Z.to_nat k + m <= length q)%nat ->
  for_each (map (fun i => k + i) (zrange (Z.of_nat m)))
    (fun i nq => let* b := arr_get q i in Some (arr_add nq b)) [] =
  Some (firstn m (skipn (Z.to_nat k) q)).
Proof.
  intros Hk. induction m as [|m IH]; intros Hm; [reflexivity|].
  rewrite zrange_succ, map_app, for_each_app, IH by lia. cbn [for_each map].
  assert (Hlt : (m < length (skipn (Z.to_nat k) q))%nat) by (rewrite length_skipn; lia).
  destruct (skipn_cons_nth _ _ Hlt) as [h Eh].
  assert (Hg : arr_get q (k + Z.of_nat m) = Some h).
  { unfold arr_get. replace (0 <=? k + Z.of_nat m) with true by (symmetry; apply Z.leb_le; lia).
    replace (Z.to_nat (k + Z.of_nat m)) with (Z.to_nat k + m)%nat by lia.
    rewrite <- nth_error_skipn. rewrite <- (Nat.add_0_r m), <- nth_error_skipn, Eh. reflexivity. }
  rewrite Hg. unfold arr_add. rewrite (firstn_S_skipn _ _ _ _ Eh). reflexivity.
Qed.

Lemma FinishCollision_run c Success b pre post :
  BodySetupQueue c = pre ++ b :: post -> ~ In b pre ->
  exists c', FinishCollision c Success b = Some c' /\
    BodySetupQueue c' = (if Success then post else pre ++ post) /\
    BodySetup c' = (if Success then Some b else BodySetup c).
Proof.
  intros Hq Hn. unfold FinishCollision. rewrite (Find_first _ pre post b Hq Hn).
  destruct Success.
  - unfold zrange_from.
    replace (Z.of_nat (length (BodySetupQueue c)) - (Z.of_nat (length pre) + 1))
      with (Z.of_nat (length post)) by (rewrite Hq, length_app; cbn [length]; lia).
    rewrite copy_loop by (rewrite ?Hq, ?length_app; cbn [length]; lia).
    eexists; split; [reflexivity|]. cbn [BodySetupQueue BodySetup]. split; [|reflexivity].
    rewrite Hq. replace (Z.to_nat (Z.of_nat (length pre) + 1)) with (length (pre ++ [b])) by (rewrite length_app; cbn [length]; lia).
    replace (pre ++ b :: post) with ((pre ++ [b]) ++ post) by (rewrite <- app_assoc; reflexivity).
    rewrite skipn_app, skipn_all, Nat.sub_diag. cbn [skipn app]. apply firstn_all.
  - eexists; split; [reflexivity|]. cbn [BodySetupQueue BodySetup]. split; [|reflexivity].
    unfold RemoveAt. rewrite Hq, Nat2Z.id.
    rewrite firstn_app, Nat.sub_diag, firstn_all. cbn [firstn]. rewrite app_nil_r. f_equal.
    replace (pre ++ b :: post) with ((pre ++ [b]) ++ post) by (rewrite <- app_assoc; reflexivity).
    replace (length pre + 1)%nat with (length (pre ++ [b])) by (rewrite length_app; reflexivity).
    rewrite skipn_app, skipn_all, Nat.sub_diag. reflexivity.
Qed.

(** X21: When the body is in the cooking queue, a successful FinishCollision installs it as the body setup and keeps only the bodies queued after it; a failed one only removes it from the queue. *)
Theorem FinishCollision_removes c Success b pre post :
  BodySetupQueue c = pre ++ b :: post -> ~ In b pre ->
  exists c', FinishCollision c Success b = Some c' /\
    BodySetupQueue c' = (if Success then post else pre ++ post) /\
    BodySetup c' = (if Success then Some b else BodySetup c).
Proof. exact (FinishCollision_run c Success b pre post). Qed.

Lemma Find_none (l : list nat) b : ~ In b l -> Find l b = None.
Proof.
  induction l as [|a l IH]; intros Hn; cbn [Find]; [reflexivity|].
  destruct (Nat.eqb_spec a b) as [->|_]; [exfalso; apply Hn; left; reflexivity|].
  rewrite IH by (intros H; apply Hn; right; exact H). reflexivity.
Qed.

Lemma NoDup_app_incl {A} (a a' r : list A) :
  NoDup (a ++ r) -> NoDup a' -> incl a' a -> NoDup (a' ++ r).
Proof.
  intros H Ha' Hi. induction a' as [|x a' IH]; cbn [app].
  - eapply NoDup_app_remove_l. exact H.
  - inversion Ha' as [|? ? Hx Ha'']; subst. constructor.
    + rewrite in_app_iff. intros [Hin|Hin]; [contradiction|].
      assert (Hxa : In x a) by (apply Hi; left; reflexivity).
      destruct (in_split _ _ Hxa) as (p & s & ->).
      rewrite <- app_assoc in H. cbn [app] in H. apply NoDup_remove_2 in H.
      apply H. rewrite !in_app_iff. right. right. exact Hin.
    + apply IH; [exact Ha''|]. intros y Hy. apply Hi. right. exact Hy.
Qed.

Lemma FinishCollision_step c s b c' :
  NoDup (BodySetupQueue c) -> FinishCollision c s b = Some c' ->
  NoDup (BodySetupQueue c') /\ incl (BodySetupQueue c') (BodySetupQueue c).
Proof.
  intros Hnd E. destruct (in_dec Nat.eq_dec b (BodySetupQueue c)) as [Hin|Hout].
  - destruct (in_split _ _ Hin) as (pre & post & Hq).
    assert (Hpre : ~ In b pre).
    { rewrite Hq in Hnd. intros Hb. apply NoDup_remove_2 in Hnd. apply Hnd. apply in_app_iff. left. exact Hb. }
    destruct (FinishCollision_run c s b pre post Hq Hpre) as (c'' & E' & Hq' & _).
    rewrite E in E'. injection E' as <-. rewrite Hq'. rewrite Hq in Hnd |- *.
    destruct s.
    + split; [apply NoDup_app_remove_l in Hnd; inversion Hnd; assumption|].
      intros y Hy. apply in_app_iff. right. right. exact Hy.
    + split; [eapply NoDup_remove_1; exact Hnd|].
      intros y Hy. apply in_app_iff in Hy. apply in_app_iff. destruct Hy; [left|right; right]; assumption.
  - unfold FinishCollision in E. rewrite Find_none in E by exact Hout. injection E as <-.
    split; [exact Hnd|apply incl_refl].
Qed.

(** X22: Over any successful sequence of UpdateCollision and FinishCollision calls, a queue that starts with distinct bodies, all different from the ones created later, stays free of duplicates and holds only bodies that were queued or created. *)
Theorem collision_queue_distinct c evs c' :
  NoDup (BodySetupQueue c ++ cooked evs) -> run_collision c evs = Some c' ->
  NoDup (BodySetupQueue c') /\ incl (BodySetupQueue c') (BodySetupQueue c ++ cooked evs).
Proof.
  revert c. induction evs as [|[a nb|s b] r IH]; intros c Hnd E; cbn [run_collision cooked] in *.
  - injection E as <-. rewrite app_nil_r in *. split; [exact Hnd|apply incl_refl].
  - destruct (IH (UpdateCollision c a nb)) as [H1 H2]; [| exact E |].
    + unfold UpdateCollision. destruct a; cbn [BodySetupQueue].
      * rewrite <- app_assoc. exact Hnd.
      * cbn [app]. apply NoDup_app_remove_l in Hnd. inversion Hnd; assumption.
    + split; [exact H1|]. intros y Hy. apply H2 in Hy. revert Hy. unfold UpdateCollision.
      destruct a; cbn [BodySetupQueue]; rewrite !in_app_iff; cbn [In]; tauto.
  - destruct (FinishCollision c s b) as [c1|] eqn:E1; [|discriminate].
    destruct (FinishCollision_step c s b c1) as [Hn1 Hi1];
      [eapply NoDup_app_remove_r; exact Hnd | exact E1 |].
    destruct (IH c1) as [H1 H2]; [| exact E |].
    + apply (NoDup_app_incl (BodySetupQueue c)); assumption.
    + split; [exact H1|]. intros y Hy. apply H2 in Hy. apply in_app_iff in Hy.
      apply in_app_iff. destruct Hy as [Hy|Hy]; [left; apply Hi1|right]; exact Hy.
Qed.

Ltac mod32_simpl :=
  repeat match goal with |- context [?e mod 2 ^ 32] => rewrite (Z.mod_small e (2 ^ 32)) by nia end.

Lemma length_flat_map_component_quad n l :
  length (flat_map (component_quad_tris n) l) = (6 * length l)%nat.
Proof.
  induction l as [|[x y] l IH]; simpl; [reflexivity|]. rewrite IH. lia.
Qed.

Lemma CreateMeshData_run c w u ui :
  2 <= w -> 6 * (w * w) < 2 ^ 31 ->
  exists c', CreateMeshData c w u ui = Some c' /\
    Vertices c' = map (fun '(x, y) => mkV (IZR x) (IZR y) 0) (grid w w) /\
    IndexBuffer c' = flat_map (component_quad_tris w) (grid (w - 1) (w - 1)) /\
    Size c' = Size c /\ LODs c' = LODs c /\ BodySetupQueue c' = BodySetupQueue c.
Proof.
  intros Hw Hs. unfold CreateMeshData.
  rewrite (wrap32_id (w * w)) by nia.
  destruct (SetNum_ok [] (w * w) u ltac:(nia)) as (vs0 & E0 & L0 & _). rewrite E0.
  assert (Hgl : length (grid w w) = Z.to_nat (w * w)).
  { pose proof (length_grid w w ltac:(lia) ltac:(lia)). lia. }
  set (vtx := fun '(x, y) => mkV (IZR x) (IZR y) 0).
  lazymatch goal with |- context [for_each (grid w w) ?body vs0] =>
    let P := constr:(fun (pre : list (Z * Z)) s => s = map vtx pre ++ skipn (length pre) vs0) in
    assert (L1 : exists s', for_each (grid w w) body vs0 = Some s' /\ P (grid w w) s');
    [apply (for_each_inv P body (grid w w))|] end.
  { intros pre [x y] post s Hfull Es.
    destruct (grid_position w w pre x y post ltac:(lia) ltac:(lia) Hfull) as (Hj & Hx & Hy).
    assert (Hlt : (length pre < length vs0)%nat) by nia.
    destruct (skipn_cons_nth vs0 (length pre) Hlt) as [h Eh].
    cbn beta iota zeta. rewrite (wrap32_id (y * w + x)) by nia.
    rewrite Es, Eh. rewrite arr_set_at by (rewrite length_map; lia).
    eexists; split; [reflexivity|].
    rewrite map_app, length_app, Nat.add_1_r, <- !app_assoc. reflexivity. }
  { reflexivity. }
  cbv beta in L1. destruct L1 as (vs1 & E1 & Es1). rewrite E1.
  rewrite (Z.mod_small (w - 1)) by lia.
  rewrite (wrap32_id ((w - 1) * (w - 1) * 6)) by nia.
  destruct (SetNum_ok [] ((w - 1) * (w - 1) * 6) ui ltac:(nia)) as (is0 & E3 & L3 & _). rewrite E3.
  lazymatch goal with |- context [for_each (grid ?p ?p) ?body is0] =>
    let P := constr:(fun (pre : list (Z * Z)) s =>
                s = flat_map (component_quad_tris w) pre ++ skipn (6 * length pre) is0) in
    assert (L4 : exists s', for_each (grid p p) body is0 = Some s' /\ P (grid p p) s');
    [apply (for_each_inv P body (grid p p))|] end.
  { intros pre [x y] post s Hfull Hs'.
    destruct (grid_position (w - 1) (w - 1) pre x y post ltac:(lia) ltac:(lia) Hfull)
      as (Hj & Hx & Hy).
    assert (Hlt : (6 * length pre + 6 <= length is0)%nat) by nia.
    destruct (skipn_six is0 (6 * length pre) Hlt) as (h0 & h1 & h2 & h3 & h4 & h5 & E6).
    cbn beta iota zeta. mod32_simpl. wrap32_simpl.
    rewrite Hs', E6.
    pose proof (length_flat_map_component_quad w pre) as HLq.
    rewrite arr_set_at by lia.
    rewrite arr_set_at by (rewrite length_app; simpl; lia).
    rewrite arr_set_at by (rewrite !length_app; simpl; lia).
    rewrite arr_set_at by (rewrite !length_app; simpl; lia).
    rewrite arr_set_at by (rewrite !length_app; simpl; lia).
    rewrite arr_set_at by (rewrite !length_app; simpl; lia).
    eexists; split; [reflexivity|].
    rewrite flat_map_app, length_app. cbn [length flat_map component_quad_tris].
    replace (6 * (length pre + 1))%nat with (6 * length pre + 6)%nat by lia.
    rewrite <- !app_assoc. reflexivity. }
  { reflexivity. }
  cbv beta in L4. destruct L4 as (is1 & E4 & HI). rewrite E4.
  eexists; split; [reflexivity|]. cbn [Vertices IndexBuffer Size LODs BodySetupQueue].
  split; [|split; [|repeat split]].
  - rewrite Es1, skipn_all2, app_nil_r; [reflexivity|]. lia.
  - rewrite HI, skipn_all2, app_nil_r; [reflexivity|].
    pose proof (length_grid (w - 1) (w - 1) ltac:(lia) ltac:(lia)). nia.
Qed.

Lemma triples_app (l1 l2 : list Z) k :
  length l1 = (3 * k)%nat -> triples (l1 ++ l2) = triples l1 ++ triples l2.
Proof.
  revert l1; induction k as [|k IH]; intros l1 Hl.
  - destruct l1; [reflexivity|discriminate].
  - destruct l1 as [|a [|b [|d l1]]]; cbn [length] in Hl; try lia.
    cbn [app triples]. rewrite IH by lia. reflexivity.
Qed.

Lemma triples_short (l : list Z) : (length l < 3)%nat -> triples l = [].
Proof. intros H. destruct l as [|a [|b [|d l]]]; cbn [length] in H; try lia; reflexivity. Qed.

Lemma GetPhysicsTriMeshData_run c cd :
  Z.of_nat (length (IndexBuffer c)) < 2 ^ 31 ->
  Forall (fun v => 0 <= v < 2 ^ 31) (IndexBuffer c) ->
  GetPhysicsTriMeshData c cd =
    Some (mkCollision (Vertices c) (Indices cd ++ triples (IndexBuffer c)) true true true, true).
Proof.
  intros Hl Hv. unfold GetPhysicsTriMeshData.
  set (ib := IndexBuffer c) in *.
  set (body := fun i tris =>
      let* a := arr_get ib (wrap32 (i * 3)) in
      let* b := arr_get ib (wrap32 (i * 3 + 1)) in
      let* d := arr_get ib (wrap32 (i * 3 + 2)) in
      Some (arr_add tris (mkTri (wrap32 a) (wrap32 b) (wrap32 d)))).
  assert (Hloop : forall m : nat, (3 * m <= length ib)%nat ->
            for_each (zrange (Z.of_nat m)) body (Indices cd) =
            Some (Indices cd ++ triples (firstn (3 * m) ib))).
  { induction m as [|m IH]; intros Hm; [cbn; rewrite app_nil_r; reflexivity|].
    rewrite zrange_succ, for_each_app, IH by lia. cbn [for_each].
    assert (H3 : (3 * m + 3 <= length ib)%nat) by lia.
    destruct (skipn_six (ib ++ [0; 0; 0]) (3 * m) ltac:(rewrite length_app; cbn [length]; lia))
      as (a & b & d & _ & _ & _ & _).
    assert (Hs : exists a b d r, skipn (3 * m) ib = a :: b :: d :: r).
    { destruct (skipn (3 * m) ib) as [|a' [|b' [|d' r']]] eqn:Es;
        [| | |eexists _, _, _, _; reflexivity];
        apply (f_equal (@length Z)) in Es; rewrite length_skipn in Es; cbn [length] in Es; lia. }
    clear a b d. destruct Hs as (a & b & d & r & Es).
    assert (Hn : forall j v, nth_error (skipn (3 * m) ib) j = Some v ->
                   arr_get ib (Z.of_nat (3 * m + j)) = Some v /\ 0 <= v < 2 ^ 31).
    { intros j v Hj. rewrite nth_error_skipn in Hj. split.
      - unfold arr_get. rewrite Nat2Z.id. replace (0 <=? Z.of_nat (3 * m + j)) with true
          by (symmetry; apply Z.leb_le; lia). exact Hj.
      - eapply (proj1 (Forall_forall _ _) Hv). eapply nth_error_In. exact Hj. }
    rewrite Es in Hn.
    destruct (Hn 0%nat a eq_refl) as [Ha Ba]. destruct (Hn 1%nat b eq_refl) as [Hb Bb].
    destruct (Hn 2%nat d eq_refl) as [Hd Bd].
    unfold body. rewrite (wrap32_id (Z.of_nat m * 3)), (wrap32_id (Z.of_nat m * 3 + 1)),
      (wrap32_id (Z.of_nat m * 3 + 2)) by lia.
    replace (Z.of_nat m * 3) with (Z.of_nat (3 * m + 0)) by lia. rewrite Ha.
    replace (Z.of_nat (3 * m + 0) + 1) with (Z.of_nat (3 * m + 1)) by lia. rewrite Hb.
    replace (Z.of_nat (3 * m + 0) + 2) with (Z.of_nat (3 * m + 2)) by lia. rewrite Hd.
    rewrite (wrap32_id a), (wrap32_id b), (wrap32_id d) by lia.
    unfold arr_add. rewrite <- app_assoc. f_equal. f_equal.
    replace (3 * S m)%nat with (3 * m + 3)%nat by lia.
    rewrite <- (firstn_skipn (3 * m) ib) at 2. rewrite firstn_app.
    rewrite firstn_firstn, Nat.min_r by lia. rewrite length_firstn, Nat.min_l by lia.
    replace (3 * m + 3 - 3 * m)%nat with 3%nat by lia. rewrite Es.
    rewrite (triples_app _ _ m) by (rewrite length_firstn; lia). reflexivity. }
  replace (Z.quot (Z.of_nat (length ib)) 3) with (Z.of_nat (length ib / 3)).
  2:{ rewrite Z.quot_div_nonneg by lia. rewrite Nat2Z.inj_div. reflexivity. }
  rewrite Hloop by (apply Nat.Div0.mul_div_le).
  f_equal. f_equal. f_equal.
  assert (Hk : length (firstn (3 * (length ib / 3)) ib) = (3 * (length ib / 3))%nat)
    by (rewrite length_firstn; apply Nat.min_l, Nat.Div0.mul_div_le).
  assert (Hr : (length (skipn (3 * (length ib / 3)) ib) < 3)%nat).
  { rewrite length_skipn. pose proof (Nat.div_mod (length ib) 3 ltac:(lia)).
    pose proof (Nat.mod_upper_bound (length ib) 3 ltac:(lia)). lia. }
  set (k := (3 * (length ib / 3))%nat) in *.
  pose proof (triples_app (firstn k ib) (skipn k ib) (length ib / 3) Hk) as HT.
  rewrite firstn_skipn, (triples_short (skipn k ib) Hr), app_nil_r in HT.
  rewrite HT. reflexivity.
Qed.

Lemma triples_component_quad w l :
  triples (flat_map (component_quad_tris w) l) =
  map (fun tr => mkTri (v0 tr) (v2 tr) (v1 tr)) (triples (flat_map (quad_tris w) l)).
Proof.
  induction l as [|[x y] l IH]; [reflexivity|].
  cbn [flat_map]. rewrite (triples_app _ _ 2) by reflexivity.
  rewrite (triples_app (quad_tris w (x, y)) _ 2) by reflexivity.
  rewrite IH, map_app. reflexivity.
Qed.

(** X23: For a width of at least 2 (6 * width^2 fitting an int32), CreateMeshData lays the vertices on the width x width grid, and GetPhysicsTriMeshData then appends the grid triangles wound opposite to GenerateMeshSection quads (second and third index swapped). *)
Theorem CreateMeshData_collision_winding c w u ui cd :
  2 <= w -> 6 * (w * w) < 2 ^ 31 ->
  exists c', CreateMeshData c w u ui = Some c' /\
    Vertices c' = map (fun '(x, y) => mkV (IZR x) (IZR y) 0) (grid w w) /\
    GetPhysicsTriMeshData c' cd =
      Some (mkCollision (Vertices c')
              (Indices cd ++ map (fun tr => mkTri (v0 tr) (v2 tr) (v1 tr))
                                 (triples (flat_map (quad_tris w) (grid (w - 1) (w - 1)))))
              true true true, true).
Proof.
  intros Hw Hs. destruct (CreateMeshData_run c w u ui Hw Hs) as (c' & E & HV & HI & _).
  exists c'. split; [exact E|]. split; [exact HV|].
  rewrite GetPhysicsTriMeshData_run, HI, triples_component_quad; [reflexivity| |].
  - rewrite HI, length_flat_map_component_quad.
    pose proof (length_grid (w - 1) (w - 1) ltac:(lia) ltac:(lia)). nia.
  - rewrite HI. apply Forall_forall. intros v Hv. apply in_flat_map in Hv.
    destruct Hv as ([x y] & Hg & Hv). apply in_grid_iff in Hg.
    cbn [component_quad_tris In] in Hv. intuition nia.
Qed.


Lemma SetLODs_bounded_witness :
  (0 <= Size sample_component < 2 ^ 31 /\ -2 ^ 31 <= 2 < 2 ^ 31) /\
  let c' := SetLODs sample_component 2 1%R in
  0 <= LODs c' <= Size sample_component /\
  (0 <= 2 < Size sample_component -> LODs c' = 2) /\
  (2 < 0 -> LODs c' = Size sample_component) /\
  LODScale c' = 1%R.
Proof.
  assert (H1 : 0 <= Size sample_component < 2 ^ 31) by (cbn; lia).
  assert (H2 : -2 ^ 31 <= 2 < 2 ^ 31) by lia.
  split; [split; assumption|]. exact (SetLODs_bounded sample_component 2 1%R H1 H2).
Defined.

Lemma FinishCollision_removes_witness :
  (BodySetupQueue sample_component = [1%nat] ++ 2%nat :: [3%nat] /\ ~ In 2%nat [1%nat]) /\
  exists c', FinishCollision sample_component true 2 = Some c' /\
    BodySetupQueue c' = [3%nat] /\ BodySetup c' = Some 2%nat.
Proof.
  assert (H1 : BodySetupQueue sample_component = [1%nat] ++ 2%nat :: [3%nat]) by reflexivity.
  assert (H2 : ~ In 2%nat [1%nat]) by (cbn; intuition discriminate).
  split; [split; assumption|].
  exact (FinishCollision_removes sample_component true 2 [1%nat] [3%nat] H1 H2).
Defined.

Lemma collision_queue_distinct_witness :
  let evs := [Cook true 4; Finished false 2; Finished true 3] in
  NoDup (BodySetupQueue sample_component ++ cooked evs) /\
  exists c', run_collision sample_component evs = Some c' /\
    NoDup (BodySetupQueue c') /\ incl (BodySetupQueue c') (BodySetupQueue sample_component ++ cooked evs).
Proof.
  cbv zeta.
  assert (H : NoDup (BodySetupQueue sample_component ++ cooked [Cook true 4; Finished false 2; Finished true 3]))
    by (cbn; repeat constructor; cbn; intuition discriminate).
  split; [exact H|].
  destruct (run_collision sample_component [Cook true 4; Finished false 2; Finished true 3]) as [c'|] eqn:E.
  - exists c'. split; [reflexivity|].
    exact (collision_queue_distinct sample_component _ c' H E).
  - vm_compute in E. discriminate.
Defined.

Lemma CreateMeshData_collision_winding_witness :
  (2 <= 2 /\ 6 * (2 * 2) < 2 ^ 31) /\
  exists c', CreateMeshData sample_component 2 ZeroVector 0 = Some c' /\
    Vertices c' = map (fun '(x, y) => mkV (IZR x) (IZR y) 0) (grid 2 2) /\
    GetPhysicsTriMeshData c' (mkCollision [] [] false false false) =
      Some (mkCollision (Vertices c')
              ([] ++ map (fun tr => mkTri (v0 tr) (v2 tr) (v1 tr))
                         (triples (flat_map (quad_tris 2) (grid (2 - 1) (2 - 1)))))
              true true true, true).
Proof.
  assert (H1 : 2 <= 2) by lia. assert (H2 : 6 * (2 * 2) < 2 ^ 31) by lia.
  split; [split; assumption|].
  exact (CreateMeshData_collision_winding sample_component 2 ZeroVector 0
           (mkCollision [] [] false false false) H1 H2).
Defined.

End TerrainComponentFacts.
